(** * REWIRE compound-semiconductor labelling app: the session controller

    A shallow embedding of [app_rewire_cs_required.py], a Streamlit script.
    Streamlit re-executes the whole script after every interaction, so the
    embedding has one function, [render], for one execution of the script:
    it takes the session state and the values the widgets return in that
    execution, and gives the new session state, the elements drawn, and how
    the execution ended (ran to the end, [st.stop()], [st.rerun()], or an
    uncaught exception).

    Modelling choices, once and for all:
    - a Python [str] is the list of its code points ([N]);
    - a pandas frame is its column names, the dtype of each column and its
      rows, a row being a finite map from column name to cell; a cell is
      missing ([NA]), an integer or a text.  Numbers that are not integers
      are left out of the model;
    - assignments follow pandas 3: a value the dtype of the column cannot
      hold is a [TypeError], and what was assigned before it stays assigned;
    - [pd.read_csv], [pd.ExcelFile] and [pd.read_excel] are external: an
      uploaded file carries what they answer on it;
    - the operator setting the toolbar check box is an event of its own
      ([SetFilter]): Streamlit writes the value of a keyed widget to the
      session state before the script runs;
    - the left panel only formats fields of the record on display and is
      left out, [normalize_url] apart. *)

From Stdlib Require Import ZArith NArith List String Ascii Bool Lia
  DecimalString.
From stdpp Require Import base option list gmap.

Local Open Scope Z_scope.

(** ** Python strings *)

Module PyStr.

Abbreviation str := (list N).

(** An ASCII literal of the script. *)
Definition lit (s : string) : str :=
  (fun a => N_of_ascii a) <$> list_ascii_of_string s.

(** [str.isspace] on one character: the code points Python's [strip()]
    removes. *)
Definition isspace (c : N) : bool :=
  ((9 <=? c) && (c <=? 13) || (28 <=? c) && (c <=? 32)
   || (c =? 133) || (c =? 160) || (c =? 5760)
   || (8192 <=? c) && (c <=? 8202)
   || (c =? 8232) || (c =? 8233) || (c =? 8239) || (c =? 8287)
   || (c =? 12288))%N.

Fixpoint lstrip (s : str) : str :=
  match s with
  | c :: s' => if isspace c then lstrip s' else s
  | [] => []
  end.

Definition rstrip (s : str) : str := reverse (lstrip (reverse s)).

Definition strip (s : str) : str := rstrip (lstrip s).

(** [str.lower] on the ASCII letters.  The script only ever tests the
    lowered string against an ASCII prefix or suffix without [i] or [k]
    (the two ASCII letters that some non-ASCII capital lowers to), so the
    case mapping of the other code points cannot be observed and is left
    out. *)
Definition lower_char (c : N) : N :=
  if ((65 <=? c) && (c <=? 90))%N then (c + 32)%N else c.

Definition lower (s : str) : str := lower_char <$> s.

Fixpoint startswith (s p : str) : bool :=
  match p, s with
  | [], _ => true
  | _ :: _, [] => false
  | a :: p', b :: s' => (a =? b)%N && startswith s' p'
  end.

Definition endswith (s p : str) : bool := startswith (reverse s) (reverse p).

(** *** [int(text)]

    The decimal digits of Unicode (category Nd, Unicode 14) come in runs of
    ten; these are the code points of the zeros. *)
Definition decimal_zeros : list N :=
  [48; 1632; 1776; 1984; 2406; 2534; 2662; 2790; 2918; 3046; 3174; 3302;
   3430; 3558; 3664; 3792; 3872; 4160; 4240; 6112; 6160; 6470; 6608; 6784;
   6800; 6992; 7088; 7232; 7248; 42528; 43216; 43264; 43472; 43504; 43600;
   44016; 65296; 66720; 68912; 69734; 69872; 69942; 70096; 70384; 70736;
   70864; 71248; 71360; 71472; 71904; 72016; 72784; 73040; 73120; 92768;
   92864; 93008; 120782; 120792; 120802; 120812; 120822; 123200; 123632;
   125264; 130032]%N.

Definition decimal_value (c : N) : option Z :=
  (fun z => Z.of_N (c - z)) <$>
    find (fun z => (z <=? c) && (c <? z + 10))%N decimal_zeros.

(** The white space [int] skips around the number: the ASCII characters the
    C locale calls spaces, and the other code points of [str.isspace]. *)
Definition int_space (c : N) : bool :=
  ((9 <=? c) && (c <=? 13) || (c =? 32) || (128 <=? c) && isspace c)%N.

Fixpoint skip_space (s : str) : str :=
  match s with
  | c :: s' => if int_space c then skip_space s' else s
  | [] => []
  end.

Inductive scanned := at_start | after_digit | after_underscore.

(** The digits, single underscores allowed between two of them: the value
    and the number of digits. *)
Fixpoint scan_digits (s : str) (acc : Z) (n : nat) (st : scanned)
  : option (Z * nat) :=
  match s with
  | [] => match st with after_digit => Some (acc, n) | _ => None end
  | c :: s' =>
      if (c =? 95)%N then
        match st with
        | after_digit => scan_digits s' acc n after_underscore
        | _ => None
        end
      else
        match decimal_value c with
        | Some v => scan_digits s' (10 * acc + v)%Z (S n) after_digit
        | None => None
        end
  end.

(** [sys.get_int_max_str_digits()], as Python sets it. *)
Definition max_str_digits : nat := 4300.

(** [int(s)] on a text, in base 10: [None] is [ValueError]. *)
Definition int_of_text (s : str) : option Z :=
  let s := reverse (skip_space (reverse (skip_space s))) in
  let '(sign, body) :=
    match s with
    | c :: s' =>
        if (c =? 43)%N then (1%Z, s')
        else if (c =? 45)%N then ((-1)%Z, s')
        else (1%Z, s)
    | [] => (1%Z, s)
    end in
  match scan_digits body 0%Z 0%nat at_start with
  | Some (v, n) => if (max_str_digits <? n)%nat then None else Some (sign * v)%Z
  | None => None
  end.

End PyStr.
Import PyStr.

(** ** Constants of the script *)

Definition ORDER_COL : str := lit "__row_order".
Definition MAIN_FLAG_COL : str := lit "compound_semiconductor".
Definition NOTES_COL : str := lit "notes".

Definition COL_COMPANY : str := lit "Company name Latin alphabet".
Definition COL_TRADE_EN : str := lit "Trade description (English)".
Definition COL_DESC : str := lit "Description and history".
Definition COL_WEBSITE : str := lit "Website address".
Definition COL_PRI_IND_D : str :=
  lit "Primary code in national industry classification - description".
Definition COL_SEC_IND_D : str :=
  lit "Secondary code in national industry classification - description".
Definition COL_BVD_SECT : str := lit "BvD sectors".

Definition SUPPLY_CHAIN_COLS : list str :=
  [ lit "supply_chain_Substrate";
    lit "supply_chain_Epiwafer";
    lit "supply_chain_Device_Design";
    lit "supply_chain_Chip_Processing";
    lit "supply_chain_Package";
    lit "supply_chain_Equipment" ].

Definition FUNCTIONAL_COLS : list str :=
  [ lit "functional_taxonomy_Compound RF";
    lit "functional_taxonomy_Compound Photonic";
    lit "functional_taxonomy_Compound Sensors";
    lit "functional_taxonomy_Power Devices" ].

Definition TAG_COLS : list str := SUPPLY_CHAIN_COLS ++ FUNCTIONAL_COLS.

(** The placeholder of [get_or_blank], as the script's file spells it: the
    three code points U+201A, U+00C4, U+00EE. *)
Definition PLACEHOLDER : str := [8218; 196; 238]%N.

(** ** Field presentation helper *)

Definition has_scheme (u : str) : bool :=
  startswith (lower u) (lit "http://") || startswith (lower u) (lit "https://").

Definition normalize_url (url : str) : str :=
  if bool_decide (url = []) || bool_decide (url = PLACEHOLDER) then []
  else
    let u := strip url in
    if negb (has_scheme u) then lit "https://" ++ u else u.


(** ** Frames *)

Inductive cell :=
| NA
| Int (z : Z)
| Str (s : str).

#[global] Instance cell_eq_dec : EqDecision cell.
Proof. solve_decision. Defined.

Abbreviation row := (gmap str cell).

(** The dtypes pandas gives the columns of the model: [int64], [float64]
    (integers with missing values among them, or nothing but missing
    values), [object], and [str] for a column of texts. *)
Inductive dtype := Int64 | Float64 | Object | Text.

#[global] Instance dtype_eq_dec : EqDecision dtype.
Proof. solve_decision. Defined.

Record DataFrame := {
  columns : list str;
  dtypes : gmap str dtype;
  rows : list row
}.

#[global] Instance DataFrame_eq_dec : EqDecision DataFrame.
Proof. solve_decision. Defined.

(** [df.dtypes[c]] *)
Definition dtype_of (d : DataFrame) (c : str) : dtype :=
  default Object (dtypes d !! c).

(** Python exceptions the script can meet. *)
Inductive exn :=
| ParserError
| ValueError (msg : str)
| KeyError (key : str)
| IndexError
| TypeError.

#[global] Instance exn_eq_dec : EqDecision exn.
Proof. solve_decision. Defined.

Definition Exc (A : Type) : Type := exn + A.

Definition bind {A B : Type} (m : Exc A) (k : A -> Exc B) : Exc B :=
  match m with
  | inl e => inl e
  | inr a => k a
  end.

Notation "'let?' x := m 'in' k" := (bind m (fun x => k))
  (at level 10, x name, m at level 100, k at level 200).

Fixpoint traverse {A B : Type} (f : A -> Exc B) (l : list A) : Exc (list B) :=
  match l with
  | [] => inr []
  | a :: l' => let? b := f a in let? bs := traverse f l' in inr (b :: bs)
  end.

(** [r[c]]; a row of a frame has every column of the frame, and a column
    without a value there reads as missing. *)
Definition getitem (r : row) (c : str) : cell := default NA (r !! c).

Definition has_col (d : DataFrame) (c : str) : bool :=
  bool_decide (c ∈ columns d).

(** The dtype pandas infers for a column made of the value [v]: [object]
    for [pd.NA] (the missing value the script assigns), [int64] for an
    integer and for a [range]. *)
Definition scalar_dtype (v : cell) : dtype :=
  match v with
  | NA => Object
  | Int _ => Int64
  | Str _ => Text
  end.

(** [df[c] = values]: a new column is appended, an existing one replaced. *)
Definition set_column (d : DataFrame) (c : str) (v : nat -> cell) : DataFrame :=
  {| columns := if has_col d c then columns d else columns d ++ [c];
     dtypes := <[c := scalar_dtype (v 0%nat)]> (dtypes d);
     rows := imap (fun i r => <[c := v i]> r) (rows d) |}.

(** [df.drop(columns=[c])] *)
Definition drop_column (d : DataFrame) (c : str) : DataFrame :=
  {| columns := filter (fun c' => c' ≠ c) (columns d);
     dtypes := delete c (dtypes d);
     rows := delete c <$> rows d |}.

(** Whether a column of dtype [t] takes the value [v] in an assignment: a
    number column takes no text, a [str] column no number, an [int64]
    column no missing value.  (The integers the script assigns are 0 and
    1.) *)
Definition accepts (t : dtype) (v : cell) : bool :=
  match t, v with
  | Object, _ => true
  | Int64, Int _ => true
  | Float64, (Int _ | NA) => true
  | Text, (Str _ | NA) => true
  | _, _ => false
  end.

(** The frame with [v] at row [pos] of column [c]; a column the frame does
    not have is added. *)
Definition loc_put (d : DataFrame) (pos : nat) (c : str) (v : cell) : DataFrame :=
  {| columns := if has_col d c then columns d else columns d ++ [c];
     dtypes := if has_col d c then dtypes d
               else <[c := scalar_dtype v]> (dtypes d);
     rows := alter (insert c v) pos (rows d) |}.

(** [df.loc[pos, c] = v] on a frame indexed [0..len-1]: [TypeError] when
    the column cannot hold the value.  A position outside the frame does
    not occur in the script ([real_pos] is read off the index) and is
    modelled as no change. *)
Definition loc_set (d : DataFrame) (pos : nat) (c : str) (v : cell)
  : Exc DataFrame :=
  if has_col d c && negb (accepts (dtype_of d c) v) then inl TypeError
  else inr (loc_put d pos c v).

Definition isna (c : cell) : bool :=
  match c with NA => true | _ => false end.

(** *** Fields as text (lines 78-79 and 188-191) *)

(** [str(v)] on a cell that is not missing: an integer prints in decimal,
    a text is itself.  The script never prints a missing value. *)
Definition py_str (c : cell) : str :=
  match c with
  | NA => lit "nan"
  | Int z => lit (NilZero.string_of_int (Z.to_int z))
  | Str t => t
  end.

(** [col in row] is whether the row has the column. *)
Definition get_or_blank (r : row) (col : str) : str :=
  if bool_decide (is_Some (r !! col))
     && negb (isna (getitem r col))
     && negb (bool_decide (strip (py_str (getitem r col)) = []))
  then py_str (getitem r col)
  else PLACEHOLDER.

(** Lines 189-191: the text of the website field, and the target of the
    link when one is drawn. *)
Definition website_link (r : row) : str * option str :=
  let web := get_or_blank r COL_WEBSITE in
  let web_url := normalize_url web in
  (web, if bool_decide (web_url = []) then None else Some web_url).

(** *** Stable sort by a column *)

Fixpoint str_leb (a b : str) : bool :=
  match a, b with
  | [], _ => true
  | _ :: _, [] => false
  | x :: a', y :: b' => (x <? y)%N || (x =? y)%N && str_leb a' b'
  end.

(** Ascending, missing values last.  A number is never compared with a
    text: [sort_values] raises before. *)
Definition cell_leb (a b : cell) : bool :=
  match a, b with
  | _, NA => true
  | NA, _ => false
  | Int x, Int y => x <=? y
  | Str x, Str y => str_leb x y
  | Int _, Str _ => true
  | Str _, Int _ => false
  end.

Fixpoint insert_sorted (key : row -> cell) (r : row) (l : list row) : list row :=
  match l with
  | [] => [r]
  | r' :: l' =>
      if cell_leb (key r) (key r') then r :: l
      else r' :: insert_sorted key r l'
  end.

(** Any stable sort gives this list: a row goes in front of the first later
    row whose key is not smaller. *)
Definition stable_sort (key : row -> cell) (l : list row) : list row :=
  foldr (insert_sorted key) [] l.

Definition is_int (c : cell) : bool :=
  match c with Int _ => true | _ => false end.

Definition is_str (c : cell) : bool :=
  match c with Str _ => true | _ => false end.

(** [df.sort_values(by, kind="stable").reset_index(drop=True)]; comparing a
    number with a text is a [TypeError]. *)
Definition sort_values (d : DataFrame) (by_col : str) : Exc DataFrame :=
  if negb (has_col d by_col) then inl (KeyError by_col)
  else
    let keys := (fun r => getitem r by_col) <$> rows d in
    if existsb is_int keys && existsb is_str keys then inl TypeError
    else inr {| columns := columns d;
                dtypes := dtypes d;
                rows := stable_sort (fun r => getitem r by_col) (rows d) |}.

(** ** Loading *)

(** [str(c).strip().lower().startswith("unnamed")] *)
Definition is_unnamed (c : str) : bool :=
  startswith (lower (strip c)) (lit "unnamed").

(** The loop over [list(df.columns)] that drops the positional columns. *)
Definition drop_unnamed (d : DataFrame) (l : list str) : DataFrame :=
  foldl (fun d' c => if is_unnamed c then drop_column d' c else d') d l.

Definition ensure_order (d : DataFrame) : Exc DataFrame :=
  let d1 := drop_unnamed d (columns d) in
  let d2 :=
    if negb (has_col d1 ORDER_COL)
    then set_column d1 ORDER_COL (fun i => Int (Z.of_nat i + 1))
    else d1 in
  sort_values d2 ORDER_COL.

(** What pandas answers on an uploaded file. *)
Record UploadedFile := {
  name : str;
  read_csv : Exc DataFrame;
  ExcelFile : Exc (list (str * Exc DataFrame))
}.

Definition sheet_names (xls : list (str * Exc DataFrame)) : list str := xls.*1.

Fixpoint read_excel (xls : list (str * Exc DataFrame)) (sheet_name : str)
  : Exc DataFrame :=
  match xls with
  | [] => inl (ValueError sheet_name)
  | (n, d) :: xls' =>
      if bool_decide (n = sheet_name) then d else read_excel xls' sheet_name
  end.

Definition load_input (file : UploadedFile) : Exc DataFrame :=
  if endswith (lower (name file)) (lit ".csv") then read_csv file
  else
    let? xls := ExcelFile file in
    if negb (bool_decide (lit "Results" ∈ sheet_names xls))
    then inl (ValueError (lit "Sheet 'Results' not found in Excel"))
    else read_excel xls (lit "Results").

Definition needed : list str :=
  [COL_COMPANY; COL_TRADE_EN; COL_DESC; COL_WEBSITE;
   COL_PRI_IND_D; COL_SEC_IND_D; COL_BVD_SECT].

(** [if c not in df.columns: df[c] = v] *)
Definition ensure_column (v : cell) (d : DataFrame) (c : str) : DataFrame :=
  if negb (has_col d c) then set_column d c (fun _ => v) else d.

(** The body of the [try] of the load branch. *)
Definition load_data (file : UploadedFile) : Exc DataFrame :=
  let? d := load_input file in
  let d := foldl (ensure_column NA) d needed in
  let d := foldl (ensure_column (Int 0)) d TAG_COLS in
  let d := ensure_column NA d MAIN_FLAG_COL in
  let d := ensure_column NA d NOTES_COL in
  ensure_order d.

(** ** Session state *)

(** The staged edits of the record on display ([st.session_state.staged]). *)
Record Staged := {
  order : Z;
  flag : option bool;
  tags : gmap str bool;
  notes : str
}.

#[global] Instance Staged_eq_dec : EqDecision Staged.
Proof. solve_decision. Defined.

Record Session := {
  df : option DataFrame;
  view_idx : Z;
  filter_unlabeled : bool;
  staged : option Staged
}.

(** The state of a fresh session (the [if ... not in st.session_state]
    block). *)
Definition initial : Session :=
  {| df := None; view_idx := 0; filter_unlabeled := true; staged := None |}.

Definition init_staged_state (order_val : Z) : Staged :=
  {| order := order_val;
     flag := None;
     tags := list_to_map ((fun c => (c, false)) <$> TAG_COLS);
     notes := [] |}.

(** ** One execution of the script *)

Inductive choice := opt_select | opt_Y | opt_N.

Inductive button := Prev | Skip | Save.

(** What the widgets return in one execution.  At most one button is
    clicked per execution. *)
Record Inputs := {
  uploaded : option UploadedFile;
  save_name : str;
  cs_choice : choice;
  checkbox : str -> bool;
  notes_new : str;
  clicked : option button;
  allow_export_box : bool
}.

(** What is drawn (the elements the properties below speak of). *)
Inductive element :=
| st_error (e : exn)
| st_info
| st_metric (remaining : Z)
| st_success
| st_subheader (pos len : Z) (order_val : Z)
| st_caption_choose
| st_button (b : button) (disabled : bool)
| st_warning (remaining : Z)
| st_checkbox_allow
| st_download_button (data : DataFrame) (file_name : str) (disabled : bool).

Inductive outcome :=
| Finished
| Stopped
| Rerun
| Raised (e : exn).

Record Result := {
  session : Session;
  page : list element;
  ending : outcome
}.

(** *** Load branch (lines 127-148) *)

Definition load_branch (s : Session) (up : option UploadedFile)
  : Session * list element :=
  match up, df s with
  | Some file, None =>
      match load_data file with
      | inr d =>
          ({| df := Some d; view_idx := view_idx s;
              filter_unlabeled := filter_unlabeled s; staged := staged s |}, [])
      | inl e => (s, [st_error e])
      end
  | _, _ => (s, [])
  end.

(** *** Toolbar (lines 156-163) *)

(** A cell of a tag column under [sum(axis=1)]: a missing value is skipped,
    and a text cannot be added to a number ([TypeError]).  A record whose
    tag cells are all texts is outside the model, which raises there too. *)
Definition tag_value (c : cell) : Exc Z :=
  match c with
  | NA => inr 0
  | Int z => inr z
  | Str _ => inl TypeError
  end.

Fixpoint tag_sum (cols : list str) (r : row) : Exc Z :=
  match cols with
  | [] => inr 0
  | c :: cols' =>
      let? v := tag_value (getitem r c) in
      let? t := tag_sum cols' r in
      inr (v + t)
  end.

(** A sum of [int64] numbers wraps around in 64 bits. *)
Definition wrap64 (z : Z) : Z := (z + 2 ^ 63) mod 2 ^ 64 - 2 ^ 63.

(** The sum over the tag columns as pandas gives it: in 64-bit integers
    when every tag column is [int64], as it stands otherwise (the sum is
    then made in [float64] or on Python integers, and is exact as long as
    the numbers stay below 2^53). *)
Definition row_sum (int64 : bool) (cols : list str) (r : row) : Exc Z :=
  let? t := tag_sum cols r in
  inr (if int64 then wrap64 t else t).

Definition unlabeled (int64 : bool) (cols : list str) (r : row) : Exc bool :=
  let? t := row_sum int64 cols r in
  inr ((t =? 0) && isna (getitem r MAIN_FLAG_COL)).

Definition unlabeled_mask (d : DataFrame) : Exc (list bool) :=
  let cols := filter (fun c => c ∈ columns d) TAG_COLS in
  let int64 := forallb (fun c => bool_decide (dtype_of d c = Int64)) cols in
  let? m := traverse (unlabeled int64 cols) (rows d) in
  if has_col d MAIN_FLAG_COL then inr m else inl (KeyError MAIN_FLAG_COL).

Definition count_true (m : list bool) : Z :=
  Z.of_nat (length (filter (fun b => b = true) m)).

(** [df[mask].reset_index(drop=True)] *)
Fixpoint select_rows (m : list bool) (l : list row) : list row :=
  match m, l with
  | b :: m', r :: l' => if b then r :: select_rows m' l' else select_rows m' l'
  | _, _ => []
  end.

Definition len {A : Type} (l : list A) : Z := Z.of_nat (length l).

(** *** The record on display (lines 170-180) *)

(** [view.iloc[idx]], with Python's negative positions. *)
Definition iloc (view : list row) (idx : Z) : Exc row :=
  let i := if idx <? 0 then idx + len view else idx in
  if i <? 0 then inl IndexError
  else match view !! Z.to_nat i with
       | Some r => inr r
       | None => inl IndexError
       end.

(** [a == b] on cells: a missing value equals nothing. *)
Definition cell_eqb (a b : cell) : bool :=
  match a, b with
  | Int x, Int y => x =? y
  | Str x, Str y => bool_decide (x = y)
  | _, _ => false
  end.

Fixpoint first_index (p : row -> bool) (l : list row) : option nat :=
  match l with
  | [] => None
  | r :: l' => if p r then Some O else S <$> first_index p l'
  end.

(** [df.index[df[ORDER_COL] == key][0]] *)
Definition real_position (d : DataFrame) (key : cell) : Exc nat :=
  match first_index (fun r => cell_eqb (getitem r ORDER_COL) key) (rows d) with
  | Some i => inr i
  | None => inl IndexError
  end.

(** [int(v)] on a cell: a text is read as a number in base 10.  (The
    message of the [ValueError] is left empty.) *)
Definition int_of_cell (c : cell) : Exc Z :=
  match c with
  | Int z => inr z
  | Str t =>
      match int_of_text t with
      | Some z => inr z
      | None => inl (ValueError [])
      end
  | NA => inl (ValueError [])
  end.

(** Lines 179-180. *)
Definition load_record (stg : option Staged) (order_val : Z) : Staged :=
  match stg with
  | None => init_staged_state order_val
  | Some b =>
      if negb (order b =? order_val) then init_staged_state order_val else b
  end.

(** Lines 175-180: the row, its position in the frame, its staged edits. *)
Definition select_record (d : DataFrame) (view : list row) (idx : Z)
  (stg : option Staged) : Exc (row * nat * Staged) :=
  let? r := iloc view idx in
  if negb (has_col d ORDER_COL) then inl (KeyError ORDER_COL)
  else
    let? real_pos := real_position d (getitem r ORDER_COL) in
    let? o := int_of_cell (getitem r ORDER_COL) in
    inr (r, real_pos, load_record stg o).

(** *** Classification panel (lines 209-251) *)

Definition flag_of_choice (c : choice) : option bool :=
  match c with
  | opt_select => None
  | opt_Y => Some true
  | opt_N => Some false
  end.

Definition stage_widgets (b : Staged) (i : Inputs) : Staged :=
  let t := foldl (fun t c => <[c := checkbox i c]> t) (tags b) SUPPLY_CHAIN_COLS in
  let t := foldl (fun t c => <[c := checkbox i c]> t) t FUNCTIONAL_COLS in
  {| order := order b;
     flag := flag_of_choice (cs_choice i);
     tags := t;
     notes := notes_new i |}.

(** *** Commit of Save (lines 272-275) *)

(** Assignments to one record, in turn.  The frame is changed in place:
    when an assignment raises, the ones before it stay and the ones after
    it are not made. *)
Fixpoint assign_all (d : DataFrame) (pos : nat) (ws : list (str * cell))
  : DataFrame * option exn :=
  match ws with
  | [] => (d, None)
  | (c, v) :: ws' =>
      match loc_set d pos c v with
      | inl e => (d, Some e)
      | inr d' => assign_all d' pos ws'
      end
  end.

(** The values of lines 272-275, column by column. *)
Definition staged_values (b : Staged) : list (str * cell) :=
  (MAIN_FLAG_COL, Str (if default false (flag b) then lit "Y" else lit "N"))
  :: ((fun c => (c, Int (if default false (tags b !! c) then 1 else 0)))
        <$> TAG_COLS)
  ++ [(NOTES_COL, Str (notes b))].

(** The frame Save leaves, and the exception when an assignment raised. *)
Definition commit (d : DataFrame) (real_pos : nat) (b : Staged)
  : DataFrame * option exn :=
  assign_all d real_pos (staged_values b).

(** *** Export section (lines 281-289) *)

Definition export_section (d : DataFrame) (remaining : Z) (i : Inputs)
  : list element :=
  let '(shown, allow_export) :=
    if 0 <? remaining
    then ([st_warning remaining; st_checkbox_allow], allow_export_box i)
    else ([], true) in
  shown ++ [st_download_button d (save_name i) (negb allow_export)].

(** *** The script *)

Definition moved (s : Session) (d : DataFrame) (cursor : Z) (b : option Staged)
  : Session :=
  {| df := Some d; view_idx := cursor;
     filter_unlabeled := filter_unlabeled s; staged := b |}.

Definition is_save (c : option button) : bool :=
  match c with Some Save => true | _ => false end.

(** Lines 253-289, once the record on display and its staged edits are
    known: the three buttons, then the export section.  [st.rerun()] ends
    the execution at the button that was clicked; a disabled button cannot
    be clicked and returns [False].  When an assignment of Save raises, the
    execution ends there: the cursor and the staged buffer are not
    touched. *)
Definition actions (s : Session) (d : DataFrame) (remaining n idx : Z)
  (real_pos : nat) (b : Staged) (i : Inputs) (pg : list element) : Result :=
  match clicked i with
  | Some Prev =>
      {| session := moved s d (Z.max 0 (idx - 1)) None;
         page := pg ++ [st_button Prev false];
         ending := Rerun |}
  | Some Skip =>
      {| session := moved s d (Z.min (n - 1) (idx + 1)) None;
         page := pg ++ [st_button Prev false; st_button Skip false];
         ending := Rerun |}
  | c =>
      let save_disabled := bool_decide (flag b = None) in
      let pg := pg ++ [st_button Prev false; st_button Skip false]
                   ++ (if save_disabled then [st_caption_choose] else [])
                   ++ [st_button Save save_disabled] in
      if is_save c && negb save_disabled then
        match commit d real_pos b with
        | (d', None) =>
            {| session := moved s d' (Z.min (n - 1) (idx + 1)) None;
               page := pg;
               ending := Rerun |}
        | (d', Some e) =>
            {| session := moved s d' idx (Some b);
               page := pg;
               ending := Raised e |}
        end
      else
        {| session := moved s d idx (Some b);
           page := pg ++ export_section d remaining i;
           ending := Finished |}
  end.

(** Line 163. *)
Definition build_view (d : DataFrame) (mask : list bool) (only_unlabeled : bool)
  : list row :=
  if only_unlabeled then select_rows mask (rows d) else rows d.

(** Lines 170-173: [if idx >= len(view): idx = 0]. *)
Definition checked_idx (n cursor : Z) : Z :=
  if n <=? cursor then 0 else cursor.

Definition render (s : Session) (i : Inputs) : Result :=
  let '(s, pg) := load_branch s (uploaded i) in
  match df s with
  | None => {| session := s; page := pg ++ [st_info]; ending := Stopped |}
  | Some d =>
      match unlabeled_mask d with
      | inl e => {| session := s; page := pg; ending := Raised e |}
      | inr mask =>
          let remaining := count_true mask in
          let pg := pg ++ [st_metric remaining] in
          let view := build_view d mask (filter_unlabeled s) in
          if len view =? 0 then
            {| session := s;
               page := pg ++ [st_success;
                              st_download_button d (save_name i) false];
               ending := Stopped |}
          else
            let idx := checked_idx (len view) (view_idx s) in
            match select_record d view idx (staged s) with
            | inl e =>
                {| session := moved s d idx (staged s);
                   page := pg;
                   ending := Raised e |}
            | inr (r, real_pos, b) =>
                let b := stage_widgets b i in
                let pg := pg ++ [st_subheader (idx + 1) (len view) (order b)] in
                actions s d remaining (len view) idx real_pos b i pg
            end
      end
  end.

(** *** A session: executions of the script, and the operator setting the
    toolbar check box, whose value Streamlit writes to
    [st.session_state.filter_unlabeled] before the next execution. *)

Inductive event :=
| Interact (i : Inputs)
| SetFilter (b : bool).

Definition set_filter (b : bool) (s : Session) : Session :=
  {| df := df s; view_idx := view_idx s;
     filter_unlabeled := b; staged := staged s |}.

Definition step (s : Session) (e : event) : Session :=
  match e with
  | Interact i => session (render s i)
  | SetFilter b => set_filter b s
  end.

Definition run (s : Session) (es : list event) : Session := foldl step s es.

Definition reachable (s : Session) : Prop := exists es, s = run initial es.


(** ** Notions the properties are stated with *)

(** The same widget values with another file in the uploader, and with
    another button clicked. *)
Definition with_upload (up : option UploadedFile) (i : Inputs) : Inputs :=
  {| uploaded := up;
     save_name := save_name i;
     cs_choice := cs_choice i;
     checkbox := checkbox i;
     notes_new := notes_new i;
     clicked := clicked i;
     allow_export_box := allow_export_box i |}.

Definition with_click (b : option button) (i : Inputs) : Inputs :=
  {| uploaded := uploaded i;
     save_name := save_name i;
     cs_choice := cs_choice i;
     checkbox := checkbox i;
     notes_new := notes_new i;
     clicked := b;
     allow_export_box := allow_export_box i |}.

(** An execution that forgets the file in the uploader. *)
Definition forget_upload (e : event) : event :=
  match e with
  | Interact i => Interact (with_upload None i)
  | SetFilter b => SetFilter b
  end.

(** Frames obtained from a frame by commits of Save, whether they ran to
    their end or not. *)
Inductive edited (d : DataFrame) : DataFrame -> Prop :=
| edited_none : edited d d
| edited_commit d' pos b : edited d d' -> edited d (commit d' pos b).1.

(** Whether the tag columns are summed in 64-bit integers. *)
Definition int64_tags (d : DataFrame) : bool :=
  forallb (fun c => bool_decide (dtype_of d c = Int64))
    (filter (fun c => c ∈ columns d) TAG_COLS).

(** The frame with the values [ws] put at row [pos]. *)
Definition put_all (d : DataFrame) (pos : nat) (ws : list (str * cell))
  : DataFrame :=
  foldl (fun d w => loc_put d pos w.1 w.2) d ws.

(** A record with the values [ws] put. *)
Definition put_row (ws : list (str * cell)) (r : row) : row :=
  foldl (fun r w => <[w.1 := w.2]> r) r ws.

(** The columns Save assigns, in the order of lines 272-275. *)
Definition label_cols : list str := MAIN_FLAG_COL :: TAG_COLS ++ [NOTES_COL].

(** The frame a Save that runs to its end leaves. *)
Definition committed (d : DataFrame) (pos : nat) (b : Staged) : DataFrame :=
  put_all d pos (staged_values b).

(** Every assignment of Save is accepted: the flag and notes columns hold
    texts, the tag columns integers. *)
Definition writable (d : DataFrame) : Prop :=
  accepts (dtype_of d MAIN_FLAG_COL) (Str []) = true /\
  accepts (dtype_of d NOTES_COL) (Str []) = true /\
  forall c, c ∈ TAG_COLS -> accepts (dtype_of d c) (Int 0) = true.

(** A row without the positional columns among [l] (one round of the loop
    of [ensure_order] per column). *)
Definition without_unnamed (l : list str) (r : row) : row :=
  foldl (fun r c => if is_unnamed c then delete c r else r) r l.

(** The order key of a record, as [sort_values] and [real_pos] read it. *)
Definition order_key (r : row) : cell := getitem r ORDER_COL.

(** Every record of the frame has the cell [v] in column [c]. *)
Definition column_is (d : DataFrame) (c : str) (v : cell) : Prop :=
  c ∈ columns d /\ forall r, r ∈ rows d -> r !! c = Some v.

(** The keys of neighbours ascend. *)
Fixpoint ascending (key : row -> cell) (l : list row) : Prop :=
  match l with
  | x :: (y :: _) as l' => cell_leb (key x) (key y) = true /\ ascending key l'
  | _ => True
  end.

(** A frame as [ensure_order] leaves it: the order column is there, no
    column is a positional one, the keys are not numbers and texts mixed,
    and they ascend down the rows. *)
Definition ordered_frame (d : DataFrame) : Prop :=
  ORDER_COL ∈ columns d /\
  (forall c, c ∈ columns d -> is_unnamed c = false) /\
  existsb is_int (order_key <$> rows d)
    && existsb is_str (order_key <$> rows d) = false /\
  ascending order_key (rows d).

(** All the columns the load branch makes sure of. *)
Definition app_columns : list str :=
  needed ++ TAG_COLS ++ [MAIN_FLAG_COL; NOTES_COL].

(** The order keys of a frame, record by record. *)
Definition order_column (d : DataFrame) : list (option cell) :=
  (fun r => r !! ORDER_COL) <$> rows d.

(** [d'] has the records of [d] in the same order, with the same cells in
    the columns of [d] that satisfy [P]. *)
Definition carried (P : str -> Prop) (d d' : DataFrame) : Prop :=
  length (rows d') = length (rows d) /\
  (forall c, P c -> c ∈ columns d -> c ∈ columns d') /\
  (forall i r r', rows d !! i = Some r -> rows d' !! i = Some r' ->
     forall c, P c -> c ∈ columns d -> r' !! c = r !! c).

(** The columns the script writes and reads are in the frame. *)
Definition labelling_columns (d : DataFrame) : Prop :=
  ORDER_COL ∈ columns d /\ MAIN_FLAG_COL ∈ columns d /\
  NOTES_COL ∈ columns d /\ (forall c, c ∈ TAG_COLS -> c ∈ columns d).

(** What the load branch guarantees of a frame and Save keeps. *)
Definition app_frame (d : DataFrame) : Prop :=
  labelling_columns d /\
  (forall c, c ∈ app_columns -> c ∈ columns d) /\
  ordered_frame d.

(** The table takes the value [v] in column [c], should it have the
    column. *)
Definition takes (d : DataFrame) (c : str) (v : cell) : Prop :=
  c ∈ columns d -> accepts (dtype_of d c) v = true.

(** Every record has an integer order key. *)
Definition int_keys (d : DataFrame) : Prop :=
  forall r, r ∈ rows d -> exists o, r !! ORDER_COL = Some (Int o).

(** Every record has an order key, and [int] reads it. *)
Definition readable_keys (d : DataFrame) : Prop :=
  forall r, r ∈ rows d -> exists o, int_of_cell (order_key r) = inr o.

(** No tag cell is a text. *)
Definition numeric_tags (d : DataFrame) : Prop :=
  forall r c, r ∈ rows d -> c ∈ TAG_COLS -> is_str (getitem r c) = false.

(** What Save writes into the record at [real_pos] (lines 272-275). *)
Definition commit_row (b : Staged) (r : row) : row :=
  <[NOTES_COL := Str (notes b)]>
    (foldl (fun r c =>
              <[c := Int (if default false (tags b !! c) then 1 else 0)]> r)
       (<[MAIN_FLAG_COL := Str (if default false (flag b) then lit "Y"
                                else lit "N")]> r)
       TAG_COLS).

(** The record on display in the next execution of the script, with the
    position [real_pos] a Save would write. *)
Definition on_display (s : Session) : option (row * nat) :=
  match df s with
  | Some d =>
      match unlabeled_mask d with
      | inr mask =>
          let view := build_view d mask (filter_unlabeled s) in
          match select_record d view (checked_idx (len view) (view_idx s))
                  (staged s) with
          | inr (r, pos, _) => Some (r, pos)
          | inl _ => None
          end
      | inl _ => None
      end
  | None => None
  end.

(** The frame of a session that has one. *)
Definition the_frame (s : Session) : DataFrame :=
  default {| columns := []; dtypes := ∅; rows := [] |} (df s).

(** No white space at either end. *)
Definition trimmed (s : str) : Prop :=
  (forall c, head s = Some c -> isspace c = false) /\
  (forall c, last s = Some c -> isspace c = false).

(** ** Sample data *)

(** A table of three companies as [pd.read_csv] returns it, with the
    positional column pandas adds for an unnamed first column and without
    the order column. *)
Definition sample_table : DataFrame :=
  {| columns := [lit "Unnamed: 0"; COL_COMPANY; COL_WEBSITE];
     dtypes := {[ lit "Unnamed: 0" := Int64; COL_COMPANY := Text;
                  COL_WEBSITE := Text ]};
     rows :=
       [ {[ lit "Unnamed: 0" := Int 0; COL_COMPANY := Str (lit "Acme");
            COL_WEBSITE := Str (lit "acme.example") ]};
         {[ lit "Unnamed: 0" := Int 1; COL_COMPANY := Str (lit "Borealis");
            COL_WEBSITE := NA ]};
         {[ lit "Unnamed: 0" := Int 2; COL_COMPANY := Str (lit "Cobalt");
            COL_WEBSITE := Str (lit "https://cobalt.example") ]} ] |}.

Definition sample_csv : UploadedFile :=
  {| name := lit "companies.CSV";
     read_csv := inr sample_table;
     ExcelFile := inl ParserError |}.

(** A table that brings its own order column, with one key used twice. *)
Definition keyed_table : DataFrame :=
  {| columns := [COL_COMPANY; ORDER_COL];
     dtypes := {[ COL_COMPANY := Text; ORDER_COL := Int64 ]};
     rows :=
       [ {[ COL_COMPANY := Str (lit "Acme"); ORDER_COL := Int 7 ]};
         {[ COL_COMPANY := Str (lit "Borealis"); ORDER_COL := Int 7 ]} ] |}.

Definition keyed_csv : UploadedFile :=
  {| name := lit "keyed.csv";
     read_csv := inr keyed_table;
     ExcelFile := inl ParserError |}.

(** A workbook whose only sheet is named [results], in lower case. *)
Definition sample_xlsx : UploadedFile :=
  {| name := lit "companies.xlsx";
     read_csv := inl ParserError;
     ExcelFile := inr [(lit "results", inr sample_table)] |}.

(** A file that is no table at all. *)
Definition broken_csv : UploadedFile :=
  {| name := lit "broken.csv";
     read_csv := inl ParserError;
     ExcelFile := inl ParserError |}.

(** The widgets of one execution: the radio choice, the ticked tag boxes,
    the notes, the button clicked and the export acknowledgement. *)
Definition widgets (c : choice) (ticked : list str) (text : str)
  (b : option button) (ack : bool) : Inputs :=
  {| uploaded := None;
     save_name := lit "classified.csv";
     cs_choice := c;
     checkbox := fun t => bool_decide (t ∈ ticked);
     notes_new := text;
     clicked := b;
     allow_export_box := ack |}.

(** Nothing chosen, ticked, typed or clicked. *)
Definition idle : Inputs := widgets opt_select [] [] None false.

(** A click on Save with one tag ticked and a note. *)
Definition save_as (c : choice) : Inputs :=
  widgets c [lit "supply_chain_Epiwafer"] (lit "ok") (Some Save) false.

(** The session after the sample file is uploaded. *)
Definition sample_session : Session :=
  run initial [Interact (with_upload (Some sample_csv) idle)].

(** The session after the keyed file is uploaded and its first record is
    saved with Y: the cursor is 1 and one record is left to label. *)
Definition keyed_session : Session :=
  run initial [Interact (with_upload (Some keyed_csv) idle);
               Interact (widgets opt_Y [] [] (Some Save) false)].

(** A session without a frame whose other fields are not the initial ones. *)
Definition unloaded_session : Session :=
  {| df := None; view_idx := 4; filter_unlabeled := false;
     staged := Some (init_staged_state 9) |}.

(** The first record of the sample session and its staged buffer. *)
Definition sample_row : row :=
  default ∅ (rows (the_frame sample_session) !! 0%nat).

Definition sample_staged : Staged :=
  default (init_staged_state 0) (staged sample_session).

(** Company and flag of every record of a frame. *)
Definition labels (d : DataFrame) : list (cell * cell) :=
  (fun r => (getitem r COL_COMPANY, getitem r MAIN_FLAG_COL)) <$> rows d.

(** A table that brings its order column, out of order and with one key
    used twice, and the frame [ensure_order] makes of it. *)
Definition shuffled_table : DataFrame :=
  {| columns := [ORDER_COL; COL_COMPANY];
     dtypes := {[ ORDER_COL := Int64; COL_COMPANY := Text ]};
     rows := [ {[ ORDER_COL := Int 2; COL_COMPANY := Str (lit "b") ]};
               {[ ORDER_COL := Int 1; COL_COMPANY := Str (lit "a") ]};
               {[ ORDER_COL := Int 2; COL_COMPANY := Str (lit "c") ]} ] |}.

Definition frame_of (x : Exc DataFrame) : DataFrame :=
  match x with
  | inr d => d
  | inl _ => {| columns := []; dtypes := ∅; rows := [] |}
  end.

(** The sample session after its first record is saved with Y, and a file
    that holds the frame it exports. *)
Definition saved_session : Session :=
  run initial [Interact (with_upload (Some sample_csv) idle);
               Interact (save_as opt_Y)].

Definition exported_csv : UploadedFile :=
  {| name := lit "classified.csv";
     read_csv := inr (the_frame saved_session);
     ExcelFile := inl ParserError |}.

(** The second record of the sample session. *)
Definition sample_row2 : row :=
  default ∅ (rows (the_frame sample_session) !! 1%nat).

(** A one-record table, and the session after it is uploaded and its
    record saved: nothing is left to label. *)
Definition single_csv : UploadedFile :=
  {| name := lit "one.csv";
     read_csv := inr {| columns := [COL_COMPANY];
                        dtypes := {[ COL_COMPANY := Text ]};
                        rows := [ {[ COL_COMPANY := Str (lit "Acme") ]} ] |};
     ExcelFile := inl ParserError |}.

Definition done_session : Session :=
  run initial [Interact (with_upload (Some single_csv) idle);
               Interact (save_as opt_N)].

(** A table whose second record has no order key. *)
Definition gap_csv : UploadedFile :=
  {| name := lit "gap.csv";
     read_csv :=
       inr {| columns := [COL_COMPANY; ORDER_COL];
              dtypes := {[ COL_COMPANY := Text; ORDER_COL := Float64 ]};
              rows := [ {[ COL_COMPANY := Str (lit "Acme");
                           ORDER_COL := Int 1 ]};
                        {[ COL_COMPANY := Str (lit "Borealis");
                           ORDER_COL := NA ]} ] |};
     ExcelFile := inl ParserError |}.

(** The session after that table is uploaded and Skip is clicked. *)
Definition gap_session : Session :=
  run initial [Interact (with_upload (Some gap_csv) idle);
               Interact (with_click (Some Skip) idle)].

(** The third record of the sample session, and the executions used to
    exercise it. *)
Definition sample_row3 : row :=
  default ∅ (rows (the_frame sample_session) !! 2%nat).

Definition sample_events : list event :=
  [Interact (save_as opt_Y); SetFilter false;
   Interact (with_click (Some Prev) idle); Interact (save_as opt_N)].

(** A CSV file whose name is in capitals. *)
Definition capitals_csv : UploadedFile :=
  {| name := lit "COMPANIES.CSV";
     read_csv := inr sample_table;
     ExcelFile := inl ParserError |}.

(** A workbook whose order keys are texts: the record of Borealis, already
    flagged, has the key [07] and the record of Acme the key [7]. *)
Definition text_keys_table : DataFrame :=
  {| columns := [COL_COMPANY; MAIN_FLAG_COL; ORDER_COL];
     dtypes := {[ COL_COMPANY := Text; MAIN_FLAG_COL := Text;
                  ORDER_COL := Text ]};
     rows :=
       [ {[ COL_COMPANY := Str (lit "Borealis");
            MAIN_FLAG_COL := Str (lit "Y"); ORDER_COL := Str (lit "07") ]};
         {[ COL_COMPANY := Str (lit "Acme");
            MAIN_FLAG_COL := NA; ORDER_COL := Str (lit "7") ]} ] |}.

Definition text_keys_xlsx : UploadedFile :=
  {| name := lit "keys.xlsx";
     read_csv := inl ParserError;
     ExcelFile := inr [(lit "Results", inr text_keys_table)] |}.

(** The widgets with N chosen, one tag ticked and a note, nothing clicked. *)
Definition drafting : Inputs :=
  widgets opt_N [lit "supply_chain_Epiwafer"] (lit "draft") None false.

(** The session after that workbook is uploaded with these widgets, and
    the same session once the operator has unticked the filter. *)
Definition text_keys_session : Session :=
  run initial [Interact (with_upload (Some text_keys_xlsx) drafting)].

Definition text_keys_unfiltered : Session :=
  run text_keys_session [SetFilter false].

(** The staged buffer of that session. *)
Definition text_keys_staged : Staged :=
  default (init_staged_state 0) (staged text_keys_session).

(** A table whose flag column is empty in the file, which pandas reads as
    a [float64] column, and one whose notes column is. *)
Definition empty_flag_csv : UploadedFile :=
  {| name := lit "flag.csv";
     read_csv :=
       inr {| columns := [COL_COMPANY; MAIN_FLAG_COL];
              dtypes := {[ COL_COMPANY := Text; MAIN_FLAG_COL := Float64 ]};
              rows := [ {[ COL_COMPANY := Str (lit "Acme");
                           MAIN_FLAG_COL := NA ]};
                        {[ COL_COMPANY := Str (lit "Borealis");
                           MAIN_FLAG_COL := NA ]} ] |};
     ExcelFile := inl ParserError |}.

Definition empty_notes_csv : UploadedFile :=
  {| name := lit "notes.csv";
     read_csv :=
       inr {| columns := [COL_COMPANY; NOTES_COL];
              dtypes := {[ COL_COMPANY := Text; NOTES_COL := Float64 ]};
              rows := [ {[ COL_COMPANY := Str (lit "Acme");
                           NOTES_COL := NA ]};
                        {[ COL_COMPANY := Str (lit "Borealis");
                           NOTES_COL := NA ]} ] |};
     ExcelFile := inl ParserError |}.

Definition empty_flag_session : Session :=
  run initial [Interact (with_upload (Some empty_flag_csv) idle)].

Definition empty_notes_session : Session :=
  run initial [Interact (with_upload (Some empty_notes_csv) idle)].

(** Company, flag, first two tags and notes of every record of a frame. *)
Definition written (d : DataFrame) : list (cell * cell * cell * cell * cell) :=
  (fun r => (getitem r COL_COMPANY, getitem r MAIN_FLAG_COL,
             getitem r (lit "supply_chain_Substrate"),
             getitem r (lit "supply_chain_Epiwafer"),
             getitem r NOTES_COL)) <$> rows d.

(** * Properties *)

(** ** Strings *)

Lemma lstrip_split (s : str) :
  exists a, s = a ++ lstrip s /\ forallb isspace a = true.
Proof.
  induction s as [|c s IH]; simpl.
  - by exists [].
  - destruct (isspace c) eqn:Hc.
    + destruct IH as (a & Ha & Hsp). exists (c :: a). split.
      * simpl. by rewrite <- Ha.
      * simpl. by rewrite Hc, Hsp.
    + by exists [].
Qed.

Lemma lstrip_head (s : str) (c : N) :
  head (lstrip s) = Some c -> isspace c = false.
Proof.
  induction s as [|x s IH]; simpl; [done|].
  destruct (isspace x) eqn:Hx; [done|].
  simpl. by intros [= <-].
Qed.

Lemma lstrip_id (s : str) :
  (forall c, head s = Some c -> isspace c = false) -> lstrip s = s.
Proof.
  destruct s as [|x s]; simpl; [done|].
  intros H. by rewrite (H x eq_refl).
Qed.

Lemma lstrip_last (s : str) (c : N) :
  last (lstrip s) = Some c -> last s = Some c.
Proof.
  destruct (lstrip_split s) as (a & Ha & _).
  intros H. rewrite Ha. rewrite last_app. by rewrite H.
Qed.

Lemma strip_split (s : str) :
  exists a b, s = a ++ strip s ++ b
              /\ forallb isspace a = true /\ forallb isspace b = true.
Proof.
  unfold strip, rstrip.
  destruct (lstrip_split s) as (a & Ha & Hsa).
  destruct (lstrip_split (reverse (lstrip s))) as (b & Hb & Hsb).
  exists a, (reverse b). split; [|split]; [|done|].
  - rewrite <- reverse_app, <- Hb, reverse_involutive. done.
  - rewrite forallb_forall in Hsb. apply forallb_forall.
    intros x Hx. apply Hsb.
    rewrite <- list_elem_of_In in Hx |- *. by apply elem_of_reverse.
Qed.

Lemma strip_trimmed (s : str) : trimmed (strip s).
Proof.
  unfold strip, rstrip. split; intros c Hc.
  - rewrite head_reverse in Hc. apply lstrip_last in Hc.
    rewrite last_reverse in Hc. by apply lstrip_head in Hc.
  - rewrite last_reverse in Hc. by apply lstrip_head in Hc.
Qed.

Lemma strip_id (s : str) : trimmed s -> strip s = s.
Proof.
  intros [Hh Hl]. unfold strip, rstrip.
  rewrite (lstrip_id s Hh).
  rewrite lstrip_id; [apply reverse_involutive|].
  intros c. rewrite head_reverse. apply Hl.
Qed.

(** ** [normalize_url] *)

Lemma has_scheme_blank : has_scheme [] = false.
Proof. reflexivity. Qed.

Lemma has_scheme_placeholder : has_scheme PLACEHOLDER = false.
Proof. reflexivity. Qed.

(** C9, as amended.  [normalize_url] returns the empty string on the empty
    string and on the placeholder.  On every other input it first strips the
    white space around the input; the stripped text is returned as it is
    when it starts with [http://] or [https://] in any letter case, and with
    [https://] put in front otherwise.  So an input with a scheme and no
    white space around it comes back untouched, and the three examples of the
    specification hold. *)
Theorem normalize_url_spec (url : str) :
  (url = [] \/ url = PLACEHOLDER -> normalize_url url = []) /\
  (url <> [] -> url <> PLACEHOLDER ->
     normalize_url url =
       if has_scheme (strip url) then strip url
       else lit "https://" ++ strip url) /\
  (trimmed (strip url) /\
   exists a b, url = a ++ strip url ++ b
               /\ forallb isspace a = true /\ forallb isspace b = true) /\
  (trimmed url -> has_scheme url = true -> normalize_url url = url) /\
  normalize_url (lit "example.com") = lit "https://example.com" /\
  normalize_url (lit "https://x.com") = lit "https://x.com" /\
  normalize_url (lit "") = lit "".
Proof.
  split; [|split; [|split; [|split]]].
  - intros [-> | ->]; reflexivity.
  - intros H1 H2. unfold normalize_url.
    rewrite (bool_decide_eq_false_2 _ H1), (bool_decide_eq_false_2 _ H2).
    simpl. by destruct (has_scheme (strip url)).
  - split; [apply strip_trimmed | apply strip_split].
  - intros Ht Hs. unfold normalize_url.
    destruct (bool_decide_reflect (url = [])) as [-> | _];
      [by rewrite has_scheme_blank in Hs|].
    destruct (bool_decide_reflect (url = PLACEHOLDER)) as [-> | _];
      [by rewrite has_scheme_placeholder in Hs|].
    simpl. rewrite (strip_id url Ht), Hs. done.
  - repeat split; reflexivity.
Qed.

Lemma normalize_url_spec_witness :
  normalize_url (lit "  HTTP://x.com/a b ") = lit "HTTP://x.com/a b".
Proof.
  destruct (normalize_url_spec (lit "  HTTP://x.com/a b ")) as (_ & H & _).
  rewrite H; [reflexivity | discriminate | discriminate].
Defined.

(** C9, as stated, fails: an input that carries a scheme and a trailing
    space is neither blank nor the placeholder, yet it does not come back
    untouched. *)
Lemma normalize_url_trailing_space :
  lit "https://x.com " <> [] /\
  lit "https://x.com " <> PLACEHOLDER /\
  has_scheme (lit "https://x.com ") = true /\
  normalize_url (lit "https://x.com ") = lit "https://x.com" /\
  normalize_url (lit "https://x.com ") <> lit "https://x.com ".
Proof. repeat split; (reflexivity || discriminate). Qed.

(** ** The staged edits of the record on display *)

Lemma init_staged_tags (o : Z) (c : str) :
  tags (init_staged_state o) !! c
  = if bool_decide (c ∈ TAG_COLS) then Some false else None.
Proof.
  unfold init_staged_state; cbn [tags]. generalize TAG_COLS as l. intros l.
  destruct (bool_decide_reflect (c ∈ l)) as [Hin | Hout].
  - apply elem_of_list_to_map_1'.
    + intros y Hy. apply list_elem_of_fmap in Hy as (c' & [= _ ->] & _). done.
    + apply list_elem_of_fmap. by exists c.
  - apply not_elem_of_list_to_map_1.
    rewrite <- list_fmap_compose. intros Hc.
    apply list_elem_of_fmap in Hc as (c' & -> & Hc'). done.
Qed.

Lemma select_record_inv d view idx stg r pos b :
  select_record d view idx stg = inr (r, pos, b) ->
  exists o,
    iloc view idx = inr r /\
    int_of_cell (getitem r ORDER_COL) = inr o /\
    real_position d (getitem r ORDER_COL) = inr pos /\
    b = load_record stg o.
Proof.
  unfold select_record, bind.
  destruct (iloc view idx) as [e | r']; [done|].
  destruct (has_col d ORDER_COL); simpl; [|done].
  destruct (real_position d (getitem r' ORDER_COL)) as [e | p] eqn:Hp; [done|].
  destruct (int_of_cell (getitem r' ORDER_COL)) as [e | o] eqn:Ho; [done|].
  intros [= <- <- <-]. by exists o.
Qed.

(** C6, as amended.  The staged buffer is bound to the integer [int] reads
    from the order key of the record on display (lines 110 and 179), not to
    the key itself.  When the record on display is loaded (lines 175-180)
    and the buffer is absent or bound to another integer, the buffer becomes
    the blank one bound to that integer: flag unset, every tag false, empty
    notes.  When the buffer is already bound to that integer it is kept as
    it is, so loading twice is loading once. *)
Theorem load_record_spec (d : DataFrame) (view : list row) (idx : Z)
    (stg : option Staged) (r : row) (pos : nat) (b : Staged) :
  select_record d view idx stg = inr (r, pos, b) ->
  exists o,
    iloc view idx = inr r /\ int_of_cell (order_key r) = inr o /\
    (stg = None \/ (exists b0, stg = Some b0 /\ order b0 <> o) ->
       order b = o /\ flag b = None /\ notes b = [] /\
       (forall c, c ∈ TAG_COLS -> tags b !! c = Some false) /\
       (forall c v, tags b !! c = Some v -> v = false)) /\
    (forall b0, stg = Some b0 -> order b0 = o -> b = b0) /\
    select_record d view idx (Some b) = inr (r, pos, b).
Proof.
  intros Hsel. pose proof Hsel as Hsel'.
  apply select_record_inv in Hsel as (o & Hr & Ho & Hp & ->).
  exists o. split; [done|]. split; [done|].
  assert (Hblank : forall b', b' = init_staged_state o ->
            order b' = o /\ flag b' = None /\ notes b' = [] /\
            (forall c, c ∈ TAG_COLS -> tags b' !! c = Some false) /\
            (forall c v, tags b' !! c = Some v -> v = false)).
  { intros b' ->. repeat split; try reflexivity.
    - intros c Hc. rewrite init_staged_tags. by rewrite bool_decide_eq_true_2.
    - intros c v. rewrite init_staged_tags. case_bool_decide; congruence. }
  split; [|split].
  - intros [-> | (b0 & -> & Hne)]; apply Hblank; simpl; [done|].
    destruct (Z.eqb_spec (order b0) o); [done|]. done.
  - intros b0 -> Heq. simpl. rewrite Heq, Z.eqb_refl. done.
  - assert (Hord : order (load_record stg o) = o).
    { destruct stg as [b0|]; simpl; [|done].
      destruct (Z.eqb_spec (order b0) o); simpl; done. }
    unfold select_record, bind in *. rewrite Hr in *.
    destruct (has_col d ORDER_COL); simpl in *; [|done].
    rewrite Ho in *. rewrite Hp in *. simpl in *.
    clear Hsel'. rewrite Hord, Z.eqb_refl. simpl. done.
Qed.

(** Equations between closed terms are settled by evaluation. *)
Ltac by_evaluation :=
  apply (bool_decide_eq_true_1 _); vm_compute; reflexivity.

Lemma sample_on_display :
  select_record (the_frame sample_session)
    (build_view (the_frame sample_session) [true; true; true]
       (filter_unlabeled sample_session))
    (checked_idx
       (len (build_view (the_frame sample_session) [true; true; true]
               (filter_unlabeled sample_session)))
       (view_idx sample_session))
    (staged sample_session)
  = inr (sample_row, 0%nat, sample_staged).
Proof. by_evaluation. Defined.

Lemma load_record_spec_witness :
  exists o,
    int_of_cell (order_key sample_row) = inr o /\
    order sample_staged = o /\
    select_record (the_frame sample_session)
      (build_view (the_frame sample_session) [true; true; true]
         (filter_unlabeled sample_session))
      (checked_idx
         (len (build_view (the_frame sample_session) [true; true; true]
                 (filter_unlabeled sample_session)))
         (view_idx sample_session))
      (Some sample_staged)
    = inr (sample_row, 0%nat, sample_staged).
Proof.
  destruct (load_record_spec _ _ _ _ _ _ _ sample_on_display)
    as (o & _ & Ho & _ & Hkeep & Hidem).
  exists o. split; [exact Ho|]. split; [|exact Hidem].
  assert (Hs : staged sample_session = Some sample_staged) by by_evaluation.
  assert (Hord : order sample_staged = 1) by (vm_compute; reflexivity).
  assert (Hkey : int_of_cell (order_key sample_row) = inr 1)
    by (vm_compute; reflexivity).
  rewrite Hkey in Ho. injection Ho as <-. exact Hord.
Defined.

(** C6, as stated, fails: the buffer is bound to [int(key)], and two
    records with different order keys can give the same integer.  In the
    workbook whose keys are the texts [07] and [7], the record on display
    with the filter on is Acme, key [7], and the execution leaves a buffer
    bound to 7 that holds the operator's edits.  With the filter off the
    record on display is Borealis, key [07]: its key is another one (Save
    would write another position), yet its buffer is not made blank, it is
    the buffer of Acme with its edits. *)
Lemma buffer_kept_for_another_key :
  reachable text_keys_unfiltered /\
  staged text_keys_unfiltered = Some text_keys_staged /\
  on_display text_keys_session
  = (fun r => (r, 1%nat)) <$> rows (the_frame text_keys_session) !! 1%nat /\
  on_display text_keys_unfiltered
  = (fun r => (r, 0%nat)) <$> rows (the_frame text_keys_session) !! 0%nat /\
  order_key <$> rows (the_frame text_keys_session)
  = [Str (lit "07"); Str (lit "7")] /\
  Str (lit "07") <> Str (lit "7") /\
  order text_keys_staged = 7 /\
  flag text_keys_staged = Some false /\
  notes text_keys_staged = lit "draft" /\
  text_keys_staged <> init_staged_state 7 /\
  (exists r,
     select_record (the_frame text_keys_unfiltered)
       (rows (the_frame text_keys_unfiltered)) 0
       (staged text_keys_unfiltered)
     = inr (r, 0%nat, text_keys_staged) /\
     order_key r = Str (lit "07")).
Proof.
  split.
  { exists [Interact (with_upload (Some text_keys_xlsx) drafting);
            SetFilter false].
    reflexivity. }
  split; [by_evaluation|].
  split; [by_evaluation|].
  split; [by_evaluation|].
  split; [by_evaluation|].
  split; [discriminate|].
  split; [by_evaluation|].
  split; [by_evaluation|].
  split; [by_evaluation|].
  split; [apply (bool_decide_unpack _); vm_compute; exact I|].
  exists (default ∅ (rows (the_frame text_keys_unfiltered) !! 0%nat)).
  split; by_evaluation.
Qed.

(** ** Unfolding one execution *)

Lemma the_frame_loaded (s : Session) :
  match df s with Some _ => true | None => false end = true ->
  df s = Some (the_frame s).
Proof. unfold the_frame. destruct (df s); [reflexivity | discriminate]. Defined.

Lemma nonempty_length {A : Type} (l : list A) :
  (0 <? length l)%nat = true -> l <> [].
Proof. intros H ->. discriminate H. Defined.

Lemma load_branch_loaded s d up :
  df s = Some d -> load_branch s up = (s, []).
Proof. intros H. unfold load_branch. rewrite H. by destruct up. Qed.

Lemma len_nil_iff {A : Type} (l : list A) : (len l =? 0) = true <-> l = [].
Proof.
  unfold len. destruct l; simpl; done.
Qed.

Lemma len_pos {A : Type} (l : list A) : l <> [] -> (len l =? 0) = false.
Proof.
  intros H. destruct (len l =? 0) eqn:E; [|done].
  by apply len_nil_iff in E.
Qed.

(** An execution that gets to the record on display goes on with the
    buttons. *)
Lemma render_at_record s i d mask r pos b :
  df s = Some d ->
  unlabeled_mask d = inr mask ->
  build_view d mask (filter_unlabeled s) <> [] ->
  select_record d (build_view d mask (filter_unlabeled s))
    (checked_idx (len (build_view d mask (filter_unlabeled s))) (view_idx s))
    (staged s) = inr (r, pos, b) ->
  render s i =
    actions s d (count_true mask)
      (len (build_view d mask (filter_unlabeled s)))
      (checked_idx (len (build_view d mask (filter_unlabeled s))) (view_idx s))
      pos (stage_widgets b i) i
      ([] ++ [st_metric (count_true mask)]
          ++ [st_subheader
                (checked_idx (len (build_view d mask (filter_unlabeled s)))
                   (view_idx s) + 1)
                (len (build_view d mask (filter_unlabeled s)))
                (order (stage_widgets b i))]).
Proof.
  intros Hd Hm Hv Hsel. unfold render.
  rewrite (load_branch_loaded s d _ Hd). rewrite Hd, Hm.
  rewrite (len_pos _ Hv). rewrite Hsel. done.
Qed.

(** Whatever is clicked, an execution on a loaded session keeps a frame,
    and the frame is the old one unless Save committed. *)
Lemma render_frame s i d :
  df s = Some d ->
  df (session (render s i)) = Some d \/
  exists pos b, clicked i = Some Save /\ flag b <> None /\
                df (session (render s i)) = Some (commit d pos b).1.
Proof.
  intros Hd. unfold render. rewrite (load_branch_loaded s d _ Hd), Hd.
  destruct (unlabeled_mask d) as [e | mask]; simpl; [by left|].
  destruct (len _ =? 0); simpl; [by left|].
  destruct (select_record _ _ _ _) as [e | [[r pos] b]]; simpl; [by left|].
  unfold actions. generalize (stage_widgets b i) as b'. intros b'.
  destruct (clicked i) as [[| |]|] eqn:Hc; simpl; try by left.
  destruct (bool_decide_reflect (flag b' = None)) as [Hf|Hf];
    simpl; [by left|].
  right. exists pos, b'. split; [done|]. split; [done|].
  by destruct (commit d pos b') as [d' [e|]].
Qed.

(** ** The cursor *)

Lemma checked_idx_range (n cursor : Z) :
  0 < n -> 0 <= cursor ->
  0 <= checked_idx n cursor <= n - 1.
Proof. unfold checked_idx. intros. destruct (Z.leb_spec n cursor); lia. Qed.

Lemma render_cursor s i :
  0 <= view_idx s -> 0 <= view_idx (session (render s i)).
Proof.
  intros H0. unfold render.
  destruct (load_branch s (uploaded i)) as [s1 pg] eqn:Hl.
  assert (H1 : view_idx s1 = view_idx s).
  { unfold load_branch in Hl. destruct (uploaded i), (df s);
      try (by injection Hl as <- _).
    destruct (load_data _); by injection Hl as <- _. }
  destruct (df s1) as [d|]; simpl; [|lia].
  destruct (unlabeled_mask d) as [e | mask]; simpl; [lia|].
  destruct (len _ =? 0) eqn:Hn; simpl; [lia|].
  set (n := len _) in *.
  assert (Hpos : 0 < n).
  { apply Z.eqb_neq in Hn. unfold n, len in *. lia. }
  pose proof (checked_idx_range n (view_idx s1) Hpos ltac:(lia)) as Hr.
  destruct (select_record _ _ _ _) as [e | [[r pos] b]]; simpl; [lia|].
  unfold actions. generalize (stage_widgets b i) as b'. intros b'.
  destruct (clicked i) as [[| |]|]; simpl; try lia.
  destruct (negb _); simpl; [|lia].
  destruct (commit _ _ _) as [d' [e|]]; simpl; lia.
Qed.

Lemma reachable_cursor s : reachable s -> 0 <= view_idx s.
Proof.
  intros [es ->]. induction es as [|e es IH] using rev_ind; [done|].
  unfold run in *. rewrite foldl_app. simpl.
  destruct e as [i | b]; simpl; [by apply render_cursor | done].
Qed.

(** C7.  In every execution that computes a view with at least one record,
    the cursor used to pick the record lies in [0, len(view) - 1]: it is the
    stored cursor when that is below [len(view)], and 0 otherwise.  The
    cursor the execution leaves in the session lies in the same range
    whatever was clicked, and is the checked cursor when nothing was. *)
Theorem cursor_checked (s : Session) (i : Inputs) (d : DataFrame)
    (mask : list bool) :
  reachable s ->
  df s = Some d ->
  unlabeled_mask d = inr mask ->
  build_view d mask (filter_unlabeled s) <> [] ->
  let n := len (build_view d mask (filter_unlabeled s)) in
  let idx := checked_idx n (view_idx s) in
  0 <= idx <= n - 1 /\
  (n <= view_idx s -> idx = 0) /\
  (view_idx s < n -> idx = view_idx s) /\
  0 <= view_idx (session (render s i)) <= n - 1 /\
  (clicked i = None -> view_idx (session (render s i)) = idx).
Proof.
  intros Hreach Hd Hm Hv n idx.
  pose proof (reachable_cursor s Hreach) as H0.
  assert (Hn : 0 < n).
  { pose proof (len_pos _ Hv) as E. apply Z.eqb_neq in E.
    unfold n, len in *. lia. }
  pose proof (checked_idx_range n (view_idx s) Hn H0) as Hr.
  split; [exact Hr|].
  split; [unfold idx, checked_idx; intros; destruct (Z.leb_spec n (view_idx s)); lia|].
  split; [unfold idx, checked_idx; intros; destruct (Z.leb_spec n (view_idx s)); lia|].
  unfold render. rewrite (load_branch_loaded s d _ Hd), Hd, Hm.
  rewrite (len_pos _ Hv). fold n. fold idx.
  destruct (select_record _ _ _ _) as [e | [[r pos] b]]; simpl; [by split|].
  unfold actions. generalize (stage_widgets b i) as b'. intros b'.
  destruct (clicked i) as [[| |]|]; simpl.
  - split; [lia | done].
  - split; [lia | done].
  - destruct (negb _); simpl; [|split; [lia | done]].
    destruct (commit _ _ _) as [d' [e|]]; simpl; (split; [lia | done]).
  - split; [lia | done].
Qed.

Lemma cursor_checked_witness :
  let n := len (build_view (the_frame keyed_session) [false; true]
                  (filter_unlabeled keyed_session)) in
  let idx := checked_idx n (view_idx keyed_session) in
  0 <= idx <= n - 1 /\
  (n <= view_idx keyed_session -> idx = 0) /\
  (view_idx keyed_session < n -> idx = view_idx keyed_session) /\
  0 <= view_idx (session (render keyed_session idle)) <= n - 1 /\
  (clicked idle = None -> view_idx (session (render keyed_session idle)) = idx).
Proof.
  apply (cursor_checked keyed_session idle (the_frame keyed_session)
           [false; true]).
  - exists [Interact (with_upload (Some keyed_csv) idle);
            Interact (widgets opt_Y [] [] (Some Save) false)].
    unfold keyed_session. reflexivity.
  - apply the_frame_loaded. vm_compute. reflexivity.
  - vm_compute. reflexivity.
  - apply nonempty_length. vm_compute. reflexivity.
Defined.

(** ** The load branch *)

Lemma edited_trans d1 d2 d3 : edited d1 d2 -> edited d2 d3 -> edited d1 d3.
Proof.
  intros H12 H23. induction H23; [done|]. by constructor.
Qed.

Lemma render_forget_upload s i d :
  df s = Some d -> render s i = render s (with_upload None i).
Proof.
  intros Hd. unfold render.
  rewrite !(load_branch_loaded s d _ Hd). reflexivity.
Qed.

Lemma step_loaded s e d :
  df s = Some d ->
  step s e = step s (forget_upload e) /\
  exists d', df (step s e) = Some d' /\ edited d d'.
Proof.
  intros Hd. destruct e as [i | b]; simpl.
  - split; [by rewrite (render_forget_upload s i d Hd)|].
    destruct (render_frame s i d Hd) as [H | (pos & b & _ & _ & H)].
    + exists d. split; [done | constructor].
    + exists (commit d pos b).1. split; [done | repeat constructor].
  - split; [done|]. exists d. split; [done | constructor].
Qed.

(** C10.  Once the session holds a frame, the load branch does nothing,
    whatever file is in the uploader: the execution is the one without a
    file, so is every later one, and the frame of the session is at all
    times the loaded one up to the commits of Save. *)
Theorem no_reload (s : Session) (d : DataFrame) :
  df s = Some d ->
  (forall up, load_branch s up = (s, [])) /\
  (forall i, render s i = render s (with_upload None i)) /\
  (forall es, run s es = run s (forget_upload <$> es)) /\
  (forall es, exists d', df (run s es) = Some d' /\ edited d d').
Proof.
  intros Hd. split; [|split; [|split]].
  - intros up. by apply load_branch_loaded with d.
  - intros i. by apply render_forget_upload with d.
  - intros es. revert s d Hd. induction es as [|e es IH]; intros s d Hd; [done|].
    simpl. destruct (step_loaded s e d Hd) as (He & d' & Hd' & _).
    rewrite <- He. by apply IH with d'.
  - intros es. revert s d Hd. induction es as [|e es IH]; intros s d Hd.
    + exists d. split; [done | constructor].
    + simpl. destruct (step_loaded s e d Hd) as (_ & d1 & Hd1 & Hed).
      destruct (IH _ _ Hd1) as (d' & Hd' & Hed'). exists d'.
      split; [done | by apply edited_trans with d1].
Qed.

Lemma no_reload_witness :
  render sample_session (with_upload (Some keyed_csv) idle)
  = render sample_session (with_upload None (with_upload (Some keyed_csv) idle)).
Proof.
  apply (no_reload sample_session (the_frame sample_session)).
  apply the_frame_loaded. vm_compute. reflexivity.
Defined.

Lemma load_input_failure_data file e :
  load_input file = inl e -> load_data file = inl e.
Proof. intros H. unfold load_data. by rewrite H. Qed.

(** C8.  [load_input] raises when the file is not named [.csv] and its
    workbook has no sheet named exactly [Results], and when pandas cannot
    read the file at all.  Whenever the body of the load branch raises, on a
    session without a frame, the execution shows the error and stops, and
    the session (frame, cursor, filter flag, staged buffer) is the one it
    was. *)
Theorem load_failure (file : UploadedFile) :
  (endswith (lower (name file)) (lit ".csv") = false ->
   forall xls, ExcelFile file = inr xls ->
     lit "Results" ∉ sheet_names xls ->
     load_input file
     = inl (ValueError (lit "Sheet 'Results' not found in Excel"))) /\
  (forall e,
     (endswith (lower (name file)) (lit ".csv") = true /\ read_csv file = inl e)
     \/ (endswith (lower (name file)) (lit ".csv") = false
         /\ ExcelFile file = inl e) ->
     load_input file = inl e) /\
  (forall e, load_input file = inl e -> load_data file = inl e) /\
  (forall e s i,
     load_data file = inl e -> uploaded i = Some file -> df s = None ->
     render s i
     = {| session := s; page := [st_error e; st_info]; ending := Stopped |}).
Proof.
  split; [|split; [|split]].
  - intros Hn xls Hx Hs. unfold load_input. rewrite Hn, Hx. simpl.
    by rewrite (bool_decide_eq_false_2 _ Hs).
  - intros e [[Hn Hr] | [Hn Hx]]; unfold load_input; rewrite Hn; [done|].
    by rewrite Hx.
  - apply load_input_failure_data.
  - intros e s i He Hup Hd. unfold render, load_branch.
    rewrite Hup, Hd, He. simpl. by rewrite Hd.
Qed.

Lemma load_failure_witness :
  load_input sample_xlsx
  = inl (ValueError (lit "Sheet 'Results' not found in Excel")) /\
  load_input broken_csv = inl ParserError /\
  render unloaded_session (with_upload (Some sample_xlsx) idle)
  = {| session := unloaded_session;
       page := [st_error (ValueError (lit "Sheet 'Results' not found in Excel"));
                st_info];
       ending := Stopped |}.
Proof.
  split; [|split].
  - destruct (load_failure sample_xlsx) as (H & _).
    apply H with (xls := [(lit "results", inr sample_table)]).
    + reflexivity.
    + reflexivity.
    + apply (bool_decide_unpack _). vm_compute. exact I.
  - destruct (load_failure broken_csv) as (_ & H & _).
    apply H. left. split; reflexivity.
  - destruct (load_failure sample_xlsx) as (_ & _ & _ & H).
    apply H; reflexivity.
Defined.

(** ** The mask and the view *)

Lemma traverse_length {A B : Type} (f : A -> Exc B) (l : list A) (l' : list B) :
  traverse f l = inr l' -> length l' = length l.
Proof.
  revert l'. induction l as [|a l IH]; intros l'; simpl.
  - by intros [= <-].
  - unfold bind. destruct (f a) as [e | b]; [done|].
    destruct (traverse f l) as [e | bs]; [done|].
    intros [= <-]. simpl. f_equal. by apply IH.
Qed.

Lemma traverse_lookup {A B : Type} (f : A -> Exc B) (l : list A) (l' : list B)
    (k : nat) (a : A) :
  traverse f l = inr l' -> l !! k = Some a ->
  exists b, f a = inr b /\ l' !! k = Some b.
Proof.
  revert l' k. induction l as [|x l IH]; intros l' k; simpl; [done|].
  unfold bind. destruct (f x) as [e | b] eqn:Hx; [done|].
  destruct (traverse f l) as [e | bs]; [done|].
  intros [= <-]. destruct k as [|k]; simpl.
  - intros [= <-]. by exists b.
  - intros Hk. by apply IH.
Qed.

Lemma unlabeled_mask_inv d mask :
  unlabeled_mask d = inr mask ->
  MAIN_FLAG_COL ∈ columns d /\
  traverse (unlabeled (int64_tags d) (filter (fun c => c ∈ columns d) TAG_COLS))
    (rows d)
  = inr mask.
Proof.
  unfold unlabeled_mask, bind, int64_tags.
  destruct (traverse _ _) as [e | m]; [done|].
  unfold has_col. case_bool_decide; [|done]. by intros [= <-].
Qed.

Lemma unlabeled_mask_length d mask :
  unlabeled_mask d = inr mask -> length mask = length (rows d).
Proof.
  intros H. apply unlabeled_mask_inv in H as [_ H].
  by apply traverse_length in H.
Qed.

Lemma count_true_nonneg (m : list bool) : 0 <= count_true m.
Proof. unfold count_true. lia. Qed.

Lemma select_rows_nil (m : list bool) (l : list row) :
  length m = length l -> select_rows m l = [] -> count_true m = 0.
Proof.
  revert l. induction m as [|b m IH]; intros [|r l]; simpl; try done.
  intros [= Hlen]. destruct b; [done|]. intros H.
  unfold count_true. rewrite filter_cons_False by done. by apply IH with l.
Qed.

Lemma empty_view_remaining d mask f :
  unlabeled_mask d = inr mask -> build_view d mask f = [] -> count_true mask = 0.
Proof.
  intros Hm Hv. pose proof (unlabeled_mask_length d mask Hm) as Hlen.
  destruct f; simpl in Hv.
  - by apply select_rows_nil with (rows d).
  - rewrite Hv in Hlen. by destruct mask.
Qed.

(** ** Export *)

Lemma export_section_download d n i :
  export_section d n i
  = (if 0 <? n then [st_warning n; st_checkbox_allow] else [])
      ++ [st_download_button d (save_name i)
            ((0 <? n) && negb (allow_export_box i))].
Proof. unfold export_section. by destruct (0 <? n). Qed.


(** Membership in a page given element by element. *)
Ltac page_inv H :=
  repeat first
    [ apply elem_of_app in H as [H | H]
    | apply elem_of_cons in H as [H | H]
    | apply elem_of_nil in H; contradiction ];
  try discriminate H.

Ltac page_mem :=
  apply list_elem_of_In; simpl; auto 12.

Ltac gate_case :=
  cbn [session page ending df moved is_save andb negb app];
  split;
    [intros ? ? ? H; page_inv H; injection H as -> -> ->;
     repeat (split; try reflexivity)|];
  split; [intros ? H; page_inv H; injection H as ->; split; first [done | lia]|];
  split; [intros [E | E]; try discriminate E; eexists; page_mem|];
  split; [intros E ?; try discriminate E; try lia; split; page_mem|];
  intros E; try discriminate E; split; first [done | auto].

(** C4.  On a loaded session, with [remaining] the number of unlabeled
    records of the whole frame: every download button an execution draws
    carries the frame of the session and is disabled exactly when
    [remaining > 0] and the acknowledgement box is not ticked; a warning is
    drawn only when [remaining > 0]; an execution that ends by [st.stop()] or
    runs to its end draws a download button; and an execution in which no
    button is clicked leaves the frame as it is, and ends one of these two
    ways unless picking the record raised. *)
Theorem export_gate (s : Session) (i : Inputs) (d : DataFrame)
    (mask : list bool) :
  df s = Some d ->
  unlabeled_mask d = inr mask ->
  let remaining := count_true mask in
  let r := render s i in
  (forall data f dis,
     st_download_button data f dis ∈ page r ->
     data = d /\ f = save_name i /\
     dis = (0 <? remaining) && negb (allow_export_box i)) /\
  (forall n, st_warning n ∈ page r -> n = remaining /\ 0 < remaining) /\
  (ending r = Finished \/ ending r = Stopped ->
   exists dis, st_download_button d (save_name i) dis ∈ page r) /\
  (ending r = Finished -> 0 < remaining ->
   st_warning remaining ∈ page r /\ st_checkbox_allow ∈ page r) /\
  (clicked i = None ->
   df (session r) = Some d /\
   (ending r = Finished \/ ending r = Stopped \/
    exists e, ending r = Raised e /\
      select_record d (build_view d mask (filter_unlabeled s))
        (checked_idx (len (build_view d mask (filter_unlabeled s)))
           (view_idx s))
        (staged s) = inl e)).
Proof.
  intros Hd Hm remaining r. subst r. unfold render.
  rewrite (load_branch_loaded s d _ Hd), Hd, Hm. fold remaining.
  destruct (len _ =? 0) eqn:Hn.
  { apply len_nil_iff in Hn.
    pose proof (empty_view_remaining d mask _ Hm Hn) as H0. fold remaining in H0.
    rewrite H0. gate_case. }
  destruct (select_record _ _ _ _) as [e | [[rw pos] b]] eqn:Hsel.
  { gate_case. right; right. by exists e. }
  unfold actions. generalize (stage_widgets b i) as b'. intros b'.
  pose proof (count_true_nonneg mask) as Hnn. fold remaining in Hnn.
  rewrite export_section_download.
  destruct (clicked i) as [[| |]|] eqn:Hc;
    destruct (bool_decide (flag b' = None));
    destruct (0 <? remaining) eqn:Hr;
    try apply Z.ltb_lt in Hr; try apply Z.ltb_ge in Hr;
    cbn [is_save andb negb];
    try (destruct (commit d pos b') as [d' [e|]]);
    gate_case; lia.
Qed.

Lemma export_gate_witness :
  (exists dis,
     st_download_button (the_frame sample_session) (save_name idle) dis
     ∈ page (render sample_session idle)) /\
  st_warning 3 ∈ page (render sample_session idle) /\
  df (session (render sample_session idle)) = Some (the_frame sample_session).
Proof.
  destruct (export_gate sample_session idle (the_frame sample_session)
              [true; true; true]) as (_ & _ & H3 & H4 & H5).
  - apply the_frame_loaded. vm_compute. reflexivity.
  - vm_compute. reflexivity.
  - split; [|split].
    + apply H3. left. vm_compute. reflexivity.
    + apply H4; vm_compute; reflexivity.
    + apply H5. reflexivity.
Defined.

(** ** Skip *)

(** C2.  An execution in which Skip is clicked leaves the frame of the
    session as it is, whatever the widgets hold, and the filter flag too.
    When the execution gets to the buttons (the view has a record and it is
    picked without error) it ends by [st.rerun()] with the cursor at
    [min(len(view) - 1, idx + 1)], [idx] being the checked cursor (the stored
    cursor when that is within the view), and with no staged buffer. *)
Theorem skip_frame (s : Session) (i : Inputs) (d : DataFrame) :
  df s = Some d ->
  clicked i = Some Skip ->
  df (session (render s i)) = Some d /\
  filter_unlabeled (session (render s i)) = filter_unlabeled s /\
  forall mask r pos b,
    unlabeled_mask d = inr mask ->
    build_view d mask (filter_unlabeled s) <> [] ->
    let n := len (build_view d mask (filter_unlabeled s)) in
    let idx := checked_idx n (view_idx s) in
    select_record d (build_view d mask (filter_unlabeled s)) idx (staged s)
    = inr (r, pos, b) ->
    session (render s i)
    = {| df := Some d; view_idx := Z.min (n - 1) (idx + 1);
         filter_unlabeled := filter_unlabeled s; staged := None |} /\
    ending (render s i) = Rerun /\
    (0 <= view_idx s < n -> idx = view_idx s).
Proof.
  intros Hd Hc. split; [|split].
  - destruct (render_frame s i d Hd) as [H | (pos & b & Hs & _)]; [done|].
    congruence.
  - unfold render. rewrite (load_branch_loaded s d _ Hd), Hd.
    destruct (unlabeled_mask d) as [e | mask]; [done|].
    destruct (len _ =? 0); [done|].
    destruct (select_record _ _ _ _) as [e | [[r pos] b]]; [done|].
    unfold actions. by rewrite Hc.
  - intros mask r pos b Hm Hv n idx Hsel.
    rewrite (render_at_record s i d mask r pos b Hd Hm Hv Hsel).
    unfold actions. rewrite Hc. cbn [session ending]. fold n. fold idx.
    split; [done|]. split; [done|].
    intros [H0 Hn]. unfold idx, checked_idx.
    destruct (Z.leb_spec n (view_idx s)); [lia | done].
Qed.

Lemma skip_frame_witness :
  df (session (render sample_session
                 (widgets opt_Y [lit "supply_chain_Package"] (lit "later")
                    (Some Skip) false)))
  = Some (the_frame sample_session).
Proof.
  apply (skip_frame sample_session
           (widgets opt_Y [lit "supply_chain_Package"] (lit "later")
              (Some Skip) false)
           (the_frame sample_session)).
  - apply the_frame_loaded. vm_compute. reflexivity.
  - reflexivity.
Defined.

(** ** Frames under the loader *)

Lemma carried_refl P d : carried P d d.
Proof.
  split; [done|]. split; [done|].
  intros i r r' H1 H2. rewrite H1 in H2. by injection H2 as ->.
Qed.

Lemma carried_trans P d1 d2 d3 :
  carried P d1 d2 -> carried P d2 d3 -> carried P d1 d3.
Proof.
  intros (L12 & C12 & R12) (L23 & C23 & R23).
  split; [congruence|]. split; [by auto|].
  intros i r r' H1 H3 c HP Hc.
  destruct (rows d2 !! i) as [r2|] eqn:H2.
  - rewrite (R23 i r2 r' H2 H3 c HP (C12 c HP Hc)).
    by apply (R12 i r r2 H1 H2).
  - apply lookup_ge_None in H2. apply lookup_lt_Some in H1. lia.
Qed.

Lemma set_column_columns d c v c' :
  c' ∈ columns (set_column d c v) <-> c' ∈ columns d \/ c' = c.
Proof.
  unfold set_column, has_col; simpl. case_bool_decide.
  - split; [by left | intros [H' | ->]; done].
  - rewrite elem_of_app, list_elem_of_singleton. done.
Qed.

Lemma set_column_lookup d c v i :
  rows (set_column d c v) !! i = (fun r => <[c := v i]> r) <$> rows d !! i.
Proof. unfold set_column; simpl. by rewrite list_lookup_imap. Qed.

Lemma set_column_carried P d c v :
  c ∉ columns d -> carried P d (set_column d c v).
Proof.
  intros Hc. split; [|split].
  - unfold set_column; simpl. apply length_imap.
  - intros c' _ H. apply set_column_columns. by left.
  - intros i r r' H1 H2 c' _ Hc'. rewrite set_column_lookup, H1 in H2.
    injection H2 as <-. apply lookup_insert_ne. congruence.
Qed.

Lemma ensure_column_columns v d c c' :
  c' ∈ columns (ensure_column v d c) <-> c' ∈ columns d \/ c' = c.
Proof.
  unfold ensure_column, has_col. case_bool_decide; simpl.
  - split; [by left | intros [H' | ->]; done].
  - apply (set_column_columns d c (fun _ => v)).
Qed.

Lemma ensure_column_carried P v d c : carried P d (ensure_column v d c).
Proof.
  unfold ensure_column, has_col. case_bool_decide; simpl.
  - apply carried_refl.
  - by apply set_column_carried.
Qed.

Lemma ensure_columns_columns v l d c' :
  c' ∈ columns (foldl (ensure_column v) d l) <-> c' ∈ columns d \/ c' ∈ l.
Proof.
  revert d. induction l as [|c l IH]; intros d; simpl.
  - rewrite elem_of_nil. tauto.
  - rewrite IH, ensure_column_columns, elem_of_cons. tauto.
Qed.

Lemma ensure_columns_carried P v l d :
  carried P d (foldl (ensure_column v) d l).
Proof.
  revert d. induction l as [|c l IH]; intros d; simpl.
  - apply carried_refl.
  - eapply carried_trans; [apply ensure_column_carried | apply IH].
Qed.

Lemma drop_column_carried d c :
  is_unnamed c = true ->
  carried (fun c' => is_unnamed c' = false) d (drop_column d c).
Proof.
  intros Hu. split; [|split].
  - unfold drop_column; simpl. apply length_fmap.
  - intros c' Hc' Hin. unfold drop_column; simpl.
    apply list_elem_of_filter. split; [congruence | done].
  - intros i r r' H1 H2 c' Hc' _. unfold drop_column in H2; simpl in H2.
    rewrite list_lookup_fmap, H1 in H2. injection H2 as <-.
    apply lookup_delete_ne. congruence.
Qed.

Lemma drop_unnamed_carried l d :
  carried (fun c => is_unnamed c = false) d (drop_unnamed d l).
Proof.
  unfold drop_unnamed. revert d.
  induction l as [|c l IH]; intros d; simpl.
  - apply carried_refl.
  - eapply carried_trans; [|apply IH].
    destruct (is_unnamed c) eqn:Hu;
      [by apply drop_column_carried | apply carried_refl].
Qed.

Lemma drop_unnamed_columns l d c :
  c ∈ columns (drop_unnamed d l) -> c ∈ columns d.
Proof.
  unfold drop_unnamed. revert d.
  induction l as [|c0 l IH]; intros d; simpl; [done|].
  intros H. apply IH in H. destruct (is_unnamed c0); [|done].
  unfold drop_column in H; simpl in H.
  by apply list_elem_of_filter in H as [_ H].
Qed.

(** *** [stable_sort] is a stable sort *)

Lemma str_leb_refl (a : str) : str_leb a a = true.
Proof.
  induction a as [|x a IH]; simpl; [done|].
  rewrite N.eqb_refl, IH. by rewrite orb_true_r.
Qed.

Lemma str_leb_total (a b : str) : str_leb a b = true \/ str_leb b a = true.
Proof.
  revert b. induction a as [|x a IH]; intros [|y b]; simpl; auto.
  destruct (N.ltb_spec x y) as [Hxy | Hxy]; simpl; [by left|].
  destruct (N.ltb_spec y x) as [Hyx | Hyx]; simpl; [by right|].
  assert (x = y) as -> by lia. rewrite N.eqb_refl. simpl. apply IH.
Qed.

Lemma cell_leb_refl (a : cell) : cell_leb a a = true.
Proof. destruct a; simpl; [done | lia | apply str_leb_refl]. Qed.

Lemma cell_leb_total (a b : cell) : cell_leb a b = true \/ cell_leb b a = true.
Proof.
  destruct a as [| x | x], b as [| y | y]; simpl; auto.
  - destruct (Z.leb_spec x y); [by left | right; lia].
  - apply str_leb_total.
Qed.

Lemma insert_sorted_perm (key : row -> cell) (r : row) (l : list row) :
  insert_sorted key r l ≡ₚ r :: l.
Proof.
  induction l as [|x l IH]; simpl; [done|].
  destruct (cell_leb _ _); [done|]. rewrite IH. apply Permutation_swap.
Qed.

Lemma stable_sort_perm (key : row -> cell) (l : list row) :
  stable_sort key l ≡ₚ l.
Proof.
  unfold stable_sort. induction l as [|x l IH]; simpl; [done|].
  by rewrite insert_sorted_perm, IH.
Qed.

Lemma insert_sorted_ascending (key : row -> cell) (r : row) (l : list row) :
  ascending key l -> ascending key (insert_sorted key r l).
Proof.
  induction l as [|x l IH]; intros Hl; [done|].
  cbn [insert_sorted]. destruct (cell_leb (key r) (key x)) eqn:Hrx.
  - by split.
  - assert (Hxr : cell_leb (key x) (key r) = true).
    { destruct (cell_leb_total (key x) (key r)); congruence. }
    destruct l as [|y l]; [by split|].
    destruct Hl as [Hxy Hl]. specialize (IH Hl).
    cbn [insert_sorted] in *.
    destruct (cell_leb (key r) (key y)); by split.
Qed.

Lemma stable_sort_ascending (key : row -> cell) (l : list row) :
  ascending key (stable_sort key l).
Proof.
  unfold stable_sort. induction l as [|x l IH]; [done|].
  by apply insert_sorted_ascending.
Qed.

(** Records with the same key keep their relative order. *)
Lemma insert_sorted_stable (key : row -> cell) (k : cell) (r : row)
    (l : list row) :
  filter (fun x => key x = k) (insert_sorted key r l)
  = filter (fun x => key x = k) (r :: l).
Proof.
  induction l as [|x l IH]; [done|].
  cbn [insert_sorted]. destruct (cell_leb (key r) (key x)) eqn:Hrx; [done|].
  rewrite filter_cons, IH, !filter_cons.
  destruct (decide (key x = k)) as [Hx | Hx]; [|done].
  destruct (decide (key r = k)) as [Hr | Hr]; [|done].
  rewrite Hx, Hr, cell_leb_refl in Hrx. done.
Qed.

Lemma stable_sort_stable (key : row -> cell) (k : cell) (l : list row) :
  filter (fun x => key x = k) (stable_sort key l)
  = filter (fun x => key x = k) l.
Proof.
  unfold stable_sort. induction l as [|x l IH]; [done|].
  cbn [foldr]. rewrite insert_sorted_stable, !filter_cons, IH. done.
Qed.

(** *** Sorting a column that is already in order *)

Lemma insert_sorted_front (key : row -> cell) (r : row) (l : list row) :
  (forall r', head l = Some r' -> cell_leb (key r) (key r') = true) ->
  insert_sorted key r l = r :: l.
Proof.
  destruct l as [|r' l]; simpl; [done|].
  intros H. by rewrite (H r' eq_refl).
Qed.

Lemma stable_sort_numbered (key : row -> cell) (f : nat -> row -> row) (a : Z) (l : list row) :
  (forall i r, key (f i r) = Int (Z.of_nat i + a)) ->
  stable_sort key (imap f l) = imap f l.
Proof.
  revert f a. induction l as [|x l IH]; intros f a Hkey; [done|].
  simpl. unfold stable_sort in *. simpl.
  rewrite (IH (f ∘ S) (a + 1)).
  - apply insert_sorted_front. destruct l as [|y l]; simpl; [done|].
    intros r' [= <-]. rewrite !Hkey. simpl. apply Z.leb_le. lia.
  - intros i r. simpl. rewrite Hkey. f_equal. lia.
Qed.

Lemma no_text_numbered (key : row -> cell) (f : nat -> row -> row) (a : Z) (l : list row) :
  (forall i r, key (f i r) = Int (Z.of_nat i + a)) ->
  existsb is_str (key <$> imap f l) = false.
Proof.
  revert f a. induction l as [|x l IH]; intros f a Hkey; [done|].
  simpl. rewrite Hkey. simpl. apply (IH (f ∘ S) (a + 1)).
  intros i r. simpl. rewrite Hkey. f_equal. lia.
Qed.

Lemma getitem_insert (r : row) c v : getitem (<[c := v]> r) c = v.
Proof. unfold getitem. by rewrite lookup_insert_eq. Qed.

(** [ensure_order] on a frame without the order column: the positional
    columns are dropped, the order column is appended with 1, 2, ... down
    the rows, and sorting leaves the rows where they are. *)
Lemma ensure_order_fresh d :
  ORDER_COL ∉ columns d ->
  ensure_order d
  = inr (set_column (drop_unnamed d (columns d)) ORDER_COL
           (fun i => Int (Z.of_nat i + 1))).
Proof.
  intros Hno. unfold ensure_order.
  set (d1 := drop_unnamed d (columns d)).
  assert (H1 : has_col d1 ORDER_COL = false).
  { apply bool_decide_eq_false_2. intros H.
    by apply drop_unnamed_columns in H. }
  rewrite H1. simpl. unfold sort_values.
  assert (H2 : has_col (set_column d1 ORDER_COL
                          (fun i => Int (Z.of_nat i + 1))) ORDER_COL = true).
  { apply bool_decide_eq_true_2. apply set_column_columns. by right. }
  rewrite H2. simpl.
  rewrite (no_text_numbered _ _ 1), andb_false_r
    by (intros; apply getitem_insert).
  rewrite (stable_sort_numbered _ _ 1) by (intros; apply getitem_insert).
  unfold set_column. by rewrite H1.
Qed.

Lemma numbered_order_column d :
  order_column (set_column d ORDER_COL (fun i => Int (Z.of_nat i + 1)))
  = (fun k => Some (Int (Z.of_nat k))) <$> seq 1 (length (rows d)).
Proof.
  unfold order_column. apply list_eq. intros k.
  rewrite !list_lookup_fmap, set_column_lookup.
  destruct (rows d !! k) as [r|] eqn:Hk; simpl.
  - apply lookup_lt_Some in Hk.
    rewrite lookup_seq_lt by done. simpl. rewrite lookup_insert_eq.
    do 3 f_equal. lia.
  - apply lookup_ge_None in Hk. by rewrite lookup_seq_ge.
Qed.

Lemma order_column_lookup d i r c :
  order_column d !! i = Some (Some c) -> rows d !! i = Some r ->
  getitem r ORDER_COL = c.
Proof.
  unfold order_column, getitem. rewrite list_lookup_fmap. intros H Hr.
  rewrite Hr in H. simpl in H. injection H as ->. done.
Qed.

(** ** The commit of Save *)

Lemma flag_not_tag : MAIN_FLAG_COL ∉ TAG_COLS.
Proof. apply (bool_decide_unpack _). vm_compute. exact I. Qed.

Lemma notes_not_tag : NOTES_COL ∉ TAG_COLS.
Proof. apply (bool_decide_unpack _). vm_compute. exact I. Qed.

Lemma order_not_tag : ORDER_COL ∉ TAG_COLS.
Proof. apply (bool_decide_unpack _). vm_compute. exact I. Qed.

Lemma order_not_needed : ORDER_COL ∉ needed.
Proof. apply (bool_decide_unpack _). vm_compute. exact I. Qed.

Lemma flag_not_notes : MAIN_FLAG_COL <> NOTES_COL.
Proof. apply (bool_decide_unpack _). vm_compute. exact I. Qed.

Lemma order_not_flag : ORDER_COL <> MAIN_FLAG_COL.
Proof. apply (bool_decide_unpack _). vm_compute. exact I. Qed.

Lemma order_not_notes : ORDER_COL <> NOTES_COL.
Proof. apply (bool_decide_unpack _). vm_compute. exact I. Qed.

Lemma foldl_insert_lookup {V : Type} (g : str -> V) (l : list str)
    (m : gmap str V) (k : str) :
  foldl (fun m c => <[c := g c]> m) m l !! k
  = if bool_decide (k ∈ l) then Some (g k) else m !! k.
Proof.
  revert m. induction l as [|c l IH]; intros m; cbn [foldl].
  - by rewrite bool_decide_eq_false_2 by apply not_elem_of_nil.
  - rewrite IH. destruct (bool_decide_reflect (k ∈ l)) as [Hin | Hout].
    + rewrite bool_decide_eq_true_2; [done|]. by right.
    + destruct (decide (k = c)) as [-> | Hne].
      * rewrite lookup_insert_eq, bool_decide_eq_true_2; [done|]. by left.
      * rewrite lookup_insert_ne by done.
        rewrite bool_decide_eq_false_2; [done|].
        intros [? | ?]%elem_of_cons; done.
Qed.

Lemma rows_loc_put d pos c v :
  rows (loc_put d pos c v) = alter (insert c v) pos (rows d).
Proof. done. Qed.

Lemma rows_put_all d pos ws :
  rows (put_all d pos ws) = alter (put_row ws) pos (rows d).
Proof.
  revert d. induction ws as [|w ws IH]; intros d; simpl.
  - symmetry. by apply list_alter_id.
  - unfold put_all in *. simpl. rewrite IH, rows_loc_put, list_alter_alter_eq.
    done.
Qed.

Lemma put_row_other ws r c : c ∉ ws.*1 -> put_row ws r !! c = r !! c.
Proof.
  revert r. induction ws as [|[c' v] ws IH]; intros r Hc; [done|].
  unfold put_row in *. simpl in *. rewrite IH.
  - apply lookup_insert_ne. intros ->. apply Hc. by left.
  - intros H. apply Hc. by right.
Qed.

Lemma put_row_elem ws r c v :
  put_row ws r !! c = Some v -> r !! c = Some v \/ (c, v) ∈ ws.
Proof.
  revert r. induction ws as [|[c' v'] ws IH]; intros r H; [by left|].
  unfold put_row in *. simpl in *.
  destruct (IH _ H) as [Hl | Hin]; [|right; by right].
  destruct (decide (c = c')) as [-> | Hne].
  - rewrite lookup_insert_eq in Hl. injection Hl as ->. right. by left.
  - rewrite lookup_insert_ne in Hl by done. by left.
Qed.

Lemma put_row_app ws1 ws2 r :
  put_row (ws1 ++ ws2) r = put_row ws2 (put_row ws1 r).
Proof. unfold put_row. by rewrite foldl_app. Qed.

Lemma commit_row_puts b r : put_row (staged_values b) r = commit_row b r.
Proof.
  unfold staged_values, commit_row.
  change (put_row (?w :: ?l) r) with (put_row l (<[w.1 := w.2]> r)).
  rewrite put_row_app. cbn [fst snd]. unfold put_row at 1. cbn [foldl fst snd].
  f_equal.
Qed.

Lemma commit_rows d pos b :
  rows (committed d pos b) = alter (commit_row b) pos (rows d).
Proof.
  unfold committed. rewrite rows_put_all.
  apply list_alter_ext; [|done]. intros r _. apply commit_row_puts.
Qed.

Lemma staged_values_cols b : (staged_values b).*1 = label_cols.
Proof.
  unfold staged_values, label_cols. cbn [fmap list_fmap fst]. reflexivity.
Qed.

Lemma order_not_label : ORDER_COL ∉ label_cols.
Proof. apply (bool_decide_unpack _). vm_compute. exact I. Qed.

Lemma label_cols_elem c :
  c ∈ label_cols <-> c = MAIN_FLAG_COL \/ c ∈ TAG_COLS \/ c = NOTES_COL.
Proof.
  unfold label_cols. rewrite elem_of_cons, elem_of_app, elem_of_cons, elem_of_nil.
  tauto.
Qed.

(** What is left of a frame when assignments stop at the first that
    raises: the frame with the assignments made until then. *)
Lemma assign_all_frame d pos ws :
  exists ws', ws' `prefix_of` ws /\
    (assign_all d pos ws).1 = put_all d pos ws' /\
    ((assign_all d pos ws).2 = None -> ws' = ws).
Proof.
  revert d. induction ws as [|[c v] ws IH]; intros d; simpl.
  - exists []. by repeat split.
  - unfold loc_set. destruct (_ && _); simpl.
    + exists []. split; [apply prefix_nil|]. by split.
    + destruct (IH (loc_put d pos c v)) as (ws' & Hp & Hf & Hn).
      exists ((c, v) :: ws'). split; [by apply prefix_cons|].
      split; [done|]. intros H. f_equal. by apply Hn.
Qed.

Lemma assign_all_exn d pos ws e :
  (assign_all d pos ws).2 = Some e -> e = TypeError.
Proof.
  revert d. induction ws as [|[c v] ws IH]; intros d; simpl; [done|].
  unfold loc_set. destruct (_ && _); simpl; [by intros [= <-]|]. apply IH.
Qed.

Lemma commit_exn d pos b e : (commit d pos b).2 = Some e -> e = TypeError.
Proof. apply assign_all_exn. Qed.

Lemma commit_frame d pos b :
  exists ws, ws `prefix_of` staged_values b /\
    (commit d pos b).1 = put_all d pos ws /\
    ((commit d pos b).2 = None -> ws = staged_values b).
Proof. apply assign_all_frame. Qed.

Lemma prefix_label_cols ws b c :
  ws `prefix_of` staged_values b -> c ∈ ws.*1 -> c ∈ label_cols.
Proof.
  intros [k Hk] Hc. rewrite <- (staged_values_cols b), Hk, fmap_app.
  apply elem_of_app. by left.
Qed.

Lemma loc_put_columns_eq d pos c v :
  c ∈ columns d ->
  columns (loc_put d pos c v) = columns d /\
  dtypes (loc_put d pos c v) = dtypes d.
Proof.
  intros Hc. unfold loc_put, has_col; simpl.
  by rewrite bool_decide_eq_true_2.
Qed.

Lemma put_all_columns_eq d pos ws :
  (forall c, c ∈ ws.*1 -> c ∈ columns d) ->
  columns (put_all d pos ws) = columns d /\
  dtypes (put_all d pos ws) = dtypes d.
Proof.
  revert d. induction ws as [|[c v] ws IH]; intros d Hws; [done|].
  unfold put_all in *. simpl.
  destruct (loc_put_columns_eq d pos c v) as [E1 E2]; [apply Hws; by left|].
  destruct (IH (loc_put d pos c v)) as [E3 E4].
  - intros c' Hc'. rewrite E1. apply Hws. by right.
  - split; congruence.
Qed.

Lemma loc_put_columns d pos c v c' :
  c' ∈ columns d -> c' ∈ columns (loc_put d pos c v).
Proof.
  intros H. unfold loc_put, has_col; simpl. case_bool_decide; [done|].
  apply elem_of_app. by left.
Qed.

Lemma put_all_columns d pos ws c :
  c ∈ columns d -> c ∈ columns (put_all d pos ws).
Proof.
  revert d. induction ws as [|[c' v] ws IH]; intros d H; [done|].
  unfold put_all in *. simpl. by apply IH, loc_put_columns.
Qed.

(** An assignment that goes through. *)
Lemma loc_set_accepted d pos c v :
  accepts (dtype_of d c) v = true -> loc_set d pos c v = inr (loc_put d pos c v).
Proof. intros H. unfold loc_set. by rewrite H, andb_false_r. Qed.

Lemma assign_all_accepted d pos ws :
  (forall w, w ∈ ws -> w.1 ∈ columns d /\ accepts (dtype_of d w.1) w.2 = true) ->
  assign_all d pos ws = (put_all d pos ws, None).
Proof.
  revert d. induction ws as [|[c v] ws IH]; intros d Hws; [done|].
  destruct (Hws (c, v)) as [Hc Ha]; [by left|]. simpl in Hc, Ha.
  simpl. rewrite (loc_set_accepted d pos c v Ha).
  destruct (loc_put_columns_eq d pos c v Hc) as [E1 E2].
  unfold put_all. simpl. apply IH.
  intros w Hw. destruct (Hws w) as [Hc' Ha']; [by right|].
  unfold dtype_of in *. by rewrite E1, E2.
Qed.

Lemma accepts_text t u v : accepts t (Str u) = accepts t (Str v).
Proof. by destruct t. Qed.

Lemma accepts_int t x y : accepts t (Int x) = accepts t (Int y).
Proof. by destruct t. Qed.

(** On a frame whose labelling columns take the values of Save, Save runs
    to its end. *)
Lemma commit_writable d pos b :
  labelling_columns d -> writable d ->
  commit d pos b = (committed d pos b, None).
Proof.
  intros (_ & Hf & Hn & Ht) (Wf & Wn & Wt).
  apply assign_all_accepted. intros w Hw. unfold staged_values in Hw.
  apply elem_of_cons in Hw as [-> | Hw]; simpl.
  { split; [done|]. by rewrite (accepts_text _ _ []). }
  apply elem_of_app in Hw as [Hw | Hw].
  - apply list_elem_of_fmap in Hw as (c & -> & Hc). simpl.
    split; [by apply Ht|]. rewrite (accepts_int _ _ 0). by apply Wt.
  - apply elem_of_cons in Hw as [-> | Hw]; [|by apply elem_of_nil in Hw].
    simpl. split; [done|]. by rewrite (accepts_text _ _ []).
Qed.

Lemma commit_row_flag b r :
  commit_row b r !! MAIN_FLAG_COL
  = Some (Str (if default false (flag b) then lit "Y" else lit "N")).
Proof.
  unfold commit_row.
  rewrite lookup_insert_ne by (apply not_eq_sym, flag_not_notes).
  rewrite (foldl_insert_lookup
             (fun c => Int (if default false (tags b !! c) then 1 else 0))).
  rewrite bool_decide_eq_false_2 by apply flag_not_tag.
  apply lookup_insert_eq.
Qed.

Lemma commit_row_tag b r c :
  c ∈ TAG_COLS ->
  commit_row b r !! c
  = Some (Int (if default false (tags b !! c) then 1 else 0)).
Proof.
  intros Hc. unfold commit_row.
  rewrite lookup_insert_ne by (intros <-; by apply notes_not_tag).
  rewrite (foldl_insert_lookup
             (fun c => Int (if default false (tags b !! c) then 1 else 0))).
  by rewrite bool_decide_eq_true_2.
Qed.

Lemma commit_row_notes b r :
  commit_row b r !! NOTES_COL = Some (Str (notes b)).
Proof. unfold commit_row. apply lookup_insert_eq. Qed.

Lemma commit_row_other b r c :
  c <> MAIN_FLAG_COL -> c ∉ TAG_COLS -> c <> NOTES_COL ->
  commit_row b r !! c = r !! c.
Proof.
  intros Hf Ht Hn. unfold commit_row.
  rewrite lookup_insert_ne by done.
  rewrite (foldl_insert_lookup
             (fun c => Int (if default false (tags b !! c) then 1 else 0))).
  rewrite bool_decide_eq_false_2 by done.
  by rewrite lookup_insert_ne.
Qed.

Lemma put_all_column d pos ws c :
  c ∉ ws.*1 ->
  (fun r => r !! c) <$> rows (put_all d pos ws) = (fun r => r !! c) <$> rows d.
Proof.
  intros Hc. rewrite rows_put_all.
  apply list_eq. intros k. rewrite !list_lookup_fmap.
  destruct (decide (pos = k)) as [-> | Hne].
  - rewrite list_lookup_alter_eq. destruct (rows d !! k) as [r|]; simpl; [|done].
    f_equal. by apply put_row_other.
  - by rewrite list_lookup_alter_ne.
Qed.

Lemma commit_other_column d pos b c :
  c ∉ label_cols ->
  (fun r => r !! c) <$> rows (commit d pos b).1 = (fun r => r !! c) <$> rows d.
Proof.
  intros Hc. destruct (commit_frame d pos b) as (ws & Hp & -> & _).
  apply put_all_column. intros H. apply Hc. by apply (prefix_label_cols ws b).
Qed.

Lemma commit_order_column d pos b :
  order_column (commit d pos b).1 = order_column d.
Proof. apply commit_other_column, order_not_label. Qed.

Lemma edited_order_column d d' :
  edited d d' -> order_column d' = order_column d.
Proof.
  induction 1 as [|d' pos b _ IH]; [done|].
  by rewrite commit_order_column.
Qed.

Lemma stage_widgets_tags b i c :
  c ∈ TAG_COLS -> tags (stage_widgets b i) !! c = Some (checkbox i c).
Proof.
  intros Hc. unfold stage_widgets. cbn [tags].
  rewrite <- foldl_app. fold TAG_COLS.
  rewrite (foldl_insert_lookup (checkbox i)).
  by rewrite bool_decide_eq_true_2.
Qed.

(** The view is made of records of the frame, in the order of the frame. *)
Lemma select_rows_sublist (m : list bool) (l : list row) :
  sublist (select_rows m l) l.
Proof.
  revert l. induction m as [|b m IH]; intros [|r l]; simpl;
    try apply sublist_nil_l.
  destruct b; [by apply sublist_skip | by apply sublist_cons].
Qed.

Lemma build_view_sublist d mask f : sublist (build_view d mask f) (rows d).
Proof. destruct f; simpl; [apply select_rows_sublist | done]. Qed.

(** ** The loader *)

Lemma load_data_columns file d0 :
  load_input file = inr d0 ->
  load_data file
  = ensure_order
      (ensure_column NA
         (ensure_column NA
            (foldl (ensure_column (Int 0))
               (foldl (ensure_column NA) d0 needed) TAG_COLS)
            MAIN_FLAG_COL)
         NOTES_COL).
Proof. intros H. unfold load_data. by rewrite H. Qed.

Lemma run_order_column s es d :
  df s = Some d ->
  exists d', df (run s es) = Some d' /\ order_column d' = order_column d.
Proof.
  intros Hd. revert s d Hd. induction es as [|e es IH]; intros s d Hd.
  - by exists d.
  - simpl. destruct (step_loaded s e d Hd) as (_ & d1 & Hd1 & Hed).
    destruct (IH _ _ Hd1) as (d' & Hd' & Ho). exists d'. split; [done|].
    rewrite Ho. by apply edited_order_column.
Qed.

(** C5.  When the table pandas reads from the file has no order column, the
    load succeeds and gives a frame whose order column is 1, 2, ..., N down
    the rows; the rows are the rows of the table in their original order,
    with every cell of the columns that are kept (the columns that are not
    positional ones); the frame is in ascending order of its keys; the load
    branch stores it in the session; and from then on the order column of
    the frame of the session is the same after any executions of the script
    and changes of the filter, the view being at all times a selection of
    the records of the frame in the order of the frame. *)
Theorem loader_order (file : UploadedFile) (d0 : DataFrame) :
  load_input file = inr d0 ->
  ORDER_COL ∉ columns d0 ->
  exists d,
    load_data file = inr d /\
    order_column d
    = (fun k => Some (Int (Z.of_nat k))) <$> seq 1 (length (rows d0)) /\
    carried (fun c => is_unnamed c = false) d0 d /\
    (forall j k x y,
       (j <= k)%nat -> rows d !! j = Some x -> rows d !! k = Some y ->
       cell_leb (getitem x ORDER_COL) (getitem y ORDER_COL) = true) /\
    (forall s, df s = None ->
       load_branch s (Some file)
       = ({| df := Some d; view_idx := view_idx s;
             filter_unlabeled := filter_unlabeled s; staged := staged s |},
          [])) /\
    (forall s es, df s = Some d ->
       exists d', df (run s es) = Some d' /\
         order_column d' = order_column d /\
         forall mask f, sublist (build_view d' mask f) (rows d')).
Proof.
  intros Hload Hno.
  set (dD := ensure_column NA
               (ensure_column NA
                  (foldl (ensure_column (Int 0))
                     (foldl (ensure_column NA) d0 needed) TAG_COLS)
                  MAIN_FLAG_COL)
               NOTES_COL).
  assert (HnoD : ORDER_COL ∉ columns dD).
  { unfold dD. rewrite !ensure_column_columns, !ensure_columns_columns.
    pose proof order_not_tag. pose proof order_not_needed.
    pose proof order_not_flag. pose proof order_not_notes. tauto. }
  assert (HcD : carried (fun c => is_unnamed c = false) d0 dD).
  { unfold dD.
    eapply carried_trans; [apply ensure_columns_carried|].
    eapply carried_trans; [apply ensure_columns_carried|].
    eapply carried_trans; apply ensure_column_carried. }
  set (d1 := drop_unnamed dD (columns dD)).
  set (d := set_column d1 ORDER_COL (fun i => Int (Z.of_nat i + 1))).
  assert (Hc1 : carried (fun c => is_unnamed c = false) dD d1)
    by apply drop_unnamed_carried.
  assert (Hno1 : ORDER_COL ∉ columns d1).
  { intros H. by apply drop_unnamed_columns in H. }
  assert (Hc : carried (fun c => is_unnamed c = false) d0 d).
  { eapply carried_trans; [exact HcD|].
    eapply carried_trans; [exact Hc1|]. by apply set_column_carried. }
  assert (Hd : load_data file = inr d).
  { rewrite (load_data_columns file d0 Hload). fold dD.
    by rewrite (ensure_order_fresh dD HnoD). }
  assert (Hlen : length (rows d1) = length (rows d0)).
  { destruct HcD as [L1 _], Hc1 as [L2 _]. congruence. }
  assert (Hord : order_column d
            = (fun k => Some (Int (Z.of_nat k))) <$> seq 1 (length (rows d0))).
  { unfold d. by rewrite numbered_order_column, Hlen. }
  exists d. split; [done|]. split; [done|]. split; [done|].
  split; [|split].
  - intros j k x y Hjk Hx Hy.
    assert (Hkey : forall n r, rows d !! n = Some r ->
              getitem r ORDER_COL = Int (Z.of_nat (1 + n))).
    { intros n r Hr. apply (order_column_lookup d n). 2: done.
      rewrite Hord, list_lookup_fmap.
      apply lookup_lt_Some in Hr.
      destruct Hc as [L _]. rewrite L in Hr.
      by rewrite lookup_seq_lt. }
    rewrite (Hkey j x Hx), (Hkey k y Hy). simpl. apply Z.leb_le. lia.
  - intros s Hs. unfold load_branch. by rewrite Hs, Hd.
  - intros s es Hs. destruct (run_order_column s es d Hs) as (d' & Hd' & Ho).
    exists d'. split; [done|]. split; [done|].
    intros mask f. apply build_view_sublist.
Qed.

Lemma loader_order_witness :
  exists d,
    load_data sample_csv = inr d /\
    order_column d = [Some (Int 1); Some (Int 2); Some (Int 3)].
Proof.
  destruct (loader_order sample_csv sample_table) as (d & Hd & Ho & _).
  - reflexivity.
  - apply (bool_decide_unpack _). vm_compute. exact I.
  - exists d. split; [exact Hd | exact Ho].
Defined.

(** ** The labelling columns are in every frame of a session *)

Lemma named_columns :
  forallb (fun c => negb (is_unnamed c))
    (MAIN_FLAG_COL :: NOTES_COL :: TAG_COLS) = true.
Proof. vm_compute. reflexivity. Qed.

Lemma sort_values_columns d c d' :
  sort_values d c = inr d' -> columns d' = columns d.
Proof.
  unfold sort_values. destruct (negb (has_col d c)); [done|].
  destruct (_ && _); [done|]. by intros [= <-].
Qed.

Lemma ensure_order_columns d d' c :
  ensure_order d = inr d' ->
  c = ORDER_COL \/ (is_unnamed c = false /\ c ∈ columns d) ->
  c ∈ columns d'.
Proof.
  unfold ensure_order. intros Hs Hc.
  apply sort_values_columns in Hs. rewrite Hs. clear Hs.
  pose proof (drop_unnamed_carried (columns d) d) as (_ & Hkeep & _).
  destruct (has_col (drop_unnamed d (columns d)) ORDER_COL) eqn:Ho;
    cbn [negb].
  - destruct Hc as [-> | [Hu Hin]]; [|by apply Hkeep].
    by apply bool_decide_eq_true_1 in Ho.
  - apply set_column_columns.
    destruct Hc as [-> | [Hu Hin]]; [by right | left; by apply Hkeep].
Qed.

Lemma load_data_labelling file d :
  load_data file = inr d -> labelling_columns d.
Proof.
  unfold load_data, bind. destruct (load_input file) as [e | d0]; [done|].
  intros Hd.
  pose proof named_columns as Hn. rewrite forallb_forall in Hn.
  assert (Hkeep : forall c, c ∈ MAIN_FLAG_COL :: NOTES_COL :: TAG_COLS ->
                            c ∈ columns d).
  { intros c Hc. apply (ensure_order_columns _ _ c Hd). right. split.
    - apply negb_true_iff, Hn. by apply list_elem_of_In.
    - rewrite !ensure_column_columns, !ensure_columns_columns.
      apply elem_of_cons in Hc as [-> | Hc]; [tauto|].
      apply elem_of_cons in Hc as [-> | Hc]; tauto. }
  split; [|split; [|split]].
  - apply (ensure_order_columns _ _ _ Hd). by left.
  - apply Hkeep. by left.
  - apply Hkeep. right. by left.
  - intros c Hc. apply Hkeep. by do 2 right.
Qed.

Lemma commit_columns d pos b c :
  c ∈ columns d -> c ∈ columns (commit d pos b).1.
Proof.
  intros H. destruct (commit_frame d pos b) as (ws & _ & -> & _).
  by apply put_all_columns.
Qed.

Lemma commit_labelling d pos b :
  labelling_columns d -> labelling_columns (commit d pos b).1.
Proof.
  intros (Ho & Hf & Hn & Ht).
  repeat split; try by apply commit_columns.
  intros c Hc. apply commit_columns. by apply Ht.
Qed.

Lemma labelling_label_cols d c :
  labelling_columns d -> c ∈ label_cols -> c ∈ columns d.
Proof.
  intros (_ & Hf & Hn & Ht) Hc. apply label_cols_elem in Hc as [-> | [Hc | ->]];
    [done | by apply Ht | done].
Qed.

(** Save changes neither the columns nor their dtypes. *)
Lemma commit_columns_eq d pos b :
  labelling_columns d ->
  columns (commit d pos b).1 = columns d /\
  dtypes (commit d pos b).1 = dtypes d.
Proof.
  intros L. destruct (commit_frame d pos b) as (ws & Hp & -> & _).
  apply put_all_columns_eq. intros c Hc.
  apply (labelling_label_cols d c L). by apply (prefix_label_cols ws b).
Qed.

Lemma render_after_load s i file d :
  df s = None -> uploaded i = Some file -> load_data file = inr d ->
  render s i
  = render {| df := Some d; view_idx := view_idx s;
              filter_unlabeled := filter_unlabeled s; staged := staged s |} i.
Proof.
  intros Hs Hup Hd. unfold render at 1. unfold load_branch.
  rewrite Hup, Hs, Hd.
  unfold render. by rewrite (load_branch_loaded _ d).
Qed.

Lemma render_labelling s i :
  (forall d, df s = Some d -> labelling_columns d) ->
  forall d, df (session (render s i)) = Some d -> labelling_columns d.
Proof.
  intros Hinv d'.
  assert (Hloaded : forall s0 d0, df s0 = Some d0 -> labelling_columns d0 ->
            df (session (render s0 i)) = Some d' -> labelling_columns d').
  { intros s0 d0 H0 L0 H'.
    destruct (render_frame s0 i d0 H0) as [H | (pos & b & _ & _ & H)];
      rewrite H in H'; injection H' as <-; [done|].
    by apply commit_labelling. }
  destruct (df s) as [d|] eqn:Hs.
  - by apply (Hloaded s d Hs), Hinv.
  - destruct (uploaded i) as [file|] eqn:Hup.
    + destruct (load_data file) as [e | d] eqn:Hd.
      * unfold render, load_branch. rewrite Hup, Hs, Hd. simpl.
        rewrite Hs. simpl. congruence.
      * rewrite (render_after_load s i file d Hs Hup Hd).
        apply (Hloaded _ d); [done|]. by apply load_data_labelling with file.
    + unfold render, load_branch. rewrite Hup, Hs. simpl. congruence.
Qed.

Lemma reachable_labelling s d :
  reachable s -> df s = Some d -> labelling_columns d.
Proof.
  intros [es ->]. revert d.
  induction es as [|e es IH] using rev_ind; [done|].
  unfold run in *. rewrite foldl_app. simpl.
  destruct e as [i | b]; simpl; [by apply render_labelling | done].
Qed.

(** ** The record on display and the record Save writes *)

Lemma cell_eqb_eq a b : cell_eqb a b = true -> a = b.
Proof.
  destruct a as [| x | x], b as [| y | y]; simpl; try done.
  - intros H. apply Z.eqb_eq in H. by subst.
  - intros H. apply bool_decide_eq_true_1 in H. by subst.
Qed.

Lemma first_index_lookup (p : row -> bool) (l : list row) (k : nat) :
  first_index p l = Some k -> exists r, l !! k = Some r /\ p r = true.
Proof.
  revert k. induction l as [|x l IH]; intros k; simpl; [done|].
  destruct (p x) eqn:Hp.
  - intros [= <-]. by exists x.
  - destruct (first_index p l) as [j|]; simpl; [|done].
    intros [= <-]. by apply IH.
Qed.

Lemma real_position_lookup d key pos :
  real_position d key = inr pos ->
  exists r, rows d !! pos = Some r /\ getitem r ORDER_COL = key.
Proof.
  unfold real_position.
  destruct (first_index _ _) as [k|] eqn:Hk; [|done].
  intros [= <-]. apply first_index_lookup in Hk as (r & Hr & Hp).
  exists r. split; [done|]. by apply cell_eqb_eq.
Qed.

Lemma iloc_elem view idx r : iloc view idx = inr r -> r ∈ view.
Proof.
  unfold iloc. destruct (_ <? 0); [done|].
  destruct (view !! _) as [x|] eqn:Hx; [|done].
  intros [= <-]. by apply list_elem_of_lookup_2 in Hx.
Qed.

Lemma iloc_lookup view idx r :
  0 <= idx -> iloc view idx = inr r -> view !! Z.to_nat idx = Some r.
Proof.
  intros H0. unfold iloc.
  destruct (Z.ltb_spec idx 0); [lia|].
  destruct (Z.ltb_spec idx 0); [lia|].
  destruct (view !! _) as [x|] eqn:Hx; [|done]. by intros [= <-].
Qed.

Lemma select_rows_elem (m : list bool) (l : list row) (r : row) :
  r ∈ select_rows m l -> exists p, l !! p = Some r /\ m !! p = Some true.
Proof.
  revert l. induction m as [|b m IH]; intros [|x l]; simpl;
    try (by intros H%elem_of_nil).
  destruct b.
  - intros [-> | H]%elem_of_cons.
    + by exists 0%nat.
    + destruct (IH l H) as (p & Hp & Hm). by exists (S p).
  - intros H. destruct (IH l H) as (p & Hp & Hm). by exists (S p).
Qed.

Lemma getitem_int_lookup (r : row) c z :
  getitem r c = Int z -> r !! c = Some (Int z).
Proof. unfold getitem. destruct (r !! c); simpl; congruence. Qed.

(** With pairwise distinct order keys, the record Save writes is the record
    on display. *)
Lemma real_position_key d key pos : real_position d key = inr pos -> key <> NA.
Proof.
  unfold real_position.
  destruct (first_index _ _) as [k|] eqn:Hk; [|done].
  intros _ ->. apply first_index_lookup in Hk as (r & _ & Hp).
  by destruct (getitem r ORDER_COL).
Qed.

Lemma getitem_lookup (r : row) c v :
  getitem r c = v -> v <> NA -> r !! c = Some v.
Proof. unfold getitem. destruct (r !! c); simpl; congruence. Qed.

Lemma real_position_displayed d r pos p :
  NoDup (order_column d) ->
  rows d !! p = Some r ->
  real_position d (getitem r ORDER_COL) = inr pos ->
  pos = p.
Proof.
  intros Hnd Hp Hpos.
  pose proof (real_position_key _ _ _ Hpos) as Hna.
  apply real_position_lookup in Hpos as (r' & Hr' & Ho').
  apply getitem_lookup in Ho'; [|done].
  pose proof (getitem_lookup r ORDER_COL _ eq_refl Hna) as Ho.
  apply (NoDup_lookup _ _ _ (Some (getitem r ORDER_COL)) Hnd);
    unfold order_column; rewrite list_lookup_fmap.
  - by rewrite Hr', <- Ho'.
  - by rewrite Hp, <- Ho.
Qed.

Lemma writable_check d :
  accepts (dtype_of d MAIN_FLAG_COL) (Str [])
  && accepts (dtype_of d NOTES_COL) (Str [])
  && forallb (fun c => accepts (dtype_of d c) (Int 0)) TAG_COLS = true ->
  writable d.
Proof.
  intros H. apply andb_true_iff in H as [H Ht].
  apply andb_true_iff in H as [Hf Hn].
  split; [done|]. split; [done|]. intros c Hc.
  rewrite forallb_forall in Ht. apply Ht. by apply list_elem_of_In.
Qed.

Lemma alter_insert {A : Type} (f : A -> A) (l : list A) (k : nat) (x : A) :
  l !! k = Some x -> alter f k l = <[k := f x]> l.
Proof.
  intros Hk. apply list_eq. intros j.
  destruct (decide (k = j)) as [<- | Hne].
  - rewrite list_lookup_alter_eq, Hk. simpl.
    rewrite list_lookup_insert_eq; [done|]. by apply lookup_lt_Some in Hk.
  - by rewrite list_lookup_alter_ne, list_lookup_insert_ne.
Qed.

(** ** Save *)

Lemma displayed_in_frame d mask f idx r :
  iloc (build_view d mask f) idx = inr r -> exists p, rows d !! p = Some r.
Proof.
  intros H. apply iloc_elem in H.
  apply list_elem_of_lookup_1.
  by apply (elem_of_sublist _ _ _ H), build_view_sublist.
Qed.

(** C1, as amended.  While the radio is on [(select)] the Save button is
    disabled: an execution in which it is clicked is the execution in which
    nothing is clicked, and the frame is left as it is.  With Y or N chosen,
    and provided the order keys of the frame are pairwise distinct and the
    columns Save assigns take its values (the flag and notes columns hold
    texts, the tag columns integers), a click on Save writes the record on
    display and no other: its flag becomes the text Y or N, each of the ten
    tag columns 1 or 0 as its check box is ticked or not, its notes the text
    of the notes widget, its other cells stay; the cursor becomes
    [min(len(view) - 1, idx + 1)], the staged buffer is dropped, and the
    script is run again. *)
Theorem save_commits (s : Session) (i : Inputs) (d : DataFrame)
    (mask : list bool) (r : row) (pos : nat) (b : Staged) :
  reachable s ->
  df s = Some d ->
  unlabeled_mask d = inr mask ->
  build_view d mask (filter_unlabeled s) <> [] ->
  let view := build_view d mask (filter_unlabeled s) in
  let idx := checked_idx (len view) (view_idx s) in
  select_record d view idx (staged s) = inr (r, pos, b) ->
  NoDup (order_column d) ->
  writable d ->
  clicked i = Some Save ->
  (cs_choice i = opt_select ->
     render s i = render s (with_click None i) /\
     df (session (render s i)) = Some d /\
     st_button Save true ∈ page (render s i)) /\
  (cs_choice i <> opt_select ->
     iloc view idx = inr r /\
     rows d !! pos = Some r /\
     exists d' r',
       session (render s i)
       = {| df := Some d'; view_idx := Z.min (len view - 1) (idx + 1);
            filter_unlabeled := filter_unlabeled s; staged := None |} /\
       ending (render s i) = Rerun /\
       rows d' = <[pos := r']> (rows d) /\
       r' !! MAIN_FLAG_COL
       = Some (Str (match cs_choice i with
                    | opt_Y => lit "Y"
                    | _ => lit "N"
                    end)) /\
       (forall c, c ∈ TAG_COLS ->
          r' !! c = Some (Int (if checkbox i c then 1 else 0))) /\
       r' !! NOTES_COL = Some (Str (notes_new i)) /\
       (forall c, c <> MAIN_FLAG_COL -> c ∉ TAG_COLS -> c <> NOTES_COL ->
          r' !! c = r !! c)) /\
  (0 <= view_idx s < len view -> idx = view_idx s).
Proof.
  intros Hreach Hd Hm Hv view idx Hsel Hnd Hw Hc.
  pose proof (reachable_labelling s d Hreach Hd) as L.
  pose proof (render_at_record s i d mask r pos b Hd Hm Hv Hsel) as Hr.
  fold view in Hr. fold idx in Hr.
  split; [|split].
  - intros Hsel0.
    pose proof (render_at_record s (with_click None i) d mask r pos b
                  Hd Hm Hv Hsel) as Hr0.
    fold view in Hr0. fold idx in Hr0.
    assert (Hact : render s i = render s (with_click None i)).
    { rewrite Hr, Hr0. unfold actions. rewrite Hc.
      cbn [clicked with_click cs_choice flag stage_widgets].
      rewrite Hsel0. reflexivity. }
    split; [exact Hact|].
    rewrite Hr. unfold actions. rewrite Hc.
    cbn [flag stage_widgets]. rewrite Hsel0. cbn [flag_of_choice].
    rewrite bool_decide_eq_true_2 by done.
    cbn [is_save negb andb session page df moved].
    split; [reflexivity|].
    rewrite !elem_of_app, !elem_of_cons. tauto.
  - intros Hsel1.
    destruct (select_record_inv _ _ _ _ _ _ _ Hsel) as (o & Hil & Ho & Hp & Hb).
    destruct (displayed_in_frame d mask _ idx r Hil) as (p & Hpr).
    pose proof (real_position_displayed d r pos p Hnd Hpr Hp) as ->.
    split; [done|]. split; [done|].
    exists (committed d p (stage_widgets b i)),
      (commit_row (stage_widgets b i) r).
    rewrite Hr. unfold actions. rewrite Hc.
    assert (Hf : bool_decide (flag (stage_widgets b i) = None) = false).
    { cbn [flag stage_widgets]. by destruct (cs_choice i). }
    rewrite Hf, (commit_writable d p _ L Hw).
    cbn [is_save negb andb session ending moved].
    split; [done|]. split; [done|].
    split; [rewrite commit_rows; by apply alter_insert|].
    split; [|split; [|split]].
    + rewrite commit_row_flag. cbn [flag stage_widgets].
      by destruct (cs_choice i).
    + intros c Hct. rewrite (commit_row_tag _ _ _ Hct).
      by rewrite (stage_widgets_tags _ _ _ Hct).
    + by rewrite commit_row_notes.
    + intros c H1 H2 H3. by apply commit_row_other.
  - intros [H0 Hn]. unfold idx, checked_idx.
    destruct (Z.leb_spec (len view) (view_idx s)); [lia | done].
Qed.

Lemma save_commits_witness :
  exists d' r',
    session (render sample_session (save_as opt_Y))
    = {| df := Some d'; view_idx := 1;
         filter_unlabeled := filter_unlabeled sample_session;
         staged := None |} /\
    rows d' = <[0%nat := r']> (rows (the_frame sample_session)) /\
    r' !! MAIN_FLAG_COL = Some (Str (lit "Y")) /\
    r' !! lit "supply_chain_Epiwafer" = Some (Int 1) /\
    r' !! lit "supply_chain_Package" = Some (Int 0) /\
    r' !! NOTES_COL = Some (Str (lit "ok")).
Proof.
  destruct (save_commits sample_session (save_as opt_Y)
              (the_frame sample_session) [true; true; true]
              sample_row 0%nat sample_staged)
    as (_ & H & _).
  - exists [Interact (with_upload (Some sample_csv) idle)].
    unfold sample_session. reflexivity.
  - apply the_frame_loaded. vm_compute. reflexivity.
  - vm_compute. reflexivity.
  - apply nonempty_length. vm_compute. reflexivity.
  - exact sample_on_display.
  - apply (bool_decide_unpack _). vm_compute. exact I.
  - apply writable_check. vm_compute. reflexivity.
  - reflexivity.
  - destruct H as (_ & _ & d' & r' & Hs & _ & Hrows & Hf & Ht & Hn & _);
      [discriminate|].
    exists d', r'. split; [exact Hs|]. split; [exact Hrows|].
    split; [exact Hf|]. split; [|split; [|exact Hn]].
    + apply (Ht (lit "supply_chain_Epiwafer")).
      apply (bool_decide_unpack _). vm_compute. exact I.
    + apply (Ht (lit "supply_chain_Package")).
      apply (bool_decide_unpack _). vm_compute. exact I.
Defined.

(** C1, as stated, fails when two records carry the same order key.  In
    the session reached by uploading the keyed file and saving its first
    record, the record on display is Borealis, the second record of the
    frame, and Save writes position 0: after Save with N the record of
    Borealis is what it was, its flag still unset, and the record of Acme
    has changed, its flag from Y to N. *)
Lemma save_writes_another_record :
  reachable keyed_session /\
  labels (the_frame keyed_session)
  = [(Str (lit "Acme"), Str (lit "Y")); (Str (lit "Borealis"), NA)] /\
  (NoDup (order_column (the_frame keyed_session)) -> False) /\
  fst <$> on_display keyed_session = rows (the_frame keyed_session) !! 1%nat /\
  snd <$> on_display keyed_session = Some 0%nat /\
  cs_choice (save_as opt_N) = opt_N /\
  clicked (save_as opt_N) = Some Save /\
  ending (render keyed_session (save_as opt_N)) = Rerun /\
  rows (the_frame (session (render keyed_session (save_as opt_N)))) !! 1%nat
  = rows (the_frame keyed_session) !! 1%nat /\
  rows (the_frame (session (render keyed_session (save_as opt_N)))) !! 0%nat
  <> rows (the_frame keyed_session) !! 0%nat /\
  labels (the_frame (session (render keyed_session (save_as opt_N))))
  = [(Str (lit "Acme"), Str (lit "N")); (Str (lit "Borealis"), NA)].
Proof.
  split.
  { exists [Interact (with_upload (Some keyed_csv) idle);
            Interact (widgets opt_Y [] [] (Some Save) false)].
    unfold keyed_session. reflexivity. }
  split; [by_evaluation|].
  split; [apply (bool_decide_unpack _); vm_compute; exact I|].
  split; [by_evaluation|].
  split; [by_evaluation|].
  split; [reflexivity|].
  split; [reflexivity|].
  split; [vm_compute; reflexivity|].
  split; [by_evaluation|].
  split; [apply (bool_decide_unpack _); vm_compute; exact I|].
  by_evaluation.
Qed.

(** ** The count of records left to label *)

Lemma filter_all {A : Type} (P : A -> Prop) `{!forall x, Decision (P x)}
    (l : list A) :
  (forall x, x ∈ l -> P x) -> filter P l = l.
Proof.
  induction l as [|x l IH]; intros Hall; [done|].
  rewrite filter_cons_True by (apply Hall; by left).
  f_equal. apply IH. intros y Hy. apply Hall. by right.
Qed.

Lemma labelling_tag_columns d :
  labelling_columns d -> filter (fun c => c ∈ columns d) TAG_COLS = TAG_COLS.
Proof. intros (_ & _ & _ & Ht). by apply filter_all. Qed.

Lemma unlabeled_mask_labelling d :
  labelling_columns d ->
  unlabeled_mask d = traverse (unlabeled (int64_tags d) TAG_COLS) (rows d).
Proof.
  intros L. unfold unlabeled_mask, int64_tags.
  rewrite (labelling_tag_columns d L).
  destruct L as (_ & Hf & _). unfold has_col.
  rewrite (bool_decide_eq_true_2 _ Hf). unfold bind.
  by destruct (traverse _ _).
Qed.

Lemma traverse_alter {A B : Type} (f : A -> Exc B) (g : A -> A) (l : list A)
    (m : list B) (k : nat) (a : A) (v : B) :
  traverse f l = inr m -> l !! k = Some a -> f (g a) = inr v ->
  traverse f (alter g k l) = inr (<[k := v]> m).
Proof.
  revert m k. induction l as [|x l IH]; intros m k; simpl; [done|].
  unfold bind. destruct (f x) as [e | y] eqn:Hx; [done|].
  destruct (traverse f l) as [e | ys] eqn:Hl; [done|].
  intros [= <-]. destruct k as [|k]; simpl.
  - intros [= ->] Hv. by rewrite Hv, Hl.
  - intros Hk Hv. rewrite Hx.
    pose proof (IH ys k eq_refl Hk Hv) as E. unfold alter in E.
    by rewrite E.
Qed.

Lemma tag_sum_ints (cols : list str) (r : row) :
  (forall c, c ∈ cols -> exists z, getitem r c = Int z) ->
  exists t, tag_sum cols r = inr t.
Proof.
  induction cols as [|c cols IH]; intros H; simpl; [by exists 0|].
  destruct (H c) as [z Hz]; [by left|]. rewrite Hz. simpl.
  destruct IH as [t Ht]; [intros c' Hc'; apply H; by right|].
  rewrite Ht. simpl. by eexists.
Qed.

(** A record Save has written is not unlabeled any more: its flag is set. *)
Lemma unlabeled_commit_row w b r :
  unlabeled w TAG_COLS (commit_row b r) = inr false.
Proof.
  unfold unlabeled, row_sum.
  destruct (tag_sum_ints TAG_COLS (commit_row b r)) as [t Ht].
  { intros c Hc. unfold getitem. rewrite (commit_row_tag b r c Hc).
    by eexists. }
  rewrite Ht. simpl. unfold getitem. rewrite commit_row_flag. simpl.
  by rewrite andb_false_r.
Qed.

Lemma count_true_insert_false (m : list bool) (k : nat) :
  m !! k = Some true -> count_true (<[k := false]> m) = count_true m - 1.
Proof.
  unfold count_true. revert k. induction m as [|x m IH]; intros k; [done|].
  destruct k as [|k]; simpl.
  - intros [= ->]. rewrite filter_cons_False by done.
    rewrite filter_cons_True by done. simpl. lia.
  - intros Hk. specialize (IH k Hk). destruct x.
    + rewrite !filter_cons_True by done. simpl length. lia.
    + rewrite !filter_cons_False by done. done.
Qed.

Lemma committed_columns_eq d pos b :
  labelling_columns d ->
  columns (committed d pos b) = columns d /\
  dtypes (committed d pos b) = dtypes d.
Proof.
  intros L. apply put_all_columns_eq. intros c Hc.
  apply (labelling_label_cols d c L). by rewrite <- (staged_values_cols b).
Qed.

Lemma committed_labelling d pos b :
  labelling_columns d -> labelling_columns (committed d pos b).
Proof.
  intros L. destruct (committed_columns_eq d pos b L) as [E _].
  unfold labelling_columns. by rewrite E.
Qed.

Lemma int64_tags_eq d d' :
  columns d' = columns d -> dtypes d' = dtypes d ->
  int64_tags d' = int64_tags d.
Proof. intros E1 E2. unfold int64_tags, dtype_of. by rewrite E1, E2. Qed.

Lemma unlabeled_mask_commit d mask pos b :
  labelling_columns d ->
  unlabeled_mask d = inr mask ->
  (pos < length (rows d))%nat ->
  unlabeled_mask (committed d pos b) = inr (<[pos := false]> mask).
Proof.
  intros L Hm Hpos.
  rewrite (unlabeled_mask_labelling _ (committed_labelling d pos b L)).
  rewrite (unlabeled_mask_labelling _ L) in Hm.
  destruct (committed_columns_eq d pos b L) as [E1 E2].
  rewrite (int64_tags_eq _ _ E1 E2).
  rewrite commit_rows.
  destruct (lookup_lt_is_Some_2 _ _ Hpos) as [r Hr].
  apply (traverse_alter _ _ _ _ _ r); [done | done |].
  apply unlabeled_commit_row.
Qed.

Lemma tag_sum_binary (cols : list str) (r : row) :
  (forall c, c ∈ cols -> getitem r c = Int 0 \/ getitem r c = Int 1) ->
  exists t, tag_sum cols r = inr t /\ 0 <= t /\
            (t = 0 <-> forall c, c ∈ cols -> getitem r c = Int 0).
Proof.
  induction cols as [|c cols IH]; intros H; simpl.
  - exists 0. split; [done|]. split; [done|]. split; [|done].
    intros _ c Hc. by apply elem_of_nil in Hc.
  - destruct IH as (t & Ht & Hpos & Hiff); [intros c' Hc'; apply H; by right|].
    rewrite Ht. destruct (H c) as [Hc | Hc]; [by left | |]; rewrite Hc; simpl.
    + exists (0 + t). split; [done|]. split; [lia|]. split.
      * intros Hz c' [-> | Hc']%elem_of_cons; [done|].
        apply Hiff; [lia | done].
      * intros Hall. assert (t = 0); [|lia].
        apply Hiff. intros c' Hc'. apply Hall. by right.
    + exists (1 + t). split; [done|]. split; [lia|]. split; [lia|].
      intros Hall. specialize (Hall c ltac:(by left)). congruence.
Qed.

Lemma wrap64_small z : - 2 ^ 63 <= z < 2 ^ 63 -> wrap64 z = z.
Proof.
  intros H. unfold wrap64. rewrite Z.mod_small; lia.
Qed.

Lemma tag_sum_bound (cols : list str) (r : row) t :
  (forall c, c ∈ cols -> getitem r c = Int 0 \/ getitem r c = Int 1) ->
  tag_sum cols r = inr t -> 0 <= t <= Z.of_nat (length cols).
Proof.
  revert t. induction cols as [|c cols IH]; intros t H; simpl.
  - intros [= <-]. lia.
  - unfold bind.
    destruct (H c) as [Hc | Hc]; [by left | |]; rewrite Hc; simpl;
      destruct (tag_sum cols r) as [e | t'] eqn:Ht; try done;
      intros [= <-];
      (assert (0 <= t' <= Z.of_nat (length cols))
         by (apply IH; [intros c' Hc'; apply H; by right | done])); lia.
Qed.

(** C3, as amended.  In an execution of a reachable session that gets to
    the buttons, [remaining] is the number drawn by the metric.  A click on
    Save with Y or N chosen, on a frame whose columns take the values Save
    assigns, runs to its end; when the record it writes was unlabeled, it
    leaves a frame whose count of unlabeled records is [remaining - 1].  The
    record Save writes is the first one that carries the order key of the
    record on display: with pairwise distinct order keys it is the record on
    display, which on the filtered view is unlabeled.  A click on Skip
    leaves the frame, hence the count, as it is.  For a record whose tag
    cells are all 0 or 1, being counted is having the flag unset and every
    tag 0. *)
Theorem remaining_after_save_and_skip (s : Session) (i : Inputs)
    (d : DataFrame) (mask : list bool) (r : row) (pos : nat) (b : Staged) :
  reachable s ->
  df s = Some d ->
  unlabeled_mask d = inr mask ->
  build_view d mask (filter_unlabeled s) <> [] ->
  let view := build_view d mask (filter_unlabeled s) in
  let idx := checked_idx (len view) (view_idx s) in
  select_record d view idx (staged s) = inr (r, pos, b) ->
  st_metric (count_true mask) ∈ page (render s i) /\
  (clicked i = Some Save -> cs_choice i <> opt_select ->
   writable d ->
   ending (render s i) = Rerun /\
   (mask !! pos = Some true ->
    exists d' mask',
      df (session (render s i)) = Some d' /\
      unlabeled_mask d' = inr mask' /\
      count_true mask' = count_true mask - 1)) /\
  (clicked i = Some Skip ->
   df (session (render s i)) = Some d /\ ending (render s i) = Rerun) /\
  (NoDup (order_column d) ->
   rows d !! pos = Some r /\
   (filter_unlabeled s = true -> mask !! pos = Some true)) /\
  (forall p x,
     rows d !! p = Some x ->
     (forall c, c ∈ TAG_COLS -> getitem x c = Int 0 \/ getitem x c = Int 1) ->
     (mask !! p = Some true <->
      getitem x MAIN_FLAG_COL = NA /\
      forall c, c ∈ TAG_COLS -> getitem x c = Int 0)).
Proof.
  intros Hreach Hd Hm Hv view idx Hsel.
  pose proof (reachable_labelling s d Hreach Hd) as L.
  pose proof (render_at_record s i d mask r pos b Hd Hm Hv Hsel) as Hr.
  fold view in Hr. fold idx in Hr.
  destruct (select_record_inv _ _ _ _ _ _ _ Hsel) as (o & Hil & Ho & Hp & Hb).
  split; [|split; [|split; [|split]]].
  - rewrite Hr. unfold actions.
    destruct (clicked i) as [[| |]|]; cbn [page];
      try destruct (_ && _); try destruct (commit _ _ _) as [d' [e|]];
      cbn [page]; rewrite ?elem_of_app, ?elem_of_cons; tauto.
  - intros Hc Hsel1 Hw.
    rewrite Hr. unfold actions. rewrite Hc.
    assert (Hf : bool_decide (flag (stage_widgets b i) = None) = false).
    { cbn [flag stage_widgets]. by destruct (cs_choice i). }
    rewrite Hf, (commit_writable d pos _ L Hw).
    cbn [is_save negb andb session ending moved df].
    split; [done|]. intros Hpos.
    exists (committed d pos (stage_widgets b i)), (<[pos := false]> mask).
    split; [done|]. split.
    + apply unlabeled_mask_commit; [done | done |].
      apply real_position_lookup in Hp as (r' & Hr' & _).
      by apply lookup_lt_Some in Hr'.
    + by apply count_true_insert_false.
  - intros Hc. rewrite Hr. unfold actions. rewrite Hc. done.
  - intros Hnd.
    destruct (displayed_in_frame d mask _ idx r Hil) as (p0 & Hp0).
    pose proof (real_position_displayed d r pos p0 Hnd Hp0 Hp) as ->.
    split; [done|].
    intros Hf. unfold view in Hil. rewrite Hf in Hil. simpl in Hil.
    apply iloc_elem in Hil.
    apply select_rows_elem in Hil as (p & Hpr & Hpm).
    by rewrite (real_position_displayed d r p0 p Hnd Hpr Hp).
  - intros p x Hx Hbin.
    rewrite (unlabeled_mask_labelling d L) in Hm.
    destruct (traverse_lookup _ _ _ p x Hm Hx) as (v & Hv' & Hmp).
    rewrite Hmp. unfold unlabeled, row_sum in Hv'.
    destruct (tag_sum_binary TAG_COLS x Hbin) as (t & Ht & _ & Hiff).
    pose proof (tag_sum_bound TAG_COLS x t Hbin Ht) as Hbound.
    rewrite Ht in Hv'. simpl in Hv'.
    assert (Hwrap : (if int64_tags d then wrap64 t else t) = t).
    { destruct (int64_tags d); [|done]. apply wrap64_small.
      change (Z.of_nat (length TAG_COLS)) with 10 in Hbound. lia. }
    rewrite Hwrap in Hv'. injection Hv' as <-.
    split.
    + intros [= Hb']. apply andb_true_iff in Hb' as [Hz Hna].
      apply Z.eqb_eq in Hz. split; [|by apply Hiff].
      by destruct (getitem x MAIN_FLAG_COL).
    + intros [Hna Hall]. f_equal. apply andb_true_iff. split.
      * apply Z.eqb_eq. by apply Hiff.
      * by rewrite Hna.
Qed.

Lemma remaining_after_save_and_skip_witness :
  (exists d' mask',
     df (session (render sample_session (save_as opt_Y))) = Some d' /\
     ending (render sample_session (save_as opt_Y)) = Rerun /\
     unlabeled_mask d' = inr mask' /\
     count_true mask' = 3 - 1) /\
  df (session (render sample_session (with_click (Some Skip) (save_as opt_Y))))
  = Some (the_frame sample_session).
Proof.
  assert (Hreach : reachable sample_session).
  { exists [Interact (with_upload (Some sample_csv) idle)].
    unfold sample_session. reflexivity. }
  assert (Hd : df sample_session = Some (the_frame sample_session)).
  { apply the_frame_loaded. vm_compute. reflexivity. }
  assert (Hm : unlabeled_mask (the_frame sample_session)
               = inr [true; true; true]).
  { vm_compute. reflexivity. }
  assert (Hv : build_view (the_frame sample_session) [true; true; true]
                 (filter_unlabeled sample_session) <> []).
  { apply nonempty_length. vm_compute. reflexivity. }
  split.
  - destruct (remaining_after_save_and_skip sample_session (save_as opt_Y)
                (the_frame sample_session) [true; true; true]
                sample_row 0%nat sample_staged
                Hreach Hd Hm Hv sample_on_display) as (_ & H & _).
    destruct H as [Hrerun Hcount];
      [reflexivity | discriminate
       | apply writable_check; vm_compute; reflexivity |].
    destruct (Hcount eq_refl) as (d' & mask' & H1 & H2 & H3).
    exists d', mask'.
    split; [exact H1 | split; [exact Hrerun | split; [exact H2 | exact H3]]].
  - destruct (remaining_after_save_and_skip sample_session
                (with_click (Some Skip) (save_as opt_Y))
                (the_frame sample_session) [true; true; true]
                sample_row 0%nat sample_staged
                Hreach Hd Hm Hv sample_on_display) as (_ & _ & H & _).
    apply H. reflexivity.
Defined.

(** C3, as stated, fails when two records carry the same order key.  In
    the session reached by uploading the keyed file and saving its first
    record, one record is left to label, Borealis, and it is the record on
    display.  Save with N runs to its end and writes the record of Acme:
    Borealis is still unlabeled and [remaining] is 1 as before. *)
Lemma save_keeps_remaining :
  reachable keyed_session /\
  unlabeled_mask (the_frame keyed_session) = inr [false; true] /\
  count_true [false; true] = 1 /\
  fst <$> on_display keyed_session = rows (the_frame keyed_session) !! 1%nat /\
  clicked (save_as opt_N) = Some Save /\
  cs_choice (save_as opt_N) = opt_N /\
  ending (render keyed_session (save_as opt_N)) = Rerun /\
  unlabeled_mask (the_frame (session (render keyed_session (save_as opt_N))))
  = inr [false; true].
Proof.
  split.
  { exists [Interact (with_upload (Some keyed_csv) idle);
            Interact (widgets opt_Y [] [] (Some Save) false)].
    unfold keyed_session. reflexivity. }
  split; [by_evaluation|].
  split; [reflexivity|].
  split; [by_evaluation|].
  split; [reflexivity|].
  split; [reflexivity|].
  split; [vm_compute; reflexivity|].
  by_evaluation.
Qed.

(** * Further properties of the script *)

(** ** The fields shown *)

Lemma strip_visible (s : str) (c : N) :
  c ∈ s -> isspace c = false -> strip s <> [].
Proof.
  intros Hc Hsp Hnil.
  destruct (strip_split s) as (a & b & Hs & Ha & Hb).
  rewrite Hnil in Hs. simpl in Hs. subst s.
  rewrite forallb_forall in Ha, Hb.
  apply elem_of_app in Hc as [Hc | Hc]; apply list_elem_of_In in Hc.
  - rewrite (Ha c Hc) in Hsp. done.
  - rewrite (Hb c Hc) in Hsp. done.
Qed.

Lemma decimal_visible (z : Z) :
  strip (lit (NilZero.string_of_int (Z.to_int z))) <> [].
Proof.
  assert (H : exists c t, lit (NilZero.string_of_int (Z.to_int z)) = c :: t
                          /\ isspace c = false).
  { destruct (Z.to_int z) as [u | u]; [|by eexists _, _].
    destruct u; by eexists _, _. }
  destruct H as (c & t & Heq & Hc). rewrite Heq.
  apply (strip_visible _ c); [by left | done].
Qed.

Lemma placeholder_visible : strip PLACEHOLDER = PLACEHOLDER.
Proof. reflexivity. Qed.

Lemma get_or_blank_visible (r : row) (col : str) :
  strip (get_or_blank r col) <> [].
Proof.
  unfold get_or_blank, getitem.
  destruct (r !! col) as [[| z | t]|]; simpl;
    try (rewrite ?andb_false_r; by rewrite placeholder_visible).
  - rewrite (bool_decide_eq_false_2 _ (decimal_visible z)). simpl.
    apply decimal_visible.
  - case_bool_decide; simpl; [by rewrite placeholder_visible | done].
Qed.



Lemma has_scheme_prefixed (u : str) : has_scheme (lit "https://" ++ u) = true.
Proof.
  unfold has_scheme, lower. rewrite fmap_app.
  generalize (lower_char <$> u) as v. intros v. by destruct v.
Qed.

Lemma trimmed_prefixed (u : str) : trimmed u -> trimmed (lit "https://" ++ u).
Proof.
  intros [_ Hl]. split.
  - intros c [= <-]. reflexivity.
  - intros c. rewrite last_app. destruct (last u) as [x|] eqn:Hu.
    + intros [= <-]. by apply Hl.
    + intros [= <-]. reflexivity.
Qed.

Lemma normalize_url_cases (url : str) :
  url <> [] -> url <> PLACEHOLDER ->
  normalize_url url =
    if has_scheme (strip url) then strip url else lit "https://" ++ strip url.
Proof.
  intros H1 H2. unfold normalize_url.
  rewrite (bool_decide_eq_false_2 _ H1), (bool_decide_eq_false_2 _ H2).
  simpl. by destruct (has_scheme (strip url)).
Qed.

Lemma normalize_url_schemed (url : str) :
  url <> [] -> url <> PLACEHOLDER ->
  normalize_url url <> [] /\ has_scheme (normalize_url url) = true
  /\ trimmed (normalize_url url).
Proof.
  intros H1 H2. rewrite (normalize_url_cases url H1 H2).
  destruct (has_scheme (strip url)) eqn:Hs.
  - split; [|split; [done | apply strip_trimmed]].
    intros Hnil. by rewrite Hnil in Hs.
  - split; [done|]. split; [apply has_scheme_prefixed|].
    apply trimmed_prefixed, strip_trimmed.
Qed.

Lemma normalize_url_nil (url : str) :
  normalize_url url = [] <-> url = [] \/ url = PLACEHOLDER.
Proof.
  split; [|by intros [-> | ->]].
  intros Hnil.
  destruct (decide (url = [])) as [? | H1]; [by left|].
  destruct (decide (url = PLACEHOLDER)) as [? | H2]; [by right|].
  by destruct (normalize_url_schemed url H1 H2) as (Hne & _).
Qed.

Lemma normalize_url_fixed (url : str) :
  url <> [] -> trimmed url -> has_scheme url = true -> normalize_url url = url.
Proof.
  intros Hne Ht Hs.
  rewrite normalize_url_cases; [by rewrite (strip_id url Ht), Hs | done |].
  intros ->. by rewrite has_scheme_placeholder in Hs.
Qed.

(** X2.  What [normalize_url] returns is either empty or a text without
    white space around it that starts with [http://] or [https://] in some
    letter case; it is empty only on the empty string and on the
    placeholder; and normalising twice is normalising once. *)
Theorem normalize_url_output (url : str) :
  (normalize_url url = [] <-> url = [] \/ url = PLACEHOLDER) /\
  (normalize_url url <> [] ->
     has_scheme (normalize_url url) = true /\ trimmed (normalize_url url)) /\
  normalize_url (normalize_url url) = normalize_url url.
Proof.
  split; [apply normalize_url_nil|].
  destruct (decide (url = [])) as [-> | H1]; [by split|].
  destruct (decide (url = PLACEHOLDER)) as [-> | H2]; [by split|].
  destruct (normalize_url_schemed url H1 H2) as (Hne & Hs & Ht).
  split; [done|]. by apply normalize_url_fixed.
Qed.

Lemma normalize_url_output_witness :
  has_scheme (normalize_url (lit " example.com/a ")) = true /\
  trimmed (normalize_url (lit " example.com/a ")).
Proof.
  destruct (normalize_url_output (lit " example.com/a ")) as (_ & H & _).
  apply H. discriminate.
Defined.

(** X3.  The website field of the left panel: a link is drawn exactly when
    [get_or_blank] does not give the placeholder, that is unless the cell is
    absent, missing, blank, or the placeholder text itself; its target then
    carries a scheme and no white space around it. *)
Theorem website_link_spec (r : row) :
  (website_link r).1 = get_or_blank r COL_WEBSITE /\
  ((website_link r).2 = None <-> get_or_blank r COL_WEBSITE = PLACEHOLDER) /\
  (forall target, (website_link r).2 = Some target ->
     target = normalize_url (get_or_blank r COL_WEBSITE) /\
     has_scheme target = true /\ trimmed target).
Proof.
  unfold website_link. cbn [fst snd].
  pose proof (get_or_blank_visible r COL_WEBSITE) as Hvis.
  pose proof (normalize_url_nil (get_or_blank r COL_WEBSITE)) as Hnil.
  split; [done|]. split.
  - case_bool_decide as Hu; split; try done.
    + intros _. apply Hnil in Hu as [Hu | Hu]; [|done].
      by rewrite Hu in Hvis.
    + intros Hp. destruct Hu. apply Hnil. by right.
  - intros target. case_bool_decide as Hu; [done|].
    intros [= <-]. split; [done|].
    apply normalize_url_schemed; intros E; apply Hu, Hnil; tauto.
Qed.

Lemma website_link_spec_witness :
  (website_link {[ COL_WEBSITE := Str (lit "acme.example ") ]}).2
  = Some (lit "https://acme.example") /\
  has_scheme (lit "https://acme.example") = true /\
  trimmed (lit "https://acme.example").
Proof.
  destruct (website_link_spec {[ COL_WEBSITE := Str (lit "acme.example ") ]})
    as (_ & _ & H).
  assert (E : (website_link {[ COL_WEBSITE := Str (lit "acme.example ") ]}).2
              = Some (lit "https://acme.example")) by by_evaluation.
  destruct (H _ E) as (_ & Hs & Ht).
  split; [exact E | split; [exact Hs | exact Ht]].
Defined.

(** ** [ensure_order] on any frame *)

Lemma rows_drop_unnamed (l : list str) (d : DataFrame) :
  rows (drop_unnamed d l) = without_unnamed l <$> rows d.
Proof.
  unfold drop_unnamed, without_unnamed. revert d.
  induction l as [|c l IH]; intros d; simpl.
  - by rewrite list_fmap_id.
  - rewrite IH. destruct (is_unnamed c); [|done].
    unfold drop_column; simpl. rewrite <- list_fmap_compose. done.
Qed.

Lemma without_unnamed_lookup (l : list str) (r : row) (c : str) :
  is_unnamed c = false -> without_unnamed l r !! c = r !! c.
Proof.
  intros Hc. unfold without_unnamed. revert r.
  induction l as [|x l IH]; intros r; simpl; [done|].
  rewrite IH. destruct (is_unnamed x) eqn:Hx; [|done].
  apply lookup_delete_ne. congruence.
Qed.

Lemma order_named : is_unnamed ORDER_COL = false.
Proof. reflexivity. Qed.

Lemma without_unnamed_key (l : list str) (r : row) :
  order_key (without_unnamed l r) = order_key r.
Proof.
  unfold order_key, getitem.
  by rewrite (without_unnamed_lookup l r ORDER_COL order_named).
Qed.

Lemma sort_values_rows d c d' :
  sort_values d c = inr d' ->
  rows d' = stable_sort (fun r => getitem r c) (rows d).
Proof.
  unfold sort_values. destruct (negb (has_col d c)); [done|].
  destruct (_ && _); [done|]. by intros [= <-].
Qed.

(** X4.  On a frame that brings its order column, [ensure_order] keeps the
    keys of the records and returns the records, without their positional
    columns, sorted by key: no record is lost or doubled, the keys of
    neighbours ascend, and the records of one key stay in the order they
    had. *)
Theorem ensure_order_sorts (d d' : DataFrame) :
  ORDER_COL ∈ columns d ->
  ensure_order d = inr d' ->
  rows d' ≡ₚ without_unnamed (columns d) <$> rows d /\
  length (rows d') = length (rows d) /\
  ascending order_key (rows d') /\
  (forall k, filter (fun r => order_key r = k) (rows d')
             = without_unnamed (columns d)
                 <$> filter (fun r => order_key r = k) (rows d)).
Proof.
  intros Hin Hd. unfold ensure_order in Hd.
  assert (Hhas : has_col (drop_unnamed d (columns d)) ORDER_COL = true).
  { apply bool_decide_eq_true_2.
    pose proof (drop_unnamed_carried (columns d) d) as (_ & Hkeep & _).
    apply Hkeep; [apply order_named | done]. }
  rewrite Hhas in Hd. cbn [negb] in Hd.
  apply sort_values_rows in Hd. rewrite rows_drop_unnamed in Hd.
  fold order_key in Hd. rewrite Hd.
  split; [apply stable_sort_perm|].
  split; [by rewrite (stable_sort_perm _ _), length_fmap|].
  split; [apply stable_sort_ascending|].
  intros k. rewrite stable_sort_stable. clear Hd.
  induction (rows d) as [|r l IH]; [done|].
  rewrite fmap_cons, !filter_cons, without_unnamed_key, IH.
  by destruct (decide (order_key r = k)).
Qed.

Lemma ensure_order_sorts_witness :
  (fun r => getitem r COL_COMPANY)
    <$> rows (frame_of (ensure_order shuffled_table))
  = [Str (lit "a"); Str (lit "b"); Str (lit "c")] /\
  ascending order_key (rows (frame_of (ensure_order shuffled_table))).
Proof.
  split; [by_evaluation|].
  eapply (ensure_order_sorts shuffled_table).
  - apply (bool_decide_unpack _). vm_compute. exact I.
  - by_evaluation.
Defined.

(** ** Loading again what was loaded *)

Lemma drop_unnamed_named (l : list str) (d : DataFrame) (c : str) :
  c ∈ columns (drop_unnamed d l) -> is_unnamed c = true -> c ∉ l.
Proof.
  unfold drop_unnamed. revert d.
  induction l as [|x l IH]; intros d Hc Hu; [apply not_elem_of_nil|].
  simpl in Hc. apply not_elem_of_cons. split; [|by apply (IH _ Hc)].
  apply (drop_unnamed_columns l) in Hc. intros ->.
  rewrite Hu in Hc. unfold drop_column in Hc; simpl in Hc.
  by apply list_elem_of_filter in Hc as [Hc _].
Qed.

Lemma drop_unnamed_id (l : list str) (d : DataFrame) :
  (forall c, c ∈ l -> is_unnamed c = false) -> drop_unnamed d l = d.
Proof.
  unfold drop_unnamed. revert d.
  induction l as [|x l IH]; intros d H; simpl; [done|].
  rewrite (H x) by by left. apply IH. intros c Hc. apply H. by right.
Qed.

Lemma existsb_elem {A : Type} (f : A -> bool) (l : list A) :
  existsb f l = true <-> exists x, x ∈ l /\ f x = true.
Proof.
  rewrite existsb_exists. split; intros (x & Hx & Hf); exists x;
    (split; [by apply list_elem_of_In | done]).
Qed.

Lemma existsb_perm {A : Type} (f : A -> bool) (l l' : list A) :
  l ≡ₚ l' -> existsb f l = existsb f l'.
Proof.
  intros Hp. apply eq_true_iff_eq. rewrite !existsb_elem.
  split; intros (x & Hx & Hf); exists x; (split; [|done]).
  - by rewrite <- Hp.
  - by rewrite Hp.
Qed.

Lemma stable_sort_id (key : row -> cell) (l : list row) :
  ascending key l -> stable_sort key l = l.
Proof.
  unfold stable_sort. induction l as [|x l IH]; intros Hl; [done|].
  cbn [foldr]. destruct l as [|y l]; [done|].
  destruct Hl as [Hxy Hl]. rewrite (IH Hl).
  cbn [insert_sorted]. by rewrite Hxy.
Qed.

Lemma ascending_keys (key : row -> cell) (l l' : list row) :
  key <$> l = key <$> l' -> ascending key l -> ascending key l'.
Proof.
  revert l'. induction l as [|x l IH]; intros [|x' l'] Hk Hl; try done.
  injection Hk as Hx Hk.
  destruct l as [|y l], l' as [|y' l']; try done.
  destruct Hl as [Hxy Hl]. split.
  - injection Hk as Hy _. by rewrite <- Hx, <- Hy.
  - by apply IH.
Qed.

Lemma ensure_order_ordered (d d' : DataFrame) :
  ensure_order d = inr d' -> ordered_frame d'.
Proof.
  intros Hd. split; [|split; [|split]].
  - apply (ensure_order_columns _ _ _ Hd). by left.
  - intros c Hc. unfold ensure_order in Hd.
    apply sort_values_columns in Hd. rewrite Hd in Hc. clear Hd.
    assert (Hdrop : c ∈ columns (drop_unnamed d (columns d)) ->
                    is_unnamed c = false).
    { intros H. destruct (is_unnamed c) eqn:Hu; [|done].
      destruct (drop_unnamed_named _ _ _ H Hu).
      by apply drop_unnamed_columns in H. }
    destruct (negb _); [|by apply Hdrop].
    apply set_column_columns in Hc as [Hc | ->];
      [by apply Hdrop | apply order_named].
  - unfold ensure_order in Hd. unfold sort_values in Hd.
    destruct (negb (has_col _ ORDER_COL)); [done|].
    fold order_key in Hd.
    destruct (existsb is_int _ && existsb is_str _) eqn:Hmix; [done|].
    injection Hd as <-. cbn [rows].
    rewrite <- Hmix. f_equal; apply existsb_perm;
      apply fmap_Permutation, stable_sort_perm.
  - unfold ensure_order in Hd. apply sort_values_rows in Hd.
    rewrite Hd. apply stable_sort_ascending.
Qed.

Lemma ensure_order_fixed (d : DataFrame) :
  ordered_frame d -> ensure_order d = inr d.
Proof.
  intros (Ho & Hn & Hmix & Hasc). unfold ensure_order.
  rewrite (drop_unnamed_id _ _ Hn).
  unfold has_col at 1. rewrite (bool_decide_eq_true_2 _ Ho). cbn [negb].
  unfold sort_values, has_col. rewrite (bool_decide_eq_true_2 _ Ho).
  cbn [negb]. fold order_key. rewrite Hmix.
  rewrite (stable_sort_id _ _ Hasc). by destruct d.
Qed.

(** X5.  [ensure_order] is idempotent: on a frame it returned it returns
    that frame. *)
Theorem ensure_order_idempotent (d d' : DataFrame) :
  ensure_order d = inr d' -> ensure_order d' = inr d'.
Proof. intros H. by apply ensure_order_fixed, (ensure_order_ordered d). Qed.

Lemma ensure_order_idempotent_witness :
  ensure_order (frame_of (ensure_order shuffled_table))
  = inr (frame_of (ensure_order shuffled_table)).
Proof. apply (ensure_order_idempotent shuffled_table). by_evaluation. Defined.

(** ** What holds of every frame a session ever has *)

(** A property of the frames the loader gives that Save keeps holds of the
    frame of every session that can be reached. *)
Lemma session_frame_ind (P : DataFrame -> Prop) :
  (forall file d, load_data file = inr d -> P d) ->
  (forall d pos b, P d -> P (commit d pos b).1) ->
  forall s d, reachable s -> df s = Some d -> P d.
Proof.
  intros Hload Hcommit.
  assert (Hstep : forall s i,
            (forall d, df s = Some d -> P d) ->
            forall d, df (session (render s i)) = Some d -> P d).
  { intros s i Hinv d'.
    assert (Hloaded : forall s0 d0, df s0 = Some d0 -> P d0 ->
              df (session (render s0 i)) = Some d' -> P d').
    { intros s0 d0 H0 L0 H'.
      destruct (render_frame s0 i d0 H0) as [H | (pos & b & _ & _ & H)];
        rewrite H in H'; injection H' as <-; [done|]. by apply Hcommit. }
    destruct (df s) as [d|] eqn:Hs.
    - by apply (Hloaded s d Hs), Hinv.
    - destruct (uploaded i) as [file|] eqn:Hup.
      + destruct (load_data file) as [e | d] eqn:Hd.
        * unfold render, load_branch. rewrite Hup, Hs, Hd. simpl.
          rewrite Hs. simpl. congruence.
        * rewrite (render_after_load s i file d Hs Hup Hd).
          apply (Hloaded _ d); [done|]. by apply Hload with file.
      + unfold render, load_branch. rewrite Hup, Hs. simpl. congruence. }
  intros s d [es ->]. revert d.
  induction es as [|e es IH] using rev_ind; [done|].
  unfold run in *. rewrite foldl_app. simpl.
  destruct e as [i | b]; simpl; [by apply Hstep | done].
Qed.

Lemma named_app_columns :
  forallb (fun c => negb (is_unnamed c)) app_columns = true.
Proof. vm_compute. reflexivity. Qed.

Lemma load_data_app_columns file d c :
  load_data file = inr d -> c ∈ app_columns -> c ∈ columns d.
Proof.
  unfold load_data, bind. destruct (load_input file) as [e | d0]; [done|].
  intros Hd Hc. apply (ensure_order_columns _ _ c Hd). right. split.
  - pose proof named_app_columns as Hn. rewrite forallb_forall in Hn.
    apply negb_true_iff, Hn. by apply list_elem_of_In.
  - rewrite !ensure_column_columns, !ensure_columns_columns.
    unfold app_columns in Hc. rewrite !elem_of_app, !elem_of_cons in Hc.
    rewrite elem_of_nil in Hc. tauto.
Qed.

Lemma load_data_ordered file d : load_data file = inr d -> ordered_frame d.
Proof.
  unfold load_data, bind. destruct (load_input file) as [e | d0]; [done|].
  apply ensure_order_ordered.
Qed.

Lemma keys_of_order_column d :
  order_key <$> rows d = default NA <$> order_column d.
Proof. unfold order_column. by rewrite <- list_fmap_compose. Qed.

Lemma commit_keys d pos b :
  order_key <$> rows (commit d pos b).1 = order_key <$> rows d.
Proof. by rewrite !keys_of_order_column, commit_order_column. Qed.

Lemma commit_ordered d pos b :
  labelling_columns d -> ordered_frame d -> ordered_frame (commit d pos b).1.
Proof.
  intros L (Ho & Hn & Hmix & Hasc).
  split; [by apply commit_columns|]. split; [|split].
  - intros c. destruct (commit_columns_eq d pos b L) as [-> _]. apply Hn.
  - by rewrite commit_keys.
  - apply (ascending_keys order_key (rows d)); [|done].
    symmetry. apply commit_keys.
Qed.

Lemma load_data_app_frame file d : load_data file = inr d -> app_frame d.
Proof.
  intros Hd. split; [by apply load_data_labelling with file|].
  split; [intros c; by apply load_data_app_columns with file|].
  by apply load_data_ordered with file.
Qed.

Lemma commit_app_frame d pos b :
  app_frame d -> app_frame (commit d pos b).1.
Proof.
  intros (L & Hc & Ho). split; [by apply commit_labelling|].
  split; [intros c Hin; by apply commit_columns, Hc|].
  by apply commit_ordered.
Qed.

Lemma reachable_app_frame s d : reachable s -> df s = Some d -> app_frame d.
Proof.
  apply (session_frame_ind app_frame).
  - apply load_data_app_frame.
  - apply commit_app_frame.
Qed.

Lemma ensure_columns_id v (l : list str) d :
  (forall c, c ∈ l -> c ∈ columns d) -> foldl (ensure_column v) d l = d.
Proof.
  revert d. induction l as [|c l IH]; intros d Hl; simpl; [done|].
  assert (E : ensure_column v d c = d).
  { unfold ensure_column, has_col.
    rewrite bool_decide_eq_true_2; [done|]. apply Hl. by left. }
  rewrite E. apply IH. intros c' Hc'. apply Hl. by right.
Qed.

(** X6.  Loading is idempotent on the frames of the application: when the
    table pandas reads from a file is the frame a reachable session holds
    (the frame the download button carries), the body of the load branch
    returns that very frame, and a session without a frame takes it as it
    is. *)
Theorem reload_exported (s : Session) (d : DataFrame) (file : UploadedFile) :
  reachable s ->
  df s = Some d ->
  load_input file = inr d ->
  load_data file = inr d /\
  forall s0, df s0 = None ->
    load_branch s0 (Some file)
    = ({| df := Some d; view_idx := view_idx s0;
          filter_unlabeled := filter_unlabeled s0; staged := staged s0 |}, []).
Proof.
  intros Hreach Hd Hfile.
  destruct (reachable_app_frame s d Hreach Hd) as ((_ & Hf & Hn & Ht) & Hc & Ho).
  assert (Hload : load_data file = inr d).
  { unfold load_data. rewrite Hfile. cbn [bind].
    rewrite (ensure_columns_id NA needed d).
    2: { intros c Hin. apply Hc. unfold app_columns. apply elem_of_app. by left. }
    rewrite (ensure_columns_id (Int 0) TAG_COLS d) by done.
    assert (Hone : forall c, c ∈ columns d -> ensure_column NA d c = d).
    { intros c Hin. unfold ensure_column, has_col.
      by rewrite bool_decide_eq_true_2. }
    rewrite (Hone _ Hf), (Hone _ Hn). by apply ensure_order_fixed. }
  split; [done|]. intros s0 H0. unfold load_branch. by rewrite H0, Hload.
Qed.

Lemma saved_session_reachable : reachable saved_session.
Proof.
  exists [Interact (with_upload (Some sample_csv) idle);
          Interact (save_as opt_Y)].
  unfold saved_session. reflexivity.
Defined.

Lemma saved_session_loaded :
  df saved_session = Some (the_frame saved_session).
Proof. apply the_frame_loaded. vm_compute. reflexivity. Defined.

Lemma reload_exported_witness :
  load_data exported_csv = inr (the_frame saved_session).
Proof.
  apply (reload_exported saved_session (the_frame saved_session) exported_csv).
  - exact saved_session_reachable.
  - exact saved_session_loaded.
  - by_evaluation.
Defined.

(** ** The shape of the frame *)

Lemma commit_length d pos b :
  length (rows (commit d pos b).1) = length (rows d).
Proof.
  destruct (commit_frame d pos b) as (ws & _ & -> & _).
  rewrite rows_put_all. apply length_alter.
Qed.

Lemma edited_shape d d' :
  labelling_columns d -> edited d d' ->
  labelling_columns d' /\
  columns d' = columns d /\
  length (rows d') = length (rows d) /\
  forall c, c <> MAIN_FLAG_COL -> c ∉ TAG_COLS -> c <> NOTES_COL ->
    (fun r => r !! c) <$> rows d' = (fun r => r !! c) <$> rows d.
Proof.
  intros L. induction 1 as [|d' pos b _ (L' & Hc & Hl & Ho)].
  - done.
  - split; [by apply commit_labelling|].
    split; [by destruct (commit_columns_eq d' pos b L') as [-> _]|].
    split; [by rewrite commit_length|].
    intros c H1 H2 H3. rewrite commit_other_column; [by apply Ho|].
    rewrite label_cols_elem. tauto.
Qed.

Lemma edited_dtypes d d' :
  labelling_columns d -> edited d d' -> dtypes d' = dtypes d.
Proof.
  intros L. induction 1 as [|d' pos b Hed IH]; [done|].
  destruct (edited_shape d d' L Hed) as (L' & _).
  destruct (commit_columns_eq d' pos b L') as [_ ->]. done.
Qed.

Lemma edited_writable d d' :
  labelling_columns d -> edited d d' -> writable d -> writable d'.
Proof.
  intros L Hed. unfold writable, dtype_of.
  by rewrite (edited_dtypes d d' L Hed).
Qed.

Lemma no_reload_frames s d es :
  df s = Some d -> exists d', df (run s es) = Some d' /\ edited d d'.
Proof.
  revert s d. induction es as [|e es IH]; intros s d Hd.
  - exists d. split; [done | constructor].
  - simpl. destruct (step_loaded s e d Hd) as (_ & d1 & Hd1 & Hed).
    destruct (IH _ _ Hd1) as (d' & Hd' & Hed'). exists d'.
    split; [done | by apply edited_trans with d1].
Qed.

(** X7.  From the load on, the frame of the session keeps its shape:
    whatever the operator does, it has the same columns and the same number
    of records, and outside the flag, the ten tag columns and the notes
    every cell is the one that was loaded. *)
Theorem frame_shape (s : Session) (d : DataFrame) (es : list event) :
  reachable s ->
  df s = Some d ->
  exists d',
    df (run s es) = Some d' /\
    columns d' = columns d /\
    length (rows d') = length (rows d) /\
    forall c, c <> MAIN_FLAG_COL -> c ∉ TAG_COLS -> c <> NOTES_COL ->
      (fun r => r !! c) <$> rows d' = (fun r => r !! c) <$> rows d.
Proof.
  intros Hreach Hd.
  destruct (no_reload_frames s d es Hd) as (d' & Hd' & Hed).
  exists d'. split; [done|].
  by apply edited_shape; [apply (reachable_labelling s)|].
Qed.

Lemma frame_shape_witness :
  exists d',
    df (run saved_session [Interact (with_click (Some Prev) idle);
                           SetFilter false;
                           Interact (save_as opt_N)]) = Some d' /\
    columns d' = columns (the_frame saved_session) /\
    length (rows d') = length (rows (the_frame saved_session)).
Proof.
  destruct (frame_shape saved_session (the_frame saved_session)
              [Interact (with_click (Some Prev) idle); SetFilter false;
               Interact (save_as opt_N)]
              saved_session_reachable saved_session_loaded)
    as (d' & H1 & H2 & H3 & _).
  exists d'. split; [exact H1 | split; [exact H2 | exact H3]].
Defined.

(** ** The columns the load branch adds *)

Lemma column_is_set_new d c v :
  column_is (set_column d c (fun _ => v)) c v.
Proof.
  split; [apply set_column_columns; by right|].
  intros r Hr. apply list_elem_of_lookup_1 in Hr as [k Hk].
  rewrite set_column_lookup in Hk.
  destruct (rows d !! k) as [x|]; [|done].
  injection Hk as <-. apply lookup_insert_eq.
Qed.

Lemma column_is_set_other d c v c' (f : nat -> cell) :
  c' <> c -> column_is d c v -> column_is (set_column d c' f) c v.
Proof.
  intros Hne [Hc Hr]. split; [apply set_column_columns; by left|].
  intros r Hin. apply list_elem_of_lookup_1 in Hin as [k Hk].
  rewrite set_column_lookup in Hk.
  destruct (rows d !! k) as [x|] eqn:Hx; [|done].
  injection Hk as <-. rewrite lookup_insert_ne by done.
  apply Hr. by apply list_elem_of_lookup_2 in Hx.
Qed.

Lemma column_is_ensure_new d c v :
  c ∉ columns d -> column_is (ensure_column v d c) c v.
Proof.
  intros Hc. unfold ensure_column, has_col.
  rewrite bool_decide_eq_false_2 by done. apply column_is_set_new.
Qed.

Lemma column_is_ensure d c v c' v' :
  column_is d c v -> column_is (ensure_column v' d c') c v.
Proof.
  intros H. unfold ensure_column, has_col. case_bool_decide; [done|].
  apply column_is_set_other; [|done]. destruct H as [Hc _]. by intros ->.
Qed.

Lemma column_is_ensure_list d c v v' (l : list str) :
  column_is d c v -> column_is (foldl (ensure_column v') d l) c v.
Proof.
  revert d. induction l as [|x l IH]; intros d H; simpl; [done|].
  by apply IH, column_is_ensure.
Qed.

Lemma column_is_ensure_list_new d c v (l : list str) :
  c ∈ l -> c ∉ columns d -> column_is (foldl (ensure_column v) d l) c v.
Proof.
  revert d. induction l as [|x l IH]; intros d Hin Hc; [by apply elem_of_nil in Hin|].
  simpl. destruct (decide (c = x)) as [-> | Hne].
  - by apply column_is_ensure_list, column_is_ensure_new.
  - apply IH.
    + apply elem_of_cons in Hin as [? | ?]; done.
    + rewrite ensure_column_columns. tauto.
Qed.

Lemma column_is_ensure_order d d' c v :
  is_unnamed c = false -> c <> ORDER_COL ->
  ensure_order d = inr d' -> column_is d c v -> column_is d' c v.
Proof.
  intros Hu Hne Hd [Hc Hr].
  split; [apply (ensure_order_columns _ _ _ Hd); by right|].
  unfold ensure_order in Hd. apply sort_values_rows in Hd.
  intros r Hin. rewrite Hd, stable_sort_perm in Hin. clear Hd.
  assert (Hd1 : column_is (drop_unnamed d (columns d)) c v).
  { split.
    - pose proof (drop_unnamed_carried (columns d) d) as (_ & Hkeep & _).
      by apply Hkeep.
    - intros x Hx. rewrite rows_drop_unnamed in Hx.
      apply list_elem_of_fmap in Hx as (y & -> & Hy).
      rewrite without_unnamed_lookup by done. by apply Hr. }
  destruct (negb _).
  - destruct (column_is_set_other _ c v ORDER_COL
                (fun i => Int (Z.of_nat i + 1)) (not_eq_sym Hne) Hd1)
      as [_ H].
    by apply H.
  - by apply Hd1.
Qed.

Lemma ensure_order_length d d' :
  ensure_order d = inr d' -> length (rows d') = length (rows d).
Proof.
  unfold ensure_order. intros Hd. apply sort_values_rows in Hd.
  rewrite Hd, (stable_sort_perm _ _).
  destruct (negb _); [unfold set_column; simpl; rewrite length_imap|];
    by rewrite rows_drop_unnamed, length_fmap.
Qed.

Lemma tags_not_needed : forallb (fun c => bool_decide (c ∉ needed)) TAG_COLS = true.
Proof. vm_compute. reflexivity. Qed.

Lemma flag_notes_fresh :
  (MAIN_FLAG_COL ∉ needed) /\ (NOTES_COL ∉ needed).
Proof. split; apply (bool_decide_unpack _); vm_compute; exact I. Qed.

Lemma load_data_length file d0 d :
  load_input file = inr d0 -> load_data file = inr d ->
  length (rows d) = length (rows d0).
Proof.
  intros H0 Hd. rewrite (load_data_columns file d0 H0) in Hd.
  rewrite (ensure_order_length _ _ Hd).
  pose proof (ensure_column_carried (fun _ => True) NA
                (ensure_column NA
                   (foldl (ensure_column (Int 0))
                      (foldl (ensure_column NA) d0 needed) TAG_COLS)
                   MAIN_FLAG_COL) NOTES_COL) as [L1 _].
  pose proof (ensure_column_carried (fun _ => True) NA
                (foldl (ensure_column (Int 0))
                   (foldl (ensure_column NA) d0 needed) TAG_COLS)
                MAIN_FLAG_COL) as [L2 _].
  pose proof (ensure_columns_carried (fun _ => True) (Int 0) TAG_COLS
                (foldl (ensure_column NA) d0 needed)) as [L3 _].
  pose proof (ensure_columns_carried (fun _ => True) NA needed d0) as [L4 _].
  congruence.
Qed.

Lemma app_columns_named c :
  c ∈ app_columns -> is_unnamed c = false /\ c <> ORDER_COL.
Proof.
  intros Hc. split.
  - pose proof named_app_columns as Hnamed. rewrite forallb_forall in Hnamed.
    apply negb_true_iff, Hnamed. by apply list_elem_of_In.
  - intros ->. unfold app_columns in Hc.
    rewrite !elem_of_app, !elem_of_cons, elem_of_nil in Hc.
    pose proof order_not_needed. pose proof order_not_tag.
    pose proof order_not_flag. pose proof order_not_notes. tauto.
Qed.

Lemma load_data_tag_default file d0 d c :
  load_input file = inr d0 -> load_data file = inr d ->
  c ∈ TAG_COLS -> c ∉ columns d0 -> column_is d c (Int 0).
Proof.
  intros H0 Hd Hc Hno. rewrite (load_data_columns file d0 H0) in Hd.
  assert (Happ : c ∈ app_columns).
  { unfold app_columns. rewrite !elem_of_app. tauto. }
  destruct (app_columns_named c Happ) as [Hname Hord].
  apply (column_is_ensure_order _ _ c (Int 0) Hname Hord Hd).
  do 2 apply column_is_ensure.
  apply column_is_ensure_list_new; [done|].
  rewrite ensure_columns_columns. intros [? | Hn]; [done|].
  pose proof tags_not_needed as Ht. rewrite forallb_forall in Ht.
  specialize (Ht c ltac:(by apply list_elem_of_In)).
  by apply bool_decide_eq_true_1 in Ht.
Qed.

Lemma load_data_na_default file d0 d c :
  load_input file = inr d0 -> load_data file = inr d ->
  c ∈ needed \/ c = MAIN_FLAG_COL \/ c = NOTES_COL ->
  c ∉ columns d0 -> column_is d c NA.
Proof.
  intros H0 Hd Hc Hno. rewrite (load_data_columns file d0 H0) in Hd.
  assert (Happ : c ∈ app_columns).
  { unfold app_columns. rewrite !elem_of_app, !elem_of_cons. tauto. }
  destruct (app_columns_named c Happ) as [Hname Hord].
  apply (column_is_ensure_order _ _ c NA Hname Hord Hd).
  destruct Hc as [Hc | [-> | ->]].
  - do 2 apply column_is_ensure. apply column_is_ensure_list.
    by apply column_is_ensure_list_new.
  - apply column_is_ensure. apply column_is_ensure_new.
    rewrite !ensure_columns_columns.
    pose proof flag_not_tag. destruct flag_notes_fresh. tauto.
  - apply column_is_ensure_new.
    rewrite ensure_column_columns, !ensure_columns_columns.
    pose proof notes_not_tag. destruct flag_notes_fresh.
    pose proof flag_not_notes. intros [[[?|?]|?]|?]; done || congruence.
Qed.

(** X8.  A successful load gives a frame with every column the script
    shows or writes and as many records as the table read.  A tag column
    the table did not have is 0 in every record, and a display column, the
    flag column or the notes column it did not have is missing in every
    record. *)
Theorem loader_defaults (file : UploadedFile) (d0 d : DataFrame) :
  load_input file = inr d0 ->
  load_data file = inr d ->
  (forall c, c ∈ app_columns \/ c = ORDER_COL -> c ∈ columns d) /\
  length (rows d) = length (rows d0) /\
  (forall c, c ∈ TAG_COLS -> c ∉ columns d0 -> column_is d c (Int 0)) /\
  (forall c, c ∈ needed \/ c = MAIN_FLAG_COL \/ c = NOTES_COL ->
     c ∉ columns d0 -> column_is d c NA).
Proof.
  intros H0 Hd. split; [|split; [|split]].
  - intros c [Hc | ->]; [by apply load_data_app_columns with file|].
    by destruct (load_data_labelling file d Hd) as (Ho & _).
  - by apply load_data_length with file.
  - intros c. by apply load_data_tag_default with file.
  - intros c. by apply load_data_na_default with file.
Qed.

Lemma loader_defaults_witness :
  column_is (frame_of (load_data sample_csv)) MAIN_FLAG_COL NA /\
  column_is (frame_of (load_data sample_csv)) (lit "supply_chain_Package")
    (Int 0).
Proof.
  destruct (loader_defaults sample_csv sample_table
              (frame_of (load_data sample_csv)))
    as (_ & _ & Ht & Hn); [by_evaluation | by_evaluation |].
  split.
  - apply Hn; [right; left; reflexivity|].
    apply (bool_decide_unpack _). vm_compute. exact I.
  - apply Ht; apply (bool_decide_unpack _); vm_compute; exact I.
Defined.

Lemma traverse_const {A B : Type} (f : A -> Exc B) (l : list A) (v : B) :
  (forall a, a ∈ l -> f a = inr v) ->
  traverse f l = inr (replicate (length l) v).
Proof.
  induction l as [|a l IH]; intros H; simpl; [done|].
  rewrite (H a) by by left. simpl. rewrite IH; [done|].
  intros x Hx. apply H. by right.
Qed.

Lemma count_true_replicate (n : nat) :
  count_true (replicate n true) = Z.of_nat n.
Proof.
  unfold count_true. f_equal. induction n as [|n IH]; [done|].
  cbn [replicate]. rewrite filter_cons_True by done. simpl. by rewrite IH.
Qed.

(** X9.  A table that has none of the tag columns nor the flag column loads
    with every record unlabeled: the mask is true at every record, so
    [remaining] is the number of records of the table and the filtered view
    is the whole frame. *)
Theorem fresh_table_unlabeled (file : UploadedFile) (d0 d : DataFrame) :
  load_input file = inr d0 ->
  load_data file = inr d ->
  (forall c, c ∈ TAG_COLS -> c ∉ columns d0) ->
  MAIN_FLAG_COL ∉ columns d0 ->
  unlabeled_mask d = inr (replicate (length (rows d0)) true) /\
  count_true (replicate (length (rows d0)) true) = len (rows d0) /\
  build_view d (replicate (length (rows d0)) true) true = rows d.
Proof.
  intros H0 Hd Htags Hflag.
  pose proof (load_data_length file d0 d H0 Hd) as Hlen.
  pose proof (fun c => load_data_tag_default file d0 d c H0 Hd) as Ht.
  pose proof (fun c => load_data_na_default file d0 d c H0 Hd) as Hn.
  assert (Hmask : unlabeled_mask d = inr (replicate (length (rows d0)) true)).
  { rewrite (unlabeled_mask_labelling d (load_data_labelling file d Hd)).
    rewrite <- Hlen. apply traverse_const. intros r Hr.
    unfold unlabeled, row_sum.
    destruct (tag_sum_binary TAG_COLS r) as (t & Hsum & _ & Hzero).
    { intros c Hc. left. unfold getitem.
      destruct (Ht c Hc (Htags c Hc)) as [_ Hcell]. by rewrite (Hcell r Hr). }
    rewrite Hsum. simpl.
    assert (t = 0) as ->.
    { apply Hzero. intros c Hc. unfold getitem.
      destruct (Ht c Hc (Htags c Hc)) as [_ Hcell]. by rewrite (Hcell r Hr). }
    replace (if int64_tags d then wrap64 0 else 0) with 0
      by by destruct (int64_tags d).
    unfold getitem.
    destruct (Hn MAIN_FLAG_COL ltac:(tauto) Hflag) as [_ Hcell].
    by rewrite (Hcell r Hr). }
  split; [done|]. split; [apply count_true_replicate|].
  simpl. rewrite <- Hlen. clear.
  induction (rows d) as [|r l IH]; [done|]. simpl. by rewrite IH.
Qed.

Lemma fresh_table_unlabeled_witness :
  unlabeled_mask (frame_of (load_data sample_csv)) = inr [true; true; true].
Proof.
  destruct (fresh_table_unlabeled sample_csv sample_table
              (frame_of (load_data sample_csv))) as (H & _);
    [by_evaluation | by_evaluation | | | exact H].
  - intros c Hc. revert c Hc. apply Forall_forall.
    apply (bool_decide_unpack _). vm_compute. exact I.
  - apply (bool_decide_unpack _). vm_compute. exact I.
Defined.

(** ** Navigation *)

Lemma actions_frame s d rem n idx pos b i pg :
  let r := actions s d rem n idx pos b i pg in
  filter_unlabeled (session r) = filter_unlabeled s /\
  (clicked i <> Some Save \/ flag b = None -> df (session r) = Some d) /\
  (df (session r) <> Some d ->
   clicked i = Some Save /\ flag b <> None /\
   (ending r = Rerun \/ ending r = Raised TypeError)).
Proof.
  unfold actions.
  destruct (clicked i) as [[| |]|] eqn:Hc; try by repeat split.
  destruct (bool_decide_reflect (flag b = None)) as [Hf | Hf];
    cbn [is_save andb negb]; [by repeat split|].
  pose proof (commit_exn d pos b) as Hexn.
  destruct (commit d pos b) as [d' [e|]]; cbn [session ending moved df
    filter_unlabeled snd] in *;
    (split; [done|]); (split; [intros [? | ?]; done|]);
    intros _; (split; [done|]); (split; [done|]).
  - right. by rewrite (Hexn e).
  - by left.
Qed.

(** X10.  The frame of a session changes in an execution only when Save is
    clicked with Y or N chosen, and the execution then ends by [st.rerun()],
    or by a [TypeError] when a column did not take the value assigned to
    it: editing the widgets, Prev, Skip, a click on the disabled Save and a
    file in the uploader all leave the frame and the filter flag as they
    are. *)
Theorem frame_changes_only_on_save (s : Session) (i : Inputs) (d : DataFrame) :
  df s = Some d ->
  filter_unlabeled (session (render s i)) = filter_unlabeled s /\
  (clicked i <> Some Save \/ cs_choice i = opt_select ->
   df (session (render s i)) = Some d) /\
  (df (session (render s i)) <> Some d ->
   clicked i = Some Save /\ cs_choice i <> opt_select /\
   (ending (render s i) = Rerun \/ ending (render s i) = Raised TypeError)).
Proof.
  intros Hd. unfold render. rewrite (load_branch_loaded s d _ Hd), Hd.
  destruct (unlabeled_mask d) as [e | mask]; [by repeat split|].
  destruct (len _ =? 0); [by repeat split|].
  destruct (select_record _ _ _ _) as [e | [[r pos] b]]; [by repeat split|].
  match goal with
  | |- context [actions ?s ?d ?rem ?n ?idx ?pos ?b ?i ?pg] =>
      destruct (actions_frame s d rem n idx pos b i pg) as (H1 & H2 & H3)
  end.
  cbn [flag stage_widgets] in H2, H3.
  split; [exact H1|]. split.
  - intros [Hc | Hs]; apply H2; [by left|]. right. by rewrite Hs.
  - intros Hne. destruct (H3 Hne) as (Hc & Hf & He).
    split; [done|]. split; [|done]. intros Hs. by rewrite Hs in Hf.
Qed.

Lemma frame_changes_only_on_save_witness :
  df (session (render saved_session
                 (with_upload (Some keyed_csv)
                    (widgets opt_select [lit "supply_chain_Package"]
                       (lit "draft") (Some Save) true))))
  = Some (the_frame saved_session).
Proof.
  destruct (frame_changes_only_on_save saved_session
              (with_upload (Some keyed_csv)
                 (widgets opt_select [lit "supply_chain_Package"]
                    (lit "draft") (Some Save) true))
              (the_frame saved_session) saved_session_loaded) as (_ & H & _).
  apply H. right. reflexivity.
Defined.

(** X11.  A click on Prev in an execution that gets to the buttons sets the
    cursor to [max(0, idx - 1)], drops the staged buffer and runs the script
    again, the frame untouched; on the first record the cursor stays 0.  In a
    reachable session, Skip followed by Prev comes back to the cursor it
    started from, provided the record on display was not the last of the
    view and the next one is picked without error. *)
Theorem prev_and_back (s : Session) (d : DataFrame) (mask : list bool)
    (r : row) (pos : nat) (b : Staged) :
  df s = Some d ->
  unlabeled_mask d = inr mask ->
  build_view d mask (filter_unlabeled s) <> [] ->
  let view := build_view d mask (filter_unlabeled s) in
  let idx := checked_idx (len view) (view_idx s) in
  select_record d view idx (staged s) = inr (r, pos, b) ->
  (forall i, clicked i = Some Prev ->
     session (render s i)
     = {| df := Some d; view_idx := Z.max 0 (idx - 1);
          filter_unlabeled := filter_unlabeled s; staged := None |} /\
     ending (render s i) = Rerun /\
     (idx = 0 -> view_idx (session (render s i)) = 0)) /\
  (forall i j x,
     reachable s -> idx + 1 < len view ->
     select_record d view (idx + 1) None = inr x ->
     clicked i = Some Skip -> clicked j = Some Prev ->
     session (render (session (render s i)) j)
     = {| df := Some d; view_idx := idx;
          filter_unlabeled := filter_unlabeled s; staged := None |}).
Proof.
  intros Hd Hm Hv view idx Hsel. split.
  - intros i Hc.
    rewrite (render_at_record s i d mask r pos b Hd Hm Hv Hsel).
    unfold actions. rewrite Hc. cbn [session ending moved view_idx].
    fold view. fold idx. split; [done|]. split; [done|]. intros ->. done.
  - intros i j [[r' pos'] b'] Hreach Hnext Hsel' Hci Hcj.
    pose proof (reachable_cursor s Hreach) as H0.
    assert (Hn : 0 < len view).
    { pose proof (len_pos _ Hv) as E. apply Z.eqb_neq in E.
      unfold view, len in *. lia. }
    pose proof (checked_idx_range _ _ Hn H0) as Hidx. fold idx in Hidx.
    rewrite (render_at_record s i d mask r pos b Hd Hm Hv Hsel).
    unfold actions at 1. rewrite Hci. cbn [session].
    fold view. fold idx.
    rewrite Z.min_r by lia.
    set (s1 := moved s d (idx + 1) None).
    assert (Hchk : checked_idx (len view) (idx + 1) = idx + 1).
    { unfold checked_idx. destruct (Z.leb_spec (len view) (idx + 1)); [lia|done]. }
    assert (Hsel1 : select_record d (build_view d mask (filter_unlabeled s1))
                      (checked_idx
                         (len (build_view d mask (filter_unlabeled s1)))
                         (view_idx s1)) (staged s1) = inr (r', pos', b')).
    { unfold s1. cbn [moved filter_unlabeled view_idx staged].
      fold view. by rewrite Hchk. }
    rewrite (render_at_record s1 j d mask r' pos' b' eq_refl Hm Hv Hsel1).
    unfold actions. rewrite Hcj. cbn [session].
    unfold s1. cbn [moved filter_unlabeled view_idx]. fold view.
    rewrite Hchk. unfold moved. f_equal. lia.
Qed.

Lemma sample_session_reachable : reachable sample_session.
Proof.
  exists [Interact (with_upload (Some sample_csv) idle)].
  unfold sample_session. reflexivity.
Defined.

Lemma sample_session_loaded :
  df sample_session = Some (the_frame sample_session).
Proof. apply the_frame_loaded. vm_compute. reflexivity. Defined.

Lemma sample_session_mask :
  unlabeled_mask (the_frame sample_session) = inr [true; true; true].
Proof. vm_compute. reflexivity. Defined.

Lemma sample_session_view :
  build_view (the_frame sample_session) [true; true; true]
    (filter_unlabeled sample_session) <> [].
Proof. apply nonempty_length. vm_compute. reflexivity. Defined.

Lemma prev_and_back_witness :
  view_idx (session (render sample_session (with_click (Some Prev) idle))) = 0 /\
  view_idx
    (session (render (session (render sample_session
                                 (with_click (Some Skip) idle)))
                (with_click (Some Prev) idle))) = 0.
Proof.
  destruct (prev_and_back sample_session (the_frame sample_session)
              [true; true; true] sample_row 0%nat sample_staged
              sample_session_loaded sample_session_mask sample_session_view
              sample_on_display) as (Hprev & Hback).
  split.
  - destruct (Hprev (with_click (Some Prev) idle) eq_refl) as (_ & _ & H).
    apply H. vm_compute. reflexivity.
  - rewrite (Hback (with_click (Some Skip) idle) (with_click (Some Prev) idle)
               (sample_row2, 1%nat, init_staged_state 2)
               sample_session_reachable).
    + vm_compute. reflexivity.
    + vm_compute. reflexivity.
    + by_evaluation.
    + reflexivity.
    + reflexivity.
Defined.

(** ** The staged buffer and the widgets *)

Lemma checked_idx_again (n cursor : Z) :
  0 < n -> checked_idx n (checked_idx n cursor) = checked_idx n cursor.
Proof.
  intros Hn. unfold checked_idx.
  destruct (Z.leb_spec n cursor) as [H | H].
  - destruct (Z.leb_spec n 0); [lia | done].
  - destruct (Z.leb_spec n cursor); [lia | done].
Qed.

(** X12.  After an execution that runs to its end the staged buffer holds
    what the widgets show (the flag of the radio, the ten check boxes, the
    notes) and is bound to the integer [int] reads from the order key of the
    record on display, which is the record the next execution displays with
    that buffer unchanged.  The frame is as it was. *)
Theorem staged_follows_widgets (s : Session) (i : Inputs) (d : DataFrame) :
  df s = Some d ->
  ending (render s i) = Finished ->
  exists b r pos,
    session (render s i)
    = {| df := Some d; view_idx := view_idx (session (render s i));
         filter_unlabeled := filter_unlabeled s; staged := Some b |} /\
    flag b = flag_of_choice (cs_choice i) /\
    notes b = notes_new i /\
    (forall c, c ∈ TAG_COLS -> tags b !! c = Some (checkbox i c)) /\
    on_display (session (render s i)) = Some (r, pos) /\
    int_of_cell (order_key r) = inr (order b) /\
    forall mask,
      unlabeled_mask d = inr mask ->
      select_record d (build_view d mask (filter_unlabeled s))
        (checked_idx (len (build_view d mask (filter_unlabeled s)))
           (view_idx (session (render s i))))
        (Some b) = inr (r, pos, b).
Proof.
  intros Hd. unfold render at 1. rewrite (load_branch_loaded s d _ Hd), Hd.
  destruct (unlabeled_mask d) as [e | mask] eqn:Hm; [done|].
  destruct (len _ =? 0) eqn:Hn; [done|].
  destruct (select_record _ _ _ _) as [e | [[r pos] b]] eqn:Hsel; [done|].
  assert (Hv : build_view d mask (filter_unlabeled s) <> []).
  { intros E. rewrite E in Hn. done. }
  assert (Hpos : 0 < len (build_view d mask (filter_unlabeled s))).
  { apply Z.eqb_neq in Hn. unfold len in *. lia. }
  rewrite (render_at_record s i d mask r pos b Hd Hm Hv Hsel).
  destruct (select_record_inv _ _ _ _ _ _ _ Hsel) as (o & Hil & Ho & Hp & Hb).
  assert (Hord : order (stage_widgets b i) = o).
  { cbn [order stage_widgets]. subst b. destruct (staged s) as [b0|]; simpl; [|done].
    destruct (Z.eqb_spec (order b0) o); simpl; done. }
  assert (Hagain : select_record d (build_view d mask (filter_unlabeled s))
             (checked_idx (len (build_view d mask (filter_unlabeled s)))
                (view_idx s))
             (Some (stage_widgets b i)) = inr (r, pos, stage_widgets b i)).
  { unfold select_record, bind in *. rewrite Hil in *.
    destruct (has_col d ORDER_COL); [|done]. cbn [negb] in *.
    rewrite Ho in *. rewrite Hp in *.
    cbn [load_record]. rewrite Hord, Z.eqb_refl. done. }
  unfold actions.
  destruct (clicked i) as [[| |]|] eqn:Hc; cbn [is_save andb]; try done;
    try (destruct (negb _) eqn:Hsave;
         [by destruct (commit _ _ _) as [d' [e|]]|]);
    intros _;
    exists (stage_widgets b i), r, pos; cbn [session moved view_idx];
    (split; [done|]); (split; [done|]); (split; [done|]);
    (split; [intros c Hc'; by apply stage_widgets_tags|]);
    (split; [|split]).
  all: try (unfold order_key; by rewrite Ho, Hord).
  all: try (by rewrite Hord).
  all: try (intros mask' [= <-]; by rewrite checked_idx_again).
  all: unfold on_display, moved; cbn [df filter_unlabeled view_idx staged];
    rewrite Hm, checked_idx_again by done; by rewrite Hagain.
Qed.

Lemma staged_follows_widgets_witness :
  exists b,
    staged (session (render sample_session
                       (widgets opt_N [lit "supply_chain_Package"]
                          (lit "draft") None false))) = Some b /\
    flag b = Some false /\ notes b = lit "draft" /\
    tags b !! lit "supply_chain_Package" = Some true /\
    tags b !! lit "supply_chain_Substrate" = Some false.
Proof.
  destruct (staged_follows_widgets sample_session
              (widgets opt_N [lit "supply_chain_Package"] (lit "draft")
                 None false)
              (the_frame sample_session) sample_session_loaded)
    as (b & r & pos & Hs & Hf & Hn & Ht & _).
  - vm_compute. reflexivity.
  - exists b. split; [by rewrite Hs|]. split; [exact Hf|]. split; [exact Hn|].
    split.
    + apply (Ht (lit "supply_chain_Package")).
      apply (bool_decide_unpack _). vm_compute. exact I.
    + apply (Ht (lit "supply_chain_Substrate")).
      apply (bool_decide_unpack _). vm_compute. exact I.
Defined.

(** ** Nothing left to show *)

Lemma select_rows_none (m : list bool) (l : list row) :
  count_true m = 0 -> select_rows m l = [].
Proof.
  revert l. induction m as [|b m IH]; intros [|r l] H; try done.
  unfold count_true in H. destruct b.
  - rewrite filter_cons_True in H by done. simpl in H. lia.
  - rewrite filter_cons_False in H by done. simpl. by apply IH.
Qed.

(** X13.  With the filter on the view is empty exactly when [remaining] is
    0, and with the filter off exactly when the frame has no record.  An
    execution that finds the view empty draws the success notice and an
    enabled download of the frame and stops, leaving the whole session,
    cursor and staged buffer included, as it was. *)
Theorem nothing_to_show (s : Session) (i : Inputs) (d : DataFrame)
    (mask : list bool) :
  df s = Some d ->
  unlabeled_mask d = inr mask ->
  (build_view d mask true = [] <-> count_true mask = 0) /\
  (build_view d mask false = [] <-> rows d = []) /\
  (build_view d mask (filter_unlabeled s) = [] ->
   render s i
   = {| session := s;
        page := [st_metric 0; st_success;
                 st_download_button d (save_name i) false];
        ending := Stopped |}).
Proof.
  intros Hd Hm. split; [|split].
  - split; [by apply empty_view_remaining | apply select_rows_none].
  - done.
  - intros Hv. unfold render.
    rewrite (load_branch_loaded s d _ Hd), Hd, Hm, Hv.
    by rewrite (empty_view_remaining d mask _ Hm Hv).
Qed.

Lemma nothing_to_show_witness :
  render done_session idle
  = {| session := done_session;
       page := [st_metric 0; st_success;
                st_download_button (the_frame done_session) (save_name idle)
                  false];
       ending := Stopped |}.
Proof.
  destruct (nothing_to_show done_session idle (the_frame done_session) [false])
    as (_ & _ & H).
  - apply the_frame_loaded. vm_compute. reflexivity.
  - vm_compute. reflexivity.
  - apply H. by_evaluation.
Defined.

(** ** A record without an order key *)

Lemma cell_eqb_na (a : cell) : cell_eqb a NA = false.
Proof. by destruct a. Qed.

Lemma real_position_na d : real_position d NA = inl IndexError.
Proof.
  unfold real_position.
  assert (H : first_index (fun r => cell_eqb (getitem r ORDER_COL) NA) (rows d)
              = None).
  { induction (rows d) as [|r l IH]; [done|].
    simpl. by rewrite cell_eqb_na, IH. }
  by rewrite H.
Qed.

(** X14.  When the record the cursor points at has no order key, the
    execution raises [IndexError] at [real_pos], before any button is drawn,
    whatever the widgets hold; the frame and the staged buffer stay, the
    cursor is the checked one, and the next execution raises again whatever
    is clicked. *)
Theorem missing_key_raises (s : Session) (i : Inputs) (d : DataFrame)
    (mask : list bool) (r : row) :
  df s = Some d ->
  unlabeled_mask d = inr mask ->
  ORDER_COL ∈ columns d ->
  let view := build_view d mask (filter_unlabeled s) in
  let idx := checked_idx (len view) (view_idx s) in
  view <> [] ->
  iloc view idx = inr r ->
  order_key r = NA ->
  render s i
  = {| session := {| df := Some d; view_idx := idx;
                     filter_unlabeled := filter_unlabeled s;
                     staged := staged s |};
       page := [st_metric (count_true mask)];
       ending := Raised IndexError |} /\
  forall j, ending (render (session (render s i)) j) = Raised IndexError.
Proof.
  intros Hd Hm Ho view idx Hv Hil Hkey.
  assert (Hn : (len view =? 0) = false) by by apply len_pos.
  assert (Hpos : 0 < len view).
  { apply Z.eqb_neq in Hn. unfold len in *. lia. }
  assert (Hsel : forall stg, select_record d view idx stg = inl IndexError).
  { intros stg. unfold select_record, bind. rewrite Hil.
    unfold has_col. rewrite (bool_decide_eq_true_2 _ Ho). cbn [negb].
    unfold order_key in Hkey. by rewrite Hkey, real_position_na. }
  assert (Hraise : forall s0 j, df s0 = Some d ->
            filter_unlabeled s0 = filter_unlabeled s ->
            checked_idx (len view) (view_idx s0) = idx ->
            render s0 j
            = {| session := moved s0 d idx (staged s0);
                 page := [st_metric (count_true mask)];
                 ending := Raised IndexError |}).
  { intros s0 j H0 Hf Hi. unfold render.
    rewrite (load_branch_loaded s0 d _ H0), H0, Hm, Hf. fold view.
    by rewrite Hn, Hi, Hsel. }
  split.
  - by rewrite (Hraise s i Hd eq_refl eq_refl).
  - intros j. rewrite (Hraise s i Hd eq_refl eq_refl). cbn [session].
    rewrite (Hraise (moved s d idx (staged s)) j eq_refl eq_refl); [done|].
    cbn [moved view_idx]. by apply checked_idx_again.
Qed.

Lemma missing_key_raises_witness :
  ending (render gap_session (save_as opt_Y)) = Raised IndexError /\
  ending (render (session (render gap_session (save_as opt_Y)))
            (with_click (Some Prev) idle)) = Raised IndexError.
Proof.
  destruct (missing_key_raises gap_session (save_as opt_Y)
              (the_frame gap_session) [true; true]
              (default ∅ (rows (the_frame gap_session) !! 1%nat)))
    as (H1 & H2).
  - apply the_frame_loaded. vm_compute. reflexivity.
  - vm_compute. reflexivity.
  - apply (bool_decide_unpack _). vm_compute. exact I.
  - apply nonempty_length. vm_compute. reflexivity.
  - by_evaluation.
  - vm_compute. reflexivity.
  - split; [by rewrite H1 | apply H2].
Defined.

(** ** Executions that cannot raise *)

Lemma traverse_total {A B : Type} (f : A -> Exc B) (l : list A) :
  (forall a, a ∈ l -> exists b, f a = inr b) -> exists l', traverse f l = inr l'.
Proof.
  induction l as [|a l IH]; intros H; simpl; [by eexists|].
  destruct (H a) as [b Hb]; [by left|]. rewrite Hb. simpl.
  destruct IH as [l' Hl']; [intros x Hx; apply H; by right|].
  rewrite Hl'. simpl. by eexists.
Qed.

Lemma tag_sum_numeric (cols : list str) (r : row) :
  (forall c, c ∈ cols -> is_str (getitem r c) = false) ->
  exists t, tag_sum cols r = inr t.
Proof.
  induction cols as [|c cols IH]; intros H; simpl; [by eexists|].
  destruct IH as [t Ht]; [intros c' Hc'; apply H; by right|]. rewrite Ht.
  specialize (H c ltac:(by left)).
  destruct (getitem r c) as [|z|u]; simpl in *;
    [by exists (0 + t) | by exists (z + t) | done].
Qed.

Lemma first_index_found (p : row -> bool) (l : list row) (r : row) :
  r ∈ l -> p r = true -> exists k, first_index p l = Some k.
Proof.
  induction l as [|x l IH]; intros Hin Hp; [by apply elem_of_nil in Hin|].
  simpl. destruct (p x) eqn:Hx; [by eexists|].
  apply elem_of_cons in Hin as [-> | Hin]; [congruence|].
  destruct (IH Hin Hp) as [k Hk]. rewrite Hk. simpl. by eexists.
Qed.

Lemma elem_of_alter {A : Type} (f : A -> A) (l : list A) (k : nat) (x : A) :
  x ∈ alter f k l -> x ∈ l \/ exists y, y ∈ l /\ x = f y.
Proof.
  intros Hx. apply list_elem_of_lookup_1 in Hx as [j Hj].
  destruct (decide (k = j)) as [-> | Hne].
  - rewrite list_lookup_alter_eq in Hj.
    destruct (l !! j) as [y|] eqn:Hy; [|done]. injection Hj as <-.
    right. exists y. split; [|done]. by apply list_elem_of_lookup_2 in Hy.
  - rewrite list_lookup_alter_ne in Hj by done.
    left. by apply list_elem_of_lookup_2 in Hj.
Qed.

Lemma commit_readable_keys d pos b :
  readable_keys d -> readable_keys (commit d pos b).1.
Proof.
  intros H r Hr.
  assert (Hk : order_key r ∈ order_key <$> rows (commit d pos b).1).
  { apply list_elem_of_fmap. by exists r. }
  rewrite commit_keys in Hk.
  apply list_elem_of_fmap in Hk as (y & -> & Hy). by apply H.
Qed.

Lemma staged_values_tag b c v :
  (c, v) ∈ staged_values b -> c ∈ TAG_COLS -> is_str v = false.
Proof.
  intros Hin Hc. unfold staged_values in Hin.
  apply elem_of_cons in Hin as [[= -> ->] | Hin];
    [by apply flag_not_tag in Hc|].
  apply elem_of_app in Hin as [Hin | Hin].
  - by apply list_elem_of_fmap in Hin as (c' & [= -> ->] & _).
  - apply elem_of_cons in Hin as [[= -> ->] | Hin];
      [by apply notes_not_tag in Hc | by apply elem_of_nil in Hin].
Qed.

Lemma commit_numeric_tags d pos b :
  numeric_tags d -> numeric_tags (commit d pos b).1.
Proof.
  intros H r c Hr Hc.
  destruct (commit_frame d pos b) as (ws & [k Hk] & E & _).
  rewrite E, rows_put_all in Hr.
  apply elem_of_alter in Hr as [Hr | (y & Hy & ->)]; [by apply H|].
  unfold getitem. destruct (put_row ws y !! c) as [v|] eqn:Hl; [|done].
  apply put_row_elem in Hl as [Hl | Hin]; simpl.
  - specialize (H y c Hy Hc). unfold getitem in H. by rewrite Hl in H.
  - apply (staged_values_tag b c v); [|done]. rewrite Hk.
    apply elem_of_app. by left.
Qed.

Lemma cell_eqb_refl (k : cell) : k <> NA -> cell_eqb k k = true.
Proof.
  destruct k as [| z | t]; simpl; [done | |].
  - intros _. apply Z.eqb_refl.
  - intros _. by apply bool_decide_eq_true_2.
Qed.

Lemma select_record_total d mask f cursor stg :
  ORDER_COL ∈ columns d -> readable_keys d ->
  build_view d mask f <> [] -> 0 <= cursor ->
  exists x,
    select_record d (build_view d mask f)
      (checked_idx (len (build_view d mask f)) cursor) stg = inr x.
Proof.
  intros Ho Hk Hv H0.
  assert (Hn : 0 < len (build_view d mask f)).
  { pose proof (len_pos _ Hv) as E. apply Z.eqb_neq in E. unfold len in *. lia. }
  pose proof (checked_idx_range _ _ Hn H0) as Hr.
  set (view := build_view d mask f) in *.
  set (idx := checked_idx (len view) cursor) in *.
  destruct (view !! Z.to_nat idx) as [r|] eqn:Hl.
  2: { apply lookup_ge_None in Hl. unfold len in Hr. lia. }
  assert (Hil : iloc view idx = inr r).
  { unfold iloc. destruct (Z.ltb_spec idx 0); [lia|].
    destruct (Z.ltb_spec idx 0); [lia|]. by rewrite Hl. }
  assert (Hin : r ∈ rows d).
  { apply list_elem_of_lookup_2 in Hl.
    by apply (elem_of_sublist _ _ _ Hl), build_view_sublist. }
  destruct (Hk r Hin) as [o Hkey]. unfold order_key in Hkey.
  assert (Hna : getitem r ORDER_COL <> NA).
  { intros E. by rewrite E in Hkey. }
  destruct (first_index_found
              (fun x => cell_eqb (getitem x ORDER_COL) (getitem r ORDER_COL))
              (rows d) r Hin)
    as [k Hfound]; [by apply cell_eqb_refl|].
  exists (r, k, load_record stg o).
  unfold select_record, bind. rewrite Hil.
  unfold has_col. rewrite (bool_decide_eq_true_2 _ Ho). cbn [negb].
  unfold real_position. by rewrite Hfound, Hkey.
Qed.

Lemma unlabeled_mask_total d :
  labelling_columns d -> numeric_tags d -> exists mask, unlabeled_mask d = inr mask.
Proof.
  intros L Hn. rewrite (unlabeled_mask_labelling d L).
  apply traverse_total. intros r Hr. unfold unlabeled, row_sum.
  destruct (tag_sum_numeric TAG_COLS r) as [t Ht]; [intros c; by apply Hn|].
  rewrite Ht. simpl. by eexists.
Qed.

Lemma render_sound s i d :
  df s = Some d -> 0 <= view_idx s ->
  labelling_columns d -> readable_keys d -> numeric_tags d -> writable d ->
  forall e, ending (render s i) <> Raised e.
Proof.
  intros Hd H0 L Hk Hn Hw e.
  destruct (unlabeled_mask_total d L Hn) as [mask Hm].
  unfold render. rewrite (load_branch_loaded s d _ Hd), Hd, Hm.
  destruct (len _ =? 0) eqn:Hlen; [done|].
  assert (Hv : build_view d mask (filter_unlabeled s) <> []).
  { intros E. rewrite E in Hlen. done. }
  pose proof L as (Ho & _).
  destruct (select_record_total d mask (filter_unlabeled s) (view_idx s)
              (staged s) Ho Hk Hv H0) as [[[r pos] b] Hsel].
  rewrite Hsel. unfold actions.
  destruct (clicked i) as [[| |]|]; try done.
  destruct (_ && _); [|done]. by rewrite (commit_writable d pos _ L Hw).
Qed.

Lemma reachable_run s es : reachable s -> reachable (run s es).
Proof.
  intros [es0 ->]. exists (es0 ++ es). unfold run. by rewrite foldl_app.
Qed.

Lemma edited_sound d d' :
  edited d d' -> readable_keys d -> numeric_tags d ->
  readable_keys d' /\ numeric_tags d'.
Proof.
  induction 1 as [|d' pos b _ IH]; intros Hk Hn; [done|].
  destruct (IH Hk Hn). split;
    [by apply commit_readable_keys | by apply commit_numeric_tags].
Qed.

(** X15.  When every record of the frame has an order key that [int]
    reads, no tag cell is a text, and the columns Save assigns take its
    values (the flag and notes columns hold texts, the tag columns
    integers), no execution ever raises: from any reachable session with
    such a frame, after any sequence of executions and changes of the
    filter, the next execution ends by running to its end, by [st.stop()] or
    by [st.rerun()]. *)
Theorem never_raises (s : Session) (d : DataFrame) (es : list event)
    (i : Inputs) (e : exn) :
  reachable s ->
  df s = Some d ->
  readable_keys d ->
  numeric_tags d ->
  writable d ->
  ending (render (run s es) i) <> Raised e.
Proof.
  intros Hreach Hd Hk Hn Hw.
  destruct (no_reload_frames s d es Hd) as (d' & Hd' & Hed).
  pose proof (reachable_run s es Hreach) as Hreach'.
  pose proof (reachable_labelling s d Hreach Hd) as L.
  destruct (edited_sound d d' Hed Hk Hn) as [Hk' Hn'].
  apply (render_sound _ i d' Hd'); try done.
  - by apply reachable_cursor.
  - by apply (reachable_labelling (run s es)).
  - by apply (edited_writable d d').
Qed.

Lemma int_keys_readable d : int_keys d -> readable_keys d.
Proof.
  intros H r Hr. destruct (H r Hr) as [o Ho]. exists o.
  unfold order_key, getitem. by rewrite Ho.
Qed.

Lemma int_keys_check d :
  forallb (fun r => match r !! ORDER_COL with
                    | Some (Int _) => true
                    | _ => false
                    end) (rows d) = true ->
  int_keys d.
Proof.
  rewrite forallb_forall. intros H r Hr.
  specialize (H r ltac:(by apply list_elem_of_In)).
  destruct (r !! ORDER_COL) as [[| o |]|]; try done. by exists o.
Qed.

Lemma numeric_tags_check d :
  forallb (fun r => forallb (fun c => negb (is_str (getitem r c))) TAG_COLS)
    (rows d) = true ->
  numeric_tags d.
Proof.
  rewrite forallb_forall. intros H r c Hr Hc.
  specialize (H r ltac:(by apply list_elem_of_In)).
  rewrite forallb_forall in H.
  specialize (H c ltac:(by apply list_elem_of_In)).
  by apply negb_true_iff in H.
Qed.

Lemma never_raises_witness :
  ending (render (run sample_session sample_events) (save_as opt_Y))
  <> Raised IndexError.
Proof.
  apply (never_raises sample_session (the_frame sample_session) sample_events
           (save_as opt_Y) IndexError
           sample_session_reachable sample_session_loaded).
  - apply int_keys_readable, int_keys_check. vm_compute. reflexivity.
  - apply numeric_tags_check. vm_compute. reflexivity.
  - apply writable_check. vm_compute. reflexivity.
Defined.

(** ** The dtypes of the loaded frame *)

Lemma ensure_column_dtype v d c' c :
  dtype_of (ensure_column v d c') c
  = if bool_decide (c' = c /\ c ∉ columns d) then scalar_dtype v
    else dtype_of d c.
Proof.
  unfold ensure_column, has_col.
  destruct (bool_decide_reflect (c' ∈ columns d)) as [Hin | Hout]; cbn [negb].
  - rewrite bool_decide_eq_false_2; [done|]. intros [-> H]. done.
  - unfold dtype_of, set_column; cbn [dtypes].
    destruct (decide (c' = c)) as [-> | Hne].
    + rewrite lookup_insert_eq, bool_decide_eq_true_2; done.
    + rewrite lookup_insert_ne by done.
      rewrite bool_decide_eq_false_2; [done|]. by intros [? _].
Qed.

Lemma ensure_columns_dtype v (l : list str) d c :
  dtype_of (foldl (ensure_column v) d l) c
  = if bool_decide (c ∈ l /\ c ∉ columns d) then scalar_dtype v
    else dtype_of d c.
Proof.
  revert d. induction l as [|c' l IH]; intros d; cbn [foldl].
  - rewrite bool_decide_eq_false_2; [done|]. intros [H _].
    by apply elem_of_nil in H.
  - rewrite IH, ensure_column_dtype.
    repeat case_bool_decide; try done;
      exfalso; rewrite ?ensure_column_columns, ?elem_of_cons in *;
      (destruct (decide (c = c')) as [-> | Hne];
       [tauto | assert (c' <> c) by congruence; tauto]).
Qed.

Lemma drop_unnamed_dtype l d c :
  is_unnamed c = false -> dtype_of (drop_unnamed d l) c = dtype_of d c.
Proof.
  intros Hc. unfold drop_unnamed. revert d.
  induction l as [|c' l IH]; intros d; simpl; [done|].
  rewrite IH. destruct (is_unnamed c') eqn:Hu; [|done].
  unfold dtype_of, drop_column; cbn [dtypes].
  rewrite lookup_delete_ne; [done|]. intros ->. congruence.
Qed.

Lemma sort_values_dtypes d c d' :
  sort_values d c = inr d' -> dtypes d' = dtypes d.
Proof.
  unfold sort_values. destruct (negb (has_col d c)); [done|].
  destruct (_ && _); [done|]. by intros [= <-].
Qed.

Lemma ensure_order_dtype d d' c :
  ensure_order d = inr d' -> is_unnamed c = false -> c <> ORDER_COL ->
  dtype_of d' c = dtype_of d c.
Proof.
  unfold ensure_order. intros Hd Hu Hne.
  apply sort_values_dtypes in Hd. unfold dtype_of at 1. rewrite Hd.
  fold (dtype_of (if negb (has_col (drop_unnamed d (columns d)) ORDER_COL)
                  then set_column (drop_unnamed d (columns d)) ORDER_COL
                         (fun i => Int (Z.of_nat i + 1))
                  else drop_unnamed d (columns d)) c).
  destruct (negb _).
  - unfold dtype_of, set_column; cbn [dtypes].
    rewrite lookup_insert_ne by done. by apply drop_unnamed_dtype.
  - by apply drop_unnamed_dtype.
Qed.

(** A labelling column the table brought keeps its dtype; one the load
    branch made is [int64] for a tag and [object] for the flag and the
    notes. *)
Lemma load_data_dtype file d0 d c :
  load_input file = inr d0 -> load_data file = inr d ->
  c ∈ label_cols ->
  dtype_of d c
  = if bool_decide (c ∈ columns d0) then dtype_of d0 c
    else if bool_decide (c ∈ TAG_COLS) then Int64 else Object.
Proof.
  intros H0 Hd Hc. rewrite (load_data_columns file d0 H0) in Hd.
  assert (Happ : c ∈ app_columns).
  { unfold app_columns. apply label_cols_elem in Hc.
    rewrite !elem_of_app, !elem_of_cons. tauto. }
  destruct (app_columns_named c Happ) as [Hname Hord].
  rewrite (ensure_order_dtype _ _ c Hd Hname Hord).
  rewrite !ensure_column_dtype, !ensure_columns_dtype.
  pose proof flag_not_tag. pose proof notes_not_tag. pose proof flag_not_notes.
  destruct flag_notes_fresh as [Hfn Hnn].
  pose proof tags_not_needed as Htn. rewrite forallb_forall in Htn.
  assert (Htag : c ∈ TAG_COLS -> c ∉ needed).
  { intros Ht. specialize (Htn c ltac:(by apply list_elem_of_In)).
    by apply bool_decide_eq_true_1 in Htn. }
  apply label_cols_elem in Hc.
  cbn [scalar_dtype].
  repeat case_bool_decide; try done; exfalso;
    rewrite ?ensure_column_columns, ?ensure_columns_columns in *;
    destruct Hc as [-> | [Hc | ->]];
    repeat match goal with
           | H : _ /\ _ |- _ => destruct H
           end; subst; intuition congruence.
Qed.

(** A table without the tag columns whose flag and notes columns, if it has
    them, hold texts loads as a frame every assignment of Save goes
    through on. *)
Lemma load_data_writable file d0 d :
  load_input file = inr d0 -> load_data file = inr d ->
  (forall c, c ∈ TAG_COLS -> c ∉ columns d0) ->
  takes d0 MAIN_FLAG_COL (Str []) -> takes d0 NOTES_COL (Str []) ->
  writable d.
Proof.
  intros H0 Hd Ht Hf Hn.
  split; [|split].
  - rewrite (load_data_dtype file d0 d _ H0 Hd)
      by (apply label_cols_elem; tauto).
    case_bool_decide; [by apply Hf|].
    rewrite bool_decide_eq_false_2 by apply flag_not_tag. done.
  - rewrite (load_data_dtype file d0 d _ H0 Hd)
      by (apply label_cols_elem; tauto).
    case_bool_decide; [by apply Hn|].
    rewrite bool_decide_eq_false_2 by apply notes_not_tag. done.
  - intros c Hc.
    rewrite (load_data_dtype file d0 d _ H0 Hd)
      by (apply label_cols_elem; tauto).
    rewrite bool_decide_eq_false_2 by by apply Ht.
    by rewrite bool_decide_eq_true_2.
Qed.

(** ** A table that brings no order column *)

Lemma fresh_order_column file d0 d :
  load_input file = inr d0 -> ORDER_COL ∉ columns d0 ->
  load_data file = inr d ->
  exists n, order_column d = (fun k => Some (Int (Z.of_nat k))) <$> seq 1 n.
Proof.
  intros Hload Hno Hd.
  rewrite (load_data_columns file d0 Hload) in Hd.
  rewrite ensure_order_fresh in Hd.
  - apply (inj inr) in Hd. rewrite <- Hd.
    exact (ex_intro _ _ (numbered_order_column _)).
  - rewrite !ensure_column_columns, !ensure_columns_columns.
    pose proof order_not_tag. pose proof order_not_needed.
    pose proof order_not_flag. pose proof order_not_notes. tauto.
Qed.

Lemma numbered_NoDup n :
  NoDup ((fun k => Some (Int (Z.of_nat k))) <$> seq 1 n).
Proof.
  apply NoDup_fmap_2; [|apply NoDup_seq].
  intros j k [= H]. lia.
Qed.

Lemma order_column_int_keys d n :
  order_column d = (fun k => Some (Int (Z.of_nat k))) <$> seq 1 n ->
  int_keys d.
Proof.
  intros Ho r Hr. apply list_elem_of_lookup_1 in Hr as [j Hj].
  assert (H : order_column d !! j = Some (r !! ORDER_COL)).
  { unfold order_column. by rewrite list_lookup_fmap, Hj. }
  rewrite Ho, list_lookup_fmap in H.
  destruct (seq 1 n !! j) as [k|]; [|done].
  injection H as H. by exists (Z.of_nat k).
Qed.

Lemma int_keys_order_column d d' :
  order_column d' = order_column d -> int_keys d -> int_keys d'.
Proof.
  intros Ho Hk r Hr. apply list_elem_of_lookup_1 in Hr as [j Hj].
  assert (H : order_column d !! j = Some (r !! ORDER_COL)).
  { rewrite <- Ho. unfold order_column. by rewrite list_lookup_fmap, Hj. }
  unfold order_column in H. rewrite list_lookup_fmap in H.
  destruct (rows d !! j) as [x|] eqn:Hx; [|done].
  injection H as H. rewrite <- H. apply Hk.
  by apply list_elem_of_lookup_2 in Hx.
Qed.

Lemma on_display_position s d r pos :
  df s = Some d -> NoDup (order_column d) ->
  on_display s = Some (r, pos) -> rows d !! pos = Some r.
Proof.
  intros Hd Hnd. unfold on_display. rewrite Hd.
  destruct (unlabeled_mask d) as [e | mask]; [done|].
  destruct (select_record _ _ _ _) as [e | [[r' pos'] b]] eqn:Hsel; [done|].
  intros [= -> ->].
  destruct (select_record_inv _ _ _ _ _ _ _ Hsel) as (o & Hil & Ho & Hp & _).
  apply iloc_elem in Hil.
  pose proof (elem_of_sublist _ _ _ Hil (build_view_sublist _ _ _)) as Hin.
  apply list_elem_of_lookup_1 in Hin as [p Hp'].
  by rewrite (real_position_displayed d r pos p Hnd Hp' Hp).
Qed.

(** X16.  A table that brings no [__row_order] column is numbered by the
    loader, and from then on, whatever is clicked: the order keys of the
    frame are pairwise distinct, so the position Save writes ([real_pos]) is
    always the position of the record on display; and when the table has
    none of the tag columns either, and its flag and notes columns, if it
    has them, hold texts, no execution raises. *)
Theorem fresh_table_sound (file : UploadedFile) (d0 d : DataFrame)
    (s : Session) (es : list event) :
  load_input file = inr d0 ->
  ORDER_COL ∉ columns d0 ->
  load_data file = inr d ->
  reachable s ->
  df s = Some d ->
  exists d',
    df (run s es) = Some d' /\
    NoDup (order_column d') /\
    (forall r pos,
       on_display (run s es) = Some (r, pos) -> rows d' !! pos = Some r) /\
    ((forall c, c ∈ TAG_COLS -> c ∉ columns d0) ->
     takes d0 MAIN_FLAG_COL (Str []) ->
     takes d0 NOTES_COL (Str []) ->
     forall i e, ending (render (run s es) i) <> Raised e).
Proof.
  intros Hload Hno Hd Hreach Hs.
  destruct (fresh_order_column file d0 d Hload Hno Hd) as [n Ho].
  destruct (no_reload_frames s d es Hs) as (d' & Hd' & Hed).
  pose proof (edited_order_column d d' Hed) as Ho'.
  assert (Hnd : NoDup (order_column d'))
    by (rewrite Ho', Ho; apply numbered_NoDup).
  exists d'. split; [done|]. split; [done|]. split.
  - intros r pos. by apply on_display_position.
  - intros Htags Hflag Hnotes i e.
    assert (Hn : numeric_tags d).
    { intros r c Hr Hc.
      destruct (load_data_tag_default file d0 d c Hload Hd Hc (Htags c Hc))
        as [_ Hcell].
      unfold getitem. by rewrite (Hcell r Hr). }
    pose proof (reachable_labelling s d Hreach Hs) as L.
    destruct (edited_sound d d' Hed
                (int_keys_readable d (order_column_int_keys d n Ho)) Hn)
      as [Hk' Hn'].
    apply (render_sound _ i d' Hd'); try done.
    + by apply reachable_cursor, reachable_run.
    + apply (reachable_labelling (run s es) d'); [by apply reachable_run | done].
    + apply (edited_writable d d' L Hed).
      by apply (load_data_writable file d0 d).
Qed.

Lemma fresh_table_sound_witness :
  exists d',
    df (run sample_session sample_events) = Some d' /\
    NoDup (order_column d') /\
    ending (render (run sample_session sample_events) idle) <> Raised TypeError.
Proof.
  destruct (fresh_table_sound sample_csv sample_table
              (the_frame sample_session) sample_session sample_events)
    as (d' & Hd' & Hnd & _ & Hsafe).
  - reflexivity.
  - apply (bool_decide_unpack _). vm_compute. exact I.
  - by_evaluation.
  - exact sample_session_reachable.
  - exact sample_session_loaded.
  - exists d'. split; [exact Hd' | split; [exact Hnd|]].
    apply Hsafe.
    + intros c Hc. revert c Hc. apply Forall_forall.
      apply (bool_decide_unpack _). vm_compute. exact I.
    + intros Hin. exfalso. revert Hin.
      apply (bool_decide_unpack _). vm_compute. exact I.
    + intros Hin. exfalso. revert Hin.
      apply (bool_decide_unpack _). vm_compute. exact I.
Defined.

(** ** Save on the filtered view *)

Lemma select_rows_delete (f : row -> row) (m : list bool) (l : list row)
    (pos : nat) (r : row) :
  m !! pos = Some true -> l !! pos = Some r ->
  exists k,
    select_rows m l !! k = Some r /\
    select_rows (<[pos := false]> m) (alter f pos l)
    = delete k (select_rows m l).
Proof.
  revert l pos. induction m as [|b m IH]; intros [|x l] [|pos] Hm Hl;
    try done.
  - injection Hm as ->. injection Hl as ->. by exists 0%nat.
  - destruct (IH l pos Hm Hl) as (k & Hk & Heq).
    destruct b.
    + exists (S k). split; [done|]. simpl. by rewrite <- Heq.
    + exists k. split; [done|]. simpl. by rewrite <- Heq.
Qed.

Lemma distinct_rows d : NoDup (order_column d) -> NoDup (rows d).
Proof. apply NoDup_fmap_1. Qed.

(** X17.  Save on the view of the unlabeled records, with pairwise distinct
    order keys and columns that take the values Save assigns.  The record
    saved leaves the view, so the next view is the
    old one without the record at [idx], while the cursor still moves on by
    one: the next execution picks the record two places after the saved one
    (the record right after it is passed over) when there is one, and the
    first record of the view otherwise. *)
Theorem save_on_filtered_view (s : Session) (i : Inputs) (d : DataFrame)
    (mask : list bool) (r : row) (pos : nat) (b : Staged) :
  reachable s ->
  df s = Some d ->
  unlabeled_mask d = inr mask ->
  filter_unlabeled s = true ->
  let view := build_view d mask true in
  let idx := checked_idx (len view) (view_idx s) in
  select_record d view idx (staged s) = inr (r, pos, b) ->
  NoDup (order_column d) ->
  writable d ->
  clicked i = Some Save ->
  cs_choice i <> opt_select ->
  exists d' mask',
    df (session (render s i)) = Some d' /\
    unlabeled_mask d' = inr mask' /\
    filter_unlabeled (session (render s i)) = true /\
    view !! Z.to_nat idx = Some r /\
    build_view d' mask' true = delete (Z.to_nat idx) view /\
    checked_idx (len (build_view d' mask' true))
      (view_idx (session (render s i)))
    = (if idx + 2 <? len view then idx + 1 else 0) /\
    (forall x, view !! (Z.to_nat idx + 2)%nat = Some x ->
       iloc (build_view d' mask' true)
         (checked_idx (len (build_view d' mask' true))
            (view_idx (session (render s i)))) = inr x).
Proof.
  intros Hreach Hd Hm Hf view idx Hsel Hnd Hw Hc Hch.
  pose proof (reachable_labelling s d Hreach Hd) as L.
  pose proof (reachable_cursor s Hreach) as H0.
  destruct (select_record_inv _ _ _ _ _ _ _ Hsel) as (o & Hil & Ho & Hp & Hb).
  assert (Hv : build_view d mask (filter_unlabeled s) <> []).
  { rewrite Hf. fold view. intros E. apply iloc_elem in Hil.
    rewrite E in Hil. by apply elem_of_nil in Hil. }
  assert (Hn : 0 < len view).
  { rewrite Hf in Hv. fold view in Hv. apply len_pos in Hv.
    apply Z.eqb_neq in Hv. unfold len in *. lia. }
  pose proof (checked_idx_range (len view) (view_idx s) Hn H0) as Hr.
  fold idx in Hr.
  pose proof (iloc_lookup view idx r ltac:(lia) Hil) as Hidx.
  pose proof Hidx as Hin. apply list_elem_of_lookup_2 in Hin.
  apply select_rows_elem in Hin as (p & Hpr & Hpm).
  pose proof (real_position_displayed d r pos p Hnd Hpr Hp) as ->.
  destruct (select_rows_delete
              (commit_row (stage_widgets b i)) mask (rows d) p r Hpm Hpr)
    as (k & Hk & Hdel).
  assert (k = Z.to_nat idx) as ->.
  { apply (NoDup_lookup view _ _ r); [|done | done].
    pose proof (build_view_sublist d mask true) as Hsub.
    pose proof (distinct_rows d Hnd) as Hrows.
    exact (sublist_NoDup _ _ Hrows Hsub). }
  assert (Hs' : session (render s i)
              = moved s (committed d p (stage_widgets b i))
                  (Z.min (len view - 1) (idx + 1)) None).
  { assert (Hsel' :
      select_record d (build_view d mask (filter_unlabeled s))
        (checked_idx (len (build_view d mask (filter_unlabeled s)))
           (view_idx s)) (staged s) = inr (r, p, b))
      by (rewrite Hf; exact Hsel).
    rewrite (render_at_record s i d mask r p b Hd Hm Hv Hsel'), Hf.
    fold view. fold idx. unfold actions. rewrite Hc.
    assert (Hfl : bool_decide (flag (stage_widgets b i) = None) = false).
    { cbn [flag stage_widgets]. by destruct (cs_choice i). }
    by rewrite Hfl, (commit_writable d p _ L Hw). }
  assert (Hlen : len (delete (Z.to_nat idx) view) = len view - 1).
  { unfold len. rewrite length_delete by by eexists. unfold len in Hn. lia. }
  exists (committed d p (stage_widgets b i)), (<[p := false]> mask).
  rewrite Hs'. cbn [moved df filter_unlabeled view_idx].
  assert (Hview : build_view (committed d p (stage_widgets b i))
                    (<[p := false]> mask) true
                  = delete (Z.to_nat idx) view).
  { unfold build_view. by rewrite commit_rows. }
  rewrite Hview, Hlen.
  assert (Hnext : checked_idx (len view - 1) (Z.min (len view - 1) (idx + 1))
                  = if idx + 2 <? len view then idx + 1 else 0).
  { unfold checked_idx.
    destruct (Z.ltb_spec (idx + 2) (len view));
      destruct (Z.leb_spec (len view - 1) (Z.min (len view - 1) (idx + 1)));
      lia. }
  split; [done|]. split.
  { apply unlabeled_mask_commit; [done | done |].
    by apply lookup_lt_Some in Hpr. }
  split; [done|]. split; [done|]. split; [done|]. split; [done|].
  intros x Hx. rewrite Hnext.
  assert (Hlt : idx + 2 < len view).
  { apply lookup_lt_Some in Hx. unfold len. lia. }
  destruct (Z.ltb_spec (idx + 2) (len view)); [|lia].
  unfold iloc. destruct (Z.ltb_spec (idx + 1) 0); [lia|].
  destruct (Z.ltb_spec (idx + 1) 0); [lia|].
  rewrite list_lookup_delete_ge by lia.
  replace (S (Z.to_nat (idx + 1))) with (Z.to_nat idx + 2)%nat by lia.
  by rewrite Hx.
Qed.

Lemma save_on_filtered_view_witness :
  exists d' mask',
    df (session (render sample_session (save_as opt_Y))) = Some d' /\
    unlabeled_mask d' = inr mask' /\
    iloc (build_view d' mask' true)
      (checked_idx (len (build_view d' mask' true))
         (view_idx (session (render sample_session (save_as opt_Y)))))
    = inr sample_row3.
Proof.
  destruct (save_on_filtered_view sample_session (save_as opt_Y)
              (the_frame sample_session) [true; true; true]
              sample_row 0%nat sample_staged
              sample_session_reachable sample_session_loaded
              sample_session_mask eq_refl sample_on_display)
    as (d' & mask' & Hd' & Hm' & _ & _ & _ & _ & Hnext).
  - apply (bool_decide_unpack _). vm_compute. exact I.
  - apply writable_check. vm_compute. reflexivity.
  - reflexivity.
  - discriminate.
  - exists d', mask'. split; [exact Hd' | split; [exact Hm'|]].
    apply Hnext. by_evaluation.
Defined.

(** ** The kind of the uploaded file *)

Lemma startswith_app (p t : str) : startswith (p ++ t) p = true.
Proof.
  induction p as [|a p IH]; [by destruct t|]. simpl. by rewrite N.eqb_refl, IH.
Qed.

Lemma endswith_app (s p : str) : endswith (s ++ p) p = true.
Proof. unfold endswith. rewrite reverse_app. apply startswith_app. Qed.

(** X18.  [load_input] goes by the end of the file name alone, in any
    letter case: a file whose name ends in [.csv], [.CSV], [.Csv], ... is
    read with [pd.read_csv] and what that returns or raises is the result;
    the workbook reader is not consulted. *)
Theorem csv_by_extension (file : UploadedFile) (stem ext : str) :
  name file = stem ++ ext ->
  lower ext = lit ".csv" ->
  load_input file = read_csv file /\
  forall s i, df s = None -> uploaded i = Some file ->
    forall e, read_csv file = inl e ->
      render s i
      = {| session := s; page := [st_error e; st_info]; ending := Stopped |}.
Proof.
  intros Hname Hext.
  assert (Hin : load_input file = read_csv file).
  { unfold load_input, lower. rewrite Hname, fmap_app.
    fold (lower ext). by rewrite Hext, endswith_app. }
  split; [done|].
  intros s i Hd Hup e He. unfold render, load_branch, load_data.
  rewrite Hup, Hd, Hin, He. simpl. by rewrite Hd.
Qed.

Lemma csv_by_extension_witness :
  load_input capitals_csv = inr sample_table.
Proof.
  destruct (csv_by_extension capitals_csv (lit "COMPANIES") (lit ".CSV"))
    as [H _]; [reflexivity | reflexivity | exact H].
Defined.

(** ** A Save that raises *)

Lemma assign_all_app d pos ws1 ws2 :
  assign_all d pos (ws1 ++ ws2)
  = match assign_all d pos ws1 with
    | (d1, None) => assign_all d1 pos ws2
    | x => x
    end.
Proof.
  revert d. induction ws1 as [|[c v] ws1 IH]; intros d; simpl; [done|].
  destruct (loc_set d pos c v) as [e | d']; [done|]. apply IH.
Qed.

Lemma loc_set_refused d pos c v :
  c ∈ columns d -> accepts (dtype_of d c) v = false ->
  loc_set d pos c v = inl TypeError.
Proof.
  intros Hc Ha. unfold loc_set, has_col.
  by rewrite (bool_decide_eq_true_2 _ Hc), Ha.
Qed.

(** The values of lines 272-274: the flag and the tags. *)
Lemma staged_values_split b :
  staged_values b
  = ((MAIN_FLAG_COL,
      Str (if default false (flag b) then lit "Y" else lit "N"))
     :: ((fun c => (c, Int (if default false (tags b !! c) then 1 else 0)))
           <$> TAG_COLS))
    ++ [(NOTES_COL, Str (notes b))].
Proof. done. Qed.

Lemma put_row_flag_tags b r :
  let r' := put_row
              ((MAIN_FLAG_COL,
                Str (if default false (flag b) then lit "Y" else lit "N"))
               :: ((fun c =>
                      (c, Int (if default false (tags b !! c) then 1 else 0)))
                     <$> TAG_COLS)) r in
  r' !! MAIN_FLAG_COL
  = Some (Str (if default false (flag b) then lit "Y" else lit "N")) /\
  (forall c, c ∈ TAG_COLS ->
     r' !! c = Some (Int (if default false (tags b !! c) then 1 else 0))) /\
  (forall c, c <> MAIN_FLAG_COL -> c ∉ TAG_COLS -> r' !! c = r !! c).
Proof.
  intros r'.
  assert (E : forall c, r' !! c = commit_row b r !! c \/ c = NOTES_COL).
  { intros c. destruct (decide (c = NOTES_COL)) as [-> | Hne]; [by right|].
    left. rewrite <- commit_row_puts, staged_values_split, put_row_app.
    fold r'. cbn [put_row foldl fst snd]. by rewrite lookup_insert_ne. }
  split; [|split].
  - destruct (E MAIN_FLAG_COL) as [-> | H]; [apply commit_row_flag|].
    by apply flag_not_notes in H.
  - intros c Hc. destruct (E c) as [-> | ->]; [by apply commit_row_tag|].
    by apply notes_not_tag in Hc.
  - intros c Hf Ht. destruct (decide (c = NOTES_COL)) as [-> | Hn].
    + unfold r'. apply put_row_other.
      change (NOTES_COL ∉ MAIN_FLAG_COL :: TAG_COLS).
      intros [H | H]%elem_of_cons; [by apply flag_not_notes | done].
    + destruct (E c) as [-> | ->]; [by apply commit_row_other | done].
Qed.

(** X19.  When Save is clicked with Y or N chosen and a column does not
    take the value assigned to it, the execution raises [TypeError] at that
    assignment, and the assignments made before it stay.  When the flag
    column holds no text (lines 272), nothing is written.  When the flag and
    tag columns take their values and the notes column holds no text (line
    275), the flag and the ten tags of the record at [real_pos] are written
    and its notes are not.  In both cases the cursor is the checked one and
    the staged buffer holds what the widgets show, so the same record is on
    display again. *)
Theorem save_raises (s : Session) (i : Inputs) (d : DataFrame)
    (mask : list bool) (r : row) (pos : nat) (b : Staged) :
  reachable s ->
  df s = Some d ->
  unlabeled_mask d = inr mask ->
  build_view d mask (filter_unlabeled s) <> [] ->
  let view := build_view d mask (filter_unlabeled s) in
  let idx := checked_idx (len view) (view_idx s) in
  select_record d view idx (staged s) = inr (r, pos, b) ->
  clicked i = Some Save ->
  cs_choice i <> opt_select ->
  (accepts (dtype_of d MAIN_FLAG_COL) (Str []) = false ->
   session (render s i)
   = {| df := Some d; view_idx := idx;
        filter_unlabeled := filter_unlabeled s;
        staged := Some (stage_widgets b i) |} /\
   ending (render s i) = Raised TypeError) /\
  (accepts (dtype_of d MAIN_FLAG_COL) (Str []) = true ->
   (forall c, c ∈ TAG_COLS -> accepts (dtype_of d c) (Int 0) = true) ->
   accepts (dtype_of d NOTES_COL) (Str []) = false ->
   exists d',
     session (render s i)
     = {| df := Some d'; view_idx := idx;
          filter_unlabeled := filter_unlabeled s;
          staged := Some (stage_widgets b i) |} /\
     ending (render s i) = Raised TypeError /\
     columns d' = columns d /\
     forall r0, rows d !! pos = Some r0 ->
       exists r',
         rows d' = <[pos := r']> (rows d) /\
         r' !! MAIN_FLAG_COL
         = Some (Str (match cs_choice i with
                      | opt_Y => lit "Y"
                      | _ => lit "N"
                      end)) /\
         (forall c, c ∈ TAG_COLS ->
            r' !! c = Some (Int (if checkbox i c then 1 else 0))) /\
         (forall c, c <> MAIN_FLAG_COL -> c ∉ TAG_COLS -> r' !! c = r0 !! c)).
Proof.
  intros Hreach Hd Hm Hv view idx Hsel Hc Hch.
  pose proof (reachable_labelling s d Hreach Hd) as L.
  pose proof L as (_ & Lf & Ln & Lt).
  pose proof (render_at_record s i d mask r pos b Hd Hm Hv Hsel) as Hr.
  fold view in Hr. fold idx in Hr.
  assert (Hfl : bool_decide (flag (stage_widgets b i) = None) = false).
  { cbn [flag stage_widgets]. by destruct (cs_choice i). }
  rewrite Hr. unfold actions. rewrite Hc, Hfl. cbn [is_save negb andb].
  set (b' := stage_widgets b i) in *.
  split.
  - intros Hno.
    assert (E : commit d pos b' = (d, Some TypeError)).
    { unfold commit, staged_values. cbn [assign_all].
      rewrite loc_set_refused; [done | done |].
      by rewrite (accepts_text _ _ []). }
    by rewrite E.
  - intros Hf Ht Hno.
    set (ws := (MAIN_FLAG_COL,
                Str (if default false (flag b') then lit "Y" else lit "N"))
               :: ((fun c =>
                      (c, Int (if default false (tags b' !! c) then 1 else 0)))
                     <$> TAG_COLS)).
    assert (Hws : forall c, c ∈ ws.*1 -> c ∈ columns d).
    { intros c Hin. apply (labelling_label_cols d c L).
      rewrite <- (staged_values_cols b'), staged_values_split, fmap_app.
      apply elem_of_app. by left. }
    destruct (put_all_columns_eq d pos ws Hws) as [E1 E2].
    assert (E : commit d pos b' = (put_all d pos ws, Some TypeError)).
    { unfold commit. rewrite staged_values_split. fold ws.
      rewrite assign_all_app, assign_all_accepted.
      - cbn [assign_all]. rewrite loc_set_refused; [done | by rewrite E1 |].
        unfold dtype_of. rewrite E2. by rewrite (accepts_text _ _ []).
      - intros w Hw. unfold ws in Hw.
        apply elem_of_cons in Hw as [-> | Hw]; simpl.
        { split; [done|]. by rewrite (accepts_text _ _ []). }
        apply list_elem_of_fmap in Hw as (c & -> & Hin). simpl.
        split; [by apply Lt|]. rewrite (accepts_int _ _ 0). by apply Ht. }
    rewrite E. exists (put_all d pos ws).
    split; [done|]. split; [done|]. split; [done|].
    intros r0 Hr0. exists (put_row ws r0).
    split; [rewrite rows_put_all; by apply alter_insert|].
    destruct (put_row_flag_tags b' r0) as (Pf & Pt & Po). fold ws in Pf, Pt, Po.
    split; [|split].
    + rewrite Pf. unfold b'. cbn [flag stage_widgets].
      by destruct (cs_choice i).
    + intros c Hin. rewrite (Pt c Hin). unfold b'.
      by rewrite (stage_widgets_tags _ _ _ Hin).
    + exact Po.
Qed.

Lemma empty_flag_session_reachable : reachable empty_flag_session.
Proof.
  exists [Interact (with_upload (Some empty_flag_csv) idle)]. reflexivity.
Defined.

Lemma empty_notes_session_reachable : reachable empty_notes_session.
Proof.
  exists [Interact (with_upload (Some empty_notes_csv) idle)]. reflexivity.
Defined.

Lemma save_raises_witness :
  (ending (render empty_flag_session (save_as opt_Y)) = Raised TypeError /\
   df (session (render empty_flag_session (save_as opt_Y)))
   = Some (the_frame empty_flag_session)) /\
  ending (render empty_notes_session (save_as opt_Y)) = Raised TypeError /\
  written (the_frame (session (render empty_notes_session (save_as opt_Y))))
  = [(Str (lit "Acme"), Str (lit "Y"), Int 0, Int 1, NA);
     (Str (lit "Borealis"), NA, Int 0, Int 0, NA)].
Proof.
  split; [|split].
  - destruct (save_raises empty_flag_session (save_as opt_Y)
                (the_frame empty_flag_session) [true; true]
                (default ∅ (rows (the_frame empty_flag_session) !! 0%nat))
                0%nat
                (default (init_staged_state 0) (staged empty_flag_session))
                empty_flag_session_reachable)
      as (H & _).
    + apply the_frame_loaded. vm_compute. reflexivity.
    + vm_compute. reflexivity.
    + apply nonempty_length. vm_compute. reflexivity.
    + by_evaluation.
    + reflexivity.
    + discriminate.
    + destruct H as [Hs He]; [vm_compute; reflexivity|].
      split; [exact He|]. rewrite Hs. reflexivity.
  - destruct (save_raises empty_notes_session (save_as opt_Y)
                (the_frame empty_notes_session) [true; true]
                (default ∅ (rows (the_frame empty_notes_session) !! 0%nat))
                0%nat
                (default (init_staged_state 0) (staged empty_notes_session))
                empty_notes_session_reachable)
      as (_ & H).
    + apply the_frame_loaded. vm_compute. reflexivity.
    + vm_compute. reflexivity.
    + apply nonempty_length. vm_compute. reflexivity.
    + by_evaluation.
    + reflexivity.
    + discriminate.
    + destruct H as (d' & _ & He & _).
      * vm_compute. reflexivity.
      * intros c Hc. revert c Hc. apply Forall_forall.
        apply (bool_decide_unpack _). vm_compute. exact I.
      * vm_compute. reflexivity.
      * exact He.
  - by_evaluation.
Defined.

(** ** The dtypes the load branch gives *)

(** X20.  In the frame a load gives, a labelling column the table brought
    keeps the dtype it had; a tag column the load branch made is [int64],
    and a flag or notes column it made is [object].  So when the table has
    none of the tag columns, and its flag and notes columns, if it has them,
    hold texts, every assignment of Save goes through: Save with Y or N
    chosen runs to its end. *)
Theorem loader_dtypes (file : UploadedFile) (d0 d : DataFrame) :
  load_input file = inr d0 ->
  load_data file = inr d ->
  (forall c, c ∈ label_cols -> c ∈ columns d0 ->
     dtype_of d c = dtype_of d0 c) /\
  (forall c, c ∈ TAG_COLS -> c ∉ columns d0 -> dtype_of d c = Int64) /\
  (MAIN_FLAG_COL ∉ columns d0 -> dtype_of d MAIN_FLAG_COL = Object) /\
  (NOTES_COL ∉ columns d0 -> dtype_of d NOTES_COL = Object) /\
  ((forall c, c ∈ TAG_COLS -> c ∉ columns d0) ->
   takes d0 MAIN_FLAG_COL (Str []) -> takes d0 NOTES_COL (Str []) ->
   writable d /\
   forall pos b, commit d pos b = (committed d pos b, None)).
Proof.
  intros H0 Hd.
  pose proof (fun c => load_data_dtype file d0 d c H0 Hd) as Hty.
  split; [|split; [|split; [|split]]].
  - intros c Hc Hin. rewrite (Hty c Hc). by rewrite bool_decide_eq_true_2.
  - intros c Hc Hout. rewrite Hty by (apply label_cols_elem; tauto).
    rewrite bool_decide_eq_false_2 by done. by rewrite bool_decide_eq_true_2.
  - intros Hout. rewrite Hty by (apply label_cols_elem; tauto).
    rewrite bool_decide_eq_false_2 by done.
    by rewrite bool_decide_eq_false_2 by apply flag_not_tag.
  - intros Hout. rewrite Hty by (apply label_cols_elem; tauto).
    rewrite bool_decide_eq_false_2 by done.
    by rewrite bool_decide_eq_false_2 by apply notes_not_tag.
  - intros Ht Hf Hn.
    pose proof (load_data_writable file d0 d H0 Hd Ht Hf Hn) as Hw.
    split; [done|]. intros pos b.
    apply commit_writable; [by apply load_data_labelling with file | done].
Qed.

Lemma loader_dtypes_witness :
  dtype_of (frame_of (load_data sample_csv)) MAIN_FLAG_COL = Object /\
  dtype_of (frame_of (load_data empty_flag_csv)) MAIN_FLAG_COL = Float64 /\
  writable (frame_of (load_data sample_csv)).
Proof.
  destruct (loader_dtypes sample_csv sample_table
              (frame_of (load_data sample_csv)))
    as (_ & _ & Hflag & _ & Hw); [by_evaluation | by_evaluation |].
  destruct (loader_dtypes empty_flag_csv
              (frame_of (read_csv empty_flag_csv))
              (frame_of (load_data empty_flag_csv)))
    as (Hkeep & _); [by_evaluation | by_evaluation |].
  split; [|split].
  - apply Hflag. apply (bool_decide_unpack _). vm_compute. exact I.
  - rewrite Hkeep; [reflexivity | |];
      apply (bool_decide_unpack _); vm_compute; exact I.
  - apply Hw.
    + intros c Hc. revert c Hc. apply Forall_forall.
      apply (bool_decide_unpack _). vm_compute. exact I.
    + intros Hin. exfalso. revert Hin.
      apply (bool_decide_unpack _). vm_compute. exact I.
    + intros Hin. exfalso. revert Hin.
      apply (bool_decide_unpack _). vm_compute. exact I.
Defined.
